(** * hms_core.py: inventory, appointment and invoice operations over the
      SQLite record store

    A shallow embedding of [src/hms_core.py].  The console is a list of
    input lines and a log of printed messages, the SQLite connection is a
    pair of database values (the committed one and the connection's view),
    Python exceptions are an explicit result type.  Python's [float] is
    IEEE binary64, modelled by the primitive floats; its [int] is
    unbounded, modelled by [Z].  Text is ASCII: a string is a sequence of
    ASCII characters. *)

From Stdlib Require Import ZArith List String Ascii Bool Lia Floats DecimalString.
From Stdlib Require QArith Qabs.
Import ListNotations.

Local Open Scope string_scope.
Local Open Scope Z_scope.

(** ** Python builtins used by the program *)

Module Py.

(** Exceptions that the program can meet.  [sqlite3.Error] never leaves
    [DatabaseManager.execute_query] and has no constructor here. *)
Inductive exn := ValueError | EOFError | OverflowError.

Inductive result (A : Type) :=
| Ok (a : A)
| Raise (e : exn).
Arguments Ok {A} a.
Arguments Raise {A} e.

(** [str.isspace] on one ASCII character: TAB, LF, VT, FF, CR, FS, GS, RS,
    US and the space. *)
Definition isspace (c : ascii) : bool :=
  let n := Z.of_nat (nat_of_ascii c) in
  ((9 <=? n) && (n <=? 13)) || ((28 <=? n) && (n <=? 32)).

Definition isdigit (c : ascii) : bool :=
  let n := Z.of_nat (nat_of_ascii c) in (48 <=? n) && (n <=? 57).

Definition digit_value (c : ascii) : Z := Z.of_nat (nat_of_ascii c) - 48.

Definition lower_ascii (c : ascii) : ascii :=
  let n := nat_of_ascii c in
  if ((65 <=? Z.of_nat n) && (Z.of_nat n <=? 90)) then ascii_of_nat (n + 32) else c.

Definition upper_ascii (c : ascii) : ascii :=
  let n := nat_of_ascii c in
  if ((97 <=? Z.of_nat n) && (Z.of_nat n <=? 122)) then ascii_of_nat (n - 32) else c.

Fixpoint map_string (f : ascii -> ascii) (s : string) : string :=
  match s with
  | EmptyString => EmptyString
  | String c r => String (f c) (map_string f r)
  end.

(** [str.lower], [str.upper], [str.capitalize] *)
Definition lower : string -> string := map_string lower_ascii.
Definition upper : string -> string := map_string upper_ascii.
Definition capitalize (s : string) : string :=
  match s with
  | EmptyString => EmptyString
  | String c r => String (upper_ascii c) (lower r)
  end.

Fixpoint lstrip (s : string) : string :=
  match s with
  | EmptyString => EmptyString
  | String c r => if isspace c then lstrip r else s
  end.

Fixpoint rstrip (s : string) : string :=
  match s with
  | EmptyString => EmptyString
  | String c r =>
      match rstrip r with
      | EmptyString => if isspace c then EmptyString else String c EmptyString
      | r' => String c r'
      end
  end.

(** [str.strip] *)
Definition strip (s : string) : string := rstrip (lstrip s).

(** White space that [int] and [float] skip around an ASCII literal (the
    C [isspace]): TAB, LF, VT, FF, CR and the space. *)
Definition isspace_c (c : ascii) : bool :=
  let n := Z.of_nat (nat_of_ascii c) in
  ((9 <=? n) && (n <=? 13)) || (n =? 32).

Fixpoint lskip (s : string) : string :=
  match s with
  | EmptyString => EmptyString
  | String c r => if isspace_c c then lskip r else s
  end.

Fixpoint rskip (s : string) : string :=
  match s with
  | EmptyString => EmptyString
  | String c r =>
      match rskip r with
      | EmptyString => if isspace_c c then EmptyString else String c EmptyString
      | r' => String c r'
      end
  end.

Definition skip_space (s : string) : string := rskip (lskip s).

(** [str(n)] for an integer *)
Definition str_int (z : Z) : string := NilZero.string_of_int (Z.to_int z).

(** [sep.join(l)] *)
Definition join (sep : string) (l : list string) : string := String.concat sep l.

(** A run of digits in which single underscores may separate digits
    ([digitpart] of the language reference).  Returns the value and the
    number of digits read. *)
Fixpoint digitpart_from (s : string) (acc : Z) (n : nat) (after_digit : bool)
  : option (Z * nat) :=
  match s with
  | EmptyString => if after_digit then Some (acc, n) else None
  | String c r =>
      if isdigit c then digitpart_from r (10 * acc + digit_value c) (S n) true
      else if Ascii.eqb c "_"%char then
        (if after_digit then digitpart_from r acc n false else None)
      else None
  end.

Definition digitpart (s : string) : option (Z * nat) := digitpart_from s 0 0%nat false.

(** The sign in front of a numeric literal: [(negative, rest)]. *)
Definition split_sign (s : string) : bool * string :=
  match s with
  | String "-"%char r => (true, r)
  | String "+"%char r => (false, r)
  | _ => (false, s)
  end.

(** Limit of [sys.int_info.default_max_str_digits]. *)
Definition max_str_digits : nat := 4300.

(** [int(s)] for a string; [None] stands for [ValueError]. *)
Definition int_of_str (s : string) : option Z :=
  let (neg, body) := split_sign (skip_space s) in
  match digitpart body with
  | Some (v, n) =>
      if (max_str_digits <? n)%nat then None
      else Some (if neg then - v else v)
  | None => None
  end.

(** *** Floats: [float(s)], [float(n)], [format(x, ".2f")] *)

(** Nearest integer to [p / q], ties to even ([0 <= p], [0 < q]). *)
Definition round_half_even (p q : Z) : Z :=
  let d := p / q in
  match 2 * (p mod q) ?= q with
  | Lt => d
  | Gt => d + 1
  | Eq => if Z.even d then d else d + 1
  end.

(** [(p / q) / 2 ^ e] as a fraction of integers. *)
Definition scale2 (p q e : Z) : Z * Z :=
  if 0 <=? e then (p, q * 2 ^ e) else (p * 2 ^ (- e), q).

(** The binary64 number nearest to [p / q] ([0 < p], [0 < q]), ties to
    even, as the correctly rounded conversions of CPython give it. *)
Definition nearest_binary64 (p q : Z) : spec_float :=
  let k := Z.log2 p - Z.log2 q in
  let fl := (let (n, d) := scale2 p q k in if d <=? n then k else k - 1) in
  let e := Z.max (fl - 52) (-1074) in
  let (n, d) := scale2 p q e in
  binary_normalize prec emax (round_half_even n d) e false.

Definition with_sign (neg : bool) (x : float) : float :=
  if neg then PrimFloat.opp x else x.

(** The value [m * 10 ^ x] of a decimal literal with [nd] digits. *)
Definition decimal_value (m : Z) (nd : nat) (x : Z) : float :=
  if m =? 0 then PrimFloat.zero
  else if 400 <? x then PrimFloat.infinity
  else if Z.of_nat nd + x <? -400 then PrimFloat.zero
  else if 0 <=? x then SF2Prim (nearest_binary64 (m * 10 ^ x) 1)
  else SF2Prim (nearest_binary64 m (10 ^ (- x))).

(** [s] cut at the first occurrence of [c]. *)
Fixpoint cut (c : ascii) (s : string) : string * option string :=
  match s with
  | EmptyString => (EmptyString, None)
  | String a r =>
      if Ascii.eqb a c then (EmptyString, Some r)
      else let (h, t) := cut c r in (String a h, t)
  end.

(** [number] of the grammar of [float]: the digits and the number of
    digits after the point. *)
Definition parse_number (s : string) : option (Z * nat * nat) :=
  match cut "."%char s with
  | (ip, None) =>
      match digitpart ip with
      | Some (v, n) => Some (v, n, 0%nat)
      | None => None
      end
  | (EmptyString, Some fp) =>
      match digitpart fp with
      | Some (v, n) => Some (v, n, n)
      | None => None
      end
  | (ip, Some EmptyString) =>
      match digitpart ip with
      | Some (v, n) => Some (v, n, 0%nat)
      | None => None
      end
  | (ip, Some fp) =>
      match digitpart ip, digitpart_from fp 0 0%nat false with
      | Some (v, n), Some (w, k) => Some (v * 10 ^ Z.of_nat k + w, (n + k)%nat, k)
      | _, _ => None
      end
  end.

Definition parse_exponent (s : option string) : option Z :=
  match s with
  | None => Some 0
  | Some e =>
      let (neg, d) := split_sign e in
      match digitpart d with
      | Some (v, _) => Some (if neg then - v else v)
      | None => None
      end
  end.

(** [float(s)] for a string; [None] stands for [ValueError]. *)
Definition float_of_str (s : string) : option float :=
  let (neg, body) := split_sign (skip_space s) in
  let b := lower body in
  if (b =? "inf")%string || (b =? "infinity")%string then Some (with_sign neg PrimFloat.infinity)
  else if (b =? "nan")%string then Some PrimFloat.nan
  else
    let (mant, ex) := cut "e"%char b in
    match parse_number mant, parse_exponent ex with
    | Some (m, nd, nf), Some x =>
        Some (with_sign neg (decimal_value m nd (x - Z.of_nat nf)))
    | _, _ => None
    end.

(** The binary64 number nearest to the integer [z], ties to even. *)
Definition nearest_float (z : Z) : float :=
  SF2Prim (binary_normalize prec emax z 0 false).

(** [float(n)] for an integer, as in the mixed product [x * n]: correctly
    rounded, and [OverflowError] when the nearest float would be beyond
    the largest one, [2 ^ 1024 - 2 ^ 971], that is from
    [2 ^ 1024 - 2 ^ 970] on. *)
Definition float_of_int (z : Z) : result float :=
  if Z.abs z <? 2 ^ 1024 - 2 ^ 970 then Ok (nearest_float z)
  else Raise OverflowError.

(** [x * n] for a float [x] and an integer [n]. *)
Definition mul_float_int (x : float) (n : Z) : result float :=
  match float_of_int n with
  | Ok f => Ok (PrimFloat.mul x f)
  | Raise e => Raise e
  end.

Definition two_digits (n : Z) : string :=
  if n <? 10 then "0" ++ str_int n else str_int n.

(** [format(x, ".2f")] of the number of magnitude [p / q]. *)
Definition fixed2 (neg : bool) (p q : Z) : string :=
  let n := round_half_even (100 * p) q in
  (if neg then "-" else EmptyString) ++ str_int (n / 100) ++ "." ++ two_digits (n mod 100).

(** [format(x, ".2f")], the [{x:.2f}] of an f-string. *)
Definition format_2f (x : float) : string :=
  match Prim2SF x with
  | S754_nan => "nan"
  | S754_infinity neg => if neg then "-inf" else "inf"
  | S754_zero neg => fixed2 neg 0 1
  | S754_finite neg m e =>
      if 0 <=? e then fixed2 neg (Z.pos m * 2 ^ e) 1
      else fixed2 neg (Z.pos m) (2 ^ (- e))
  end.

End Py.

(** ** The record store: the schema of [DatabaseManager.initialize_schema]

    Tables are lists of rows in insertion order.  The timestamp columns
    ([registration_date], [generated_at]) are filled by the store from the
    wall clock and are left out.  The column [scheduled_time] is declared
    DATETIME, which gives it NUMERIC affinity: a text that reads as a
    number is stored as that number, any other text as it is.  The
    program never deletes a row, so the
    identifier AUTOINCREMENT gives a new row is one more than the largest
    identifier of its table; running out of identifiers is not modelled. *)

Module Store.

Record patient := {
  patient_id : Z;
  patient_full_name : string;
  age : Z;
  gender : string;
  patient_contact_number : string;
  address : string;
  blood_group : string;
  medical_history : string
}.

Record staff := {
  staff_id : Z;
  staff_full_name : string;
  role : string;
  specialization : string;
  shift_timing : string;
  staff_contact_number : string;
  is_active : bool
}.

Record item := {
  item_id : Z;
  item_name : string;
  category : string;
  quantity : Z;
  price_per_unit : float;
  expiry_date : option string;
  reorder_level : Z
}.

(** What a DATETIME column holds for a text that is bound to it: the text
    itself, or the number (INTEGER or REAL) that the store reads from the
    text.  The number is not worked out: the program never reads the
    column back. *)
Inductive datetime :=
| DateText (text : string)
| DateNumber (text : string).

Record appointment := {
  appointment_id : Z;
  appointment_patient_id : Z;
  doctor_id : Z;
  scheduled_time : datetime;
  status : string;
  notes : string
}.

Record bill := {
  bill_id : Z;
  bill_patient_id : Z;
  items_summary : string;
  total_amount : float;
  payment_status : string
}.

Record database := {
  patients : list patient;
  staff_members : list staff;
  inventory : list item;
  appointments : list appointment;
  bills : list bill
}.

(** [payment_status TEXT DEFAULT 'Pending']: what the store writes when
    an INSERT gives no payment status. *)
Definition default_payment_status : string := "Pending".

Definition empty : database :=
  {| patients := []; staff_members := []; inventory := [];
     appointments := []; bills := [] |}.

(** An INTEGER of SQLite is a signed 64-bit integer; binding a Python
    integer outside of this range raises [OverflowError] in the driver. *)
Definition fits_int64 (z : Z) : bool :=
  (- 2 ^ 63 <=? z) && (z <=? 2 ^ 63 - 1).

(** A float bound to a REAL column: NaN is stored as NULL ([None]), and a
    zero is read back as [0.0] whatever its sign; every other value is
    stored as it is. *)
Definition real (x : float) : option float :=
  if PrimFloat.is_nan x then None
  else if PrimFloat.eqb x 0 then Some PrimFloat.zero
  else Some x.

Definition next_id (ids : list Z) : Z := fold_right Z.max 0 ids + 1.

Definition string_in (s : string) (l : list string) : bool :=
  existsb (String.eqb s) l.

(** The statements that [execute_query] is called with. *)
Inductive statement :=
| InsertPatient (full_name : string) (age : Z)
    (gender contact_number address blood_group medical_history : string)
| InsertStaff (full_name role specialization contact_number shift_timing : string)
| InsertItem (item_name category : string) (quantity : Z) (price_per_unit : float)
    (reorder_level : Z)
| UpdateQuantity (new_qty item_id : Z)
| InsertAppointment (patient_id doctor_id : Z) (scheduled_time notes : string)
| InsertBill (patient_id : Z) (items_summary : string) (total_amount : float).

(** The integers among the parameters of a statement. *)
Definition int_params (s : statement) : list Z :=
  match s with
  | InsertPatient _ a _ _ _ _ _ => [a]
  | InsertStaff _ _ _ _ _ => []
  | InsertItem _ _ q _ r => [q; r]
  | UpdateQuantity q i => [q; i]
  | InsertAppointment p d _ _ => [p; d]
  | InsertBill p _ _ => [p]
  end.

Definition set_patients (db : database) (l : list patient) : database :=
  {| patients := l; staff_members := staff_members db; inventory := inventory db;
     appointments := appointments db; bills := bills db |}.

Definition set_staff (db : database) (l : list staff) : database :=
  {| patients := patients db; staff_members := l; inventory := inventory db;
     appointments := appointments db; bills := bills db |}.

Definition set_inventory (db : database) (l : list item) : database :=
  {| patients := patients db; staff_members := staff_members db; inventory := l;
     appointments := appointments db; bills := bills db |}.

Definition set_appointments (db : database) (l : list appointment) : database :=
  {| patients := patients db; staff_members := staff_members db;
     inventory := inventory db; appointments := l; bills := bills db |}.

Definition set_bills (db : database) (l : list bill) : database :=
  {| patients := patients db; staff_members := staff_members db;
     inventory := inventory db; appointments := appointments db; bills := l |}.

Definition set_quantity (q : Z) (it : item) : item :=
  {| item_id := item_id it; item_name := item_name it; category := category it;
     quantity := q; price_per_unit := price_per_unit it;
     expiry_date := expiry_date it; reorder_level := reorder_level it |}.

Definition patient_exists (pid : Z) (db : database) : bool :=
  existsb (fun p => patient_id p =? pid) (patients db).

Definition staff_exists (sid : Z) (db : database) : bool :=
  existsb (fun s => staff_id s =? sid) (staff_members db).

(** The digits at the head of [s]: how many there are, and what follows
    them. *)
Fixpoint span_digits (s : string) : nat * string :=
  match s with
  | EmptyString => (O, EmptyString)
  | String c r =>
      if Py.isdigit c then let (n, rest) := span_digits r in (S n, rest)
      else (O, s)
  end.

(** The texts that the store reads as a number when it applies NUMERIC
    affinity: blanks, a sign, digits, a point and digits, an exponent
    ([e] or [E], a sign, at least one digit), blanks, with at least one
    digit before the exponent and nothing else. *)
Definition sqlite_number (s : string) : bool :=
  match Py.lskip s with
  | EmptyString => false
  | s1 =>
      let (n1, s2) := span_digits (snd (Py.split_sign s1)) in
      let (n2, s3) :=
        match s2 with
        | String "."%char r => span_digits r
        | _ => (O, s2)
        end in
      let (exponent_ok, s4) :=
        match s3 with
        | String "e"%char r | String "E"%char r =>
            let (n3, rest) := span_digits (snd (Py.split_sign r)) in
            (negb (Nat.eqb n3 0), rest)
        | _ => (true, s3)
        end in
      match Py.lskip s4 with
      | EmptyString => negb (Nat.eqb (n1 + n2) 0) && exponent_ok
      | _ => false
      end
  end.

(** A text bound to a DATETIME column. *)
Definition datetime_affinity (s : string) : datetime :=
  if sqlite_number s then DateNumber s else DateText s.

(** One statement on the database; [None] is a refusal by a constraint of
    the schema ([sqlite3.IntegrityError]), which leaves the database as it
    was. *)
Definition exec (s : statement) (db : database) : option database :=
  match s with
  | InsertPatient name a g contact addr blood history =>
      (* CHECK(age > 0), CHECK(gender IN ('M', 'F', 'O')) *)
      if (0 <? a) && string_in g ["M"; "F"; "O"] then
        Some (set_patients db (patients db ++
          [{| patient_id := next_id (map patient_id (patients db));
              patient_full_name := name; age := a; gender := g;
              patient_contact_number := contact; address := addr;
              blood_group := blood; medical_history := history |}]))
      else None
  | InsertStaff name r spec contact shift =>
      (* CHECK(role IN ('Doctor', 'Nurse', 'Admin', 'Pharmacist')) *)
      if string_in r ["Doctor"; "Nurse"; "Admin"; "Pharmacist"] then
        Some (set_staff db (staff_members db ++
          [{| staff_id := next_id (map staff_id (staff_members db));
              staff_full_name := name; role := r; specialization := spec;
              shift_timing := shift; staff_contact_number := contact;
              is_active := true |}]))
      else None
  | InsertItem name cat q price reorder =>
      (* item_name UNIQUE, CHECK(quantity >= 0), price_per_unit NOT NULL *)
      match real price with
      | Some pr =>
          if negb (string_in name (map item_name (inventory db))) && (0 <=? q) then
            Some (set_inventory db (inventory db ++
              [{| item_id := next_id (map item_id (inventory db));
                  item_name := name; category := cat; quantity := q;
                  price_per_unit := pr; expiry_date := None;
                  reorder_level := reorder |}]))
          else None
      | None => None
      end
  | UpdateQuantity q iid =>
      (* CHECK(quantity >= 0) on the rows that are written *)
      if existsb (fun it => item_id it =? iid) (inventory db) && (q <? 0) then None
      else Some (set_inventory db
             (map (fun it => if item_id it =? iid then set_quantity q it else it)
                  (inventory db)))
  | InsertAppointment pid did time n =>
      (* FOREIGN KEY patient_id, FOREIGN KEY doctor_id; scheduled_time DATETIME;
         status DEFAULT 'Scheduled' *)
      if patient_exists pid db && staff_exists did db then
        Some (set_appointments db (appointments db ++
          [{| appointment_id := next_id (map appointment_id (appointments db));
              appointment_patient_id := pid; doctor_id := did;
              scheduled_time := datetime_affinity time; status := "Scheduled";
              notes := n |}]))
      else None
  | InsertBill pid summary total =>
      (* FOREIGN KEY patient_id, total_amount NOT NULL, CHECK(total_amount >= 0) *)
      match real total with
      | Some t =>
          if patient_exists pid db && PrimFloat.leb 0 t then
            Some (set_bills db (bills db ++
              [{| bill_id := next_id (map bill_id (bills db));
                  bill_patient_id := pid; items_summary := summary;
                  total_amount := t; payment_status := "Unpaid" |}]))
          else None
      | None => None
      end
  end.

(** The SELECT statements of the program; each returns the first row, or
    all rows, in table order. *)

(** [SELECT 1 FROM patients WHERE patient_id = ?] *)
Definition select_patient (pid : Z) (db : database) : option Z :=
  if patient_exists pid db then Some 1 else None.

(** [SELECT full_name FROM patients WHERE patient_id = ?] *)
Definition select_patient_name (pid : Z) (db : database) : option string :=
  option_map patient_full_name (find (fun p => patient_id p =? pid) (patients db)).

(** [SELECT staff_id, full_name, specialization FROM staff WHERE role = 'Doctor'] *)
Definition select_doctors (db : database) : list (Z * string * string) :=
  map (fun s => (staff_id s, staff_full_name s, specialization s))
      (filter (fun s => (role s =? "Doctor")%string) (staff_members db)).

Definition doctor_exists (did : Z) (db : database) : bool :=
  existsb (fun s => (staff_id s =? did) && (role s =? "Doctor")%string)
    (staff_members db).

(** [SELECT 1 FROM staff WHERE staff_id = ? AND role = 'Doctor'] *)
Definition select_doctor (did : Z) (db : database) : option Z :=
  if doctor_exists did db then Some 1 else None.

(** [SELECT item_id, quantity FROM inventory WHERE item_name = ?] *)
Definition select_item (name : string) (db : database) : option (Z * Z) :=
  option_map (fun it => (item_id it, quantity it))
    (find (fun it => (item_name it =? name)%string) (inventory db)).

(** [SELECT item_id, price_per_unit, quantity FROM inventory WHERE item_name = ?] *)
Definition select_stock (name : string) (db : database) : option (Z * float * Z) :=
  option_map (fun it => (item_id it, price_per_unit it, quantity it))
    (find (fun it => (item_name it =? name)%string) (inventory db)).

(** [SELECT item_name, quantity, reorder_level FROM inventory
     WHERE quantity <= reorder_level] *)
Definition select_low_stock (db : database) : list (string * Z * Z) :=
  map (fun it => (item_name it, quantity it, reorder_level it))
      (filter (fun it => quantity it <=? reorder_level it) (inventory db)).

End Store.

(** ** The console and the connection *)

Import Py Store.

(** What [print] wrote.  Every line is kept as its text, but for the one
    line of [generate_bill] that interpolates a float without a format
    (line 399), which is kept with its two values. *)
Inductive printed :=
| Text (s : string)
| PriceAvailable (price : float) (available : Z)
| DataIntegrityError.

(** The state that the operations work on: the database as committed to
    the file, the database as the open connection sees it, and what has
    been printed so far (the prompts of [input] are not recorded).  The
    two databases are contents only: whether the driver has a transaction
    open is not recorded.  A statement that the store refuses, or whose
    parameters the driver cannot bind, leaves both contents as they were;
    the transaction that the driver opened for it holds no change. *)
Record world := {
  committed : database;
  working : database;
  stdout : list printed
}.

Definition print (p : printed) (w : world) : world :=
  {| committed := committed w; working := working w; stdout := stdout w ++ [p] |}.

Definition nl : string := String (ascii_of_nat 10) EmptyString.

Fixpoint repeat_string (s : string) (n : nat) : string :=
  match n with
  | O => EmptyString
  | S k => s ++ repeat_string s k
  end.

(** [format(s, "<n")]: [s] padded with spaces on the right to width [n]. *)
Definition ljust (n : nat) (s : string) : string :=
  s ++ repeat_string " " (n - String.length s).

(** *** DatabaseManager *)

(** [execute_query]: binds the parameters, runs the statement and commits.
    The result tells whether a cursor (true) or [None] (false) came back. *)
Definition execute_query (s : statement) (w : world) : result bool * world :=
  if forallb fits_int64 (int_params s) then
    match exec s (working w) with
    | Some db' =>
        (Ok true, {| committed := db'; working := db'; stdout := stdout w |})
    | None => (Ok false, print DataIntegrityError w)
    end
  else (Raise OverflowError, w).

(** [fetch_one] and [fetch_all] with one integer parameter. *)
Definition fetch_by_id {A : Type} (q : Z -> database -> A) (id : Z) (w : world)
  : result A :=
  if fits_int64 id then Ok (q id (working w)) else Raise OverflowError.

(** [fetch_one] and [fetch_all] whose parameters are texts, or absent. *)
Definition fetch {A : Type} (q : database -> A) (w : world) : A := q (working w).

(** *** Operations as computations

    An operation reads lines from the console, changes the world and
    returns or raises. *)
Definition M (A : Type) : Type :=
  list string -> world -> result A * list string * world.

Definition ret {A : Type} (a : A) : M A := fun inp w => (Ok a, inp, w).

Definition bind {A B : Type} (m : M A) (k : A -> M B) : M B :=
  fun inp w =>
    match m inp w with
    | (Ok a, inp', w') => k a inp' w'
    | (Raise e, inp', w') => (Raise e, inp', w')
    end.

Definition raise {A : Type} (e : exn) : M A := fun inp w => (Raise e, inp, w).

(** [try: m except ValueError: h] *)
Definition except_ValueError {A : Type} (m : M A) (h : M A) : M A :=
  fun inp w =>
    match m inp w with
    | (Raise ValueError, inp', w') => h inp' w'
    | r => r
    end.

(** [input(prompt)]: the next line, [EOFError] when there is none. *)
Definition input : M string :=
  fun inp w =>
    match inp with
    | [] => (Raise EOFError, [], w)
    | line :: rest => (Ok line, rest, w)
    end.

Definition say (p : printed) : M unit := fun inp w => (Ok tt, inp, print p w).

Definition query {A : Type} (q : world -> result A) : M A :=
  fun inp w =>
    match q w with
    | Ok a => (Ok a, inp, w)
    | Raise e => (Raise e, inp, w)
    end.

Definition execute (s : statement) : M bool :=
  fun inp w => let (r, w') := execute_query s w in (r, inp, w').

Definition of_option {A : Type} (o : option A) : M A :=
  match o with
  | Some a => ret a
  | None => raise ValueError
  end.

Declare Scope py_scope.
Delimit Scope py_scope with py.
Notation "x <- m ;; k" := (bind m (fun x => k))
  (at level 61, m at next level, right associativity) : py_scope.
Notation "' pat <- m ;; k" := (bind m (fun x => match x with pat => k end))
  (at level 61, pat pattern, m at next level, right associativity) : py_scope.
Notation "m ;; k" := (bind m (fun _ => k))
  (at level 61, right associativity) : py_scope.
Local Open Scope py_scope.

Fixpoint for_each {A : Type} (l : list A) (body : A -> M unit) : M unit :=
  match l with
  | [] => ret tt
  | a :: r => body a ;; for_each r body
  end.

(** ** PatientManager, StaffManager *)

Definition lastrowid_patient (w : world) : Z :=
  last (map patient_id (patients (working w))) 0.

(** [PatientManager.register_patient] *)
Definition register_patient : M unit :=
  say (Text (nl ++ "--- PATIENT REGISTRATION ---")) ;;
  line <- input ;;
  let name := strip line in
  if (name =? EmptyString)%string then say (Text "Error: Name is required.")
  else
    parsed <- except_ValueError
      (line <- input ;;
       age <- of_option (int_of_str line) ;;
       if age <=? 0 then raise ValueError else ret (Some age))
      (say (Text "Error: Age must be a positive integer.") ;; ret None) ;;
    match parsed with
    | None => ret tt
    | Some age =>
        line <- input ;;
        let gender := upper (strip line) in
        if negb (string_in gender ["M"; "F"; "O"]) then say (Text "Error: Invalid Gender.")
        else
          line <- input ;; let contact := strip line in
          line <- input ;; let address := strip line in
          line <- input ;; let blood_group := strip line in
          line <- input ;; let history := strip line in
          done <- execute (InsertPatient name age gender contact address blood_group history) ;;
          if (done : bool) then
            pid <- (fun inp w => (Ok (lastrowid_patient w), inp, w)) ;;
            say (Text ("SUCCESS: Patient registered. Assigned Unique ID: " ++ str_int pid))
          else ret tt
    end.

(** [StaffManager.add_staff] *)
Definition add_staff : M unit :=
  say (Text (nl ++ "--- ADD STAFF MEMBER ---")) ;;
  line <- input ;;
  let name := strip line in
  say (Text "Roles: Doctor, Nurse, Admin, Pharmacist") ;;
  line <- input ;;
  let role := capitalize (strip line) in
  if negb (string_in role ["Doctor"; "Nurse"; "Admin"; "Pharmacist"]) then
    say (Text "Error: Invalid Role.")
  else
    spec <- (if (role =? "Doctor")%string
             then (line <- input ;; ret (strip line))
             else ret EmptyString) ;;
    line <- input ;; let contact := strip line in
    line <- input ;; let shift := strip line in
    done <- execute (InsertStaff name role spec contact shift) ;;
    if (done : bool) then
      say (Text ("Staff member '" ++ name ++ "' added successfully as " ++ role ++ "."))
    else ret tt.

(** ** InventoryManager *)

(** [InventoryManager.add_item] *)
Definition add_item : M unit :=
  say (Text (nl ++ "--- ADD INVENTORY ITEM ---")) ;;
  line <- input ;; let name := strip line in
  line <- input ;; let category := strip line in
  parsed <- except_ValueError
    (line <- input ;; qty <- of_option (int_of_str line) ;;
     line <- input ;; price <- of_option (float_of_str line) ;;
     line <- input ;;
     reorder <- (if (line =? EmptyString)%string then ret 10 else of_option (int_of_str line)) ;;
     ret (Some (qty, price, reorder)))
    (say (Text "Error: Invalid numeric input.") ;; ret None) ;;
  match parsed with
  | None => ret tt
  | Some (qty, price, reorder) =>
      done <- execute (InsertItem name category qty price reorder) ;;
      if (done : bool) then say (Text ("Item '" ++ name ++ "' added to inventory."))
      else say (Text "Error: Item likely already exists (Name must be unique).")
  end.

(** [InventoryManager.update_stock] *)
Definition update_stock : M unit :=
  line <- input ;;
  let item_name := strip line in
  item <- query (fun w => Ok (fetch (select_item item_name) w)) ;;
  match item with
  | None => say (Text "Item not found.")
  | Some (item_id, quantity) =>
      say (Text ("Current Stock: " ++ str_int quantity)) ;;
      except_ValueError
        (line <- input ;;
         change <- of_option (int_of_str line) ;;
         let new_qty := quantity + change in
         if new_qty <? 0 then say (Text "Error: Resulting stock cannot be negative.")
         else
           execute (UpdateQuantity new_qty item_id) ;;
           say (Text "Stock updated successfully."))
        (say (Text "Invalid input."))
  end.

(** [InventoryManager.check_low_stock] *)
Definition check_low_stock : M unit :=
  say (Text (nl ++ "--- LOW STOCK ALERTS ---")) ;;
  items <- query (fun w => Ok (fetch select_low_stock w)) ;;
  match items with
  | [] => say (Text "All stock levels are healthy.")
  | _ =>
      say (Text (ljust 20 "Item" ++ " " ++ ljust 10 "Current" ++ " " ++ ljust 10 "Minimum")) ;;
      say (Text (repeat_string "-" 40)) ;;
      for_each items (fun '(name, qty, reorder) =>
        let marker := if qty <=? reorder then "(!)" else EmptyString in
        say (Text (ljust 20 name ++ " " ++ ljust 10 (str_int qty) ++ " "
                   ++ ljust 10 (str_int reorder) ++ " " ++ marker)))
  end.

(** ** OperationsManager *)

(** The line that [schedule_appointment] prints for a doctor. *)
Definition doctor_line (d : Z * string * string) : printed :=
  let '(id, name, spec) := d in
  Text ("ID: " ++ str_int id ++ " | Dr. " ++ name ++ " ("
        ++ (if (spec =? EmptyString)%string then "General" else spec) ++ ")").

(** [OperationsManager.schedule_appointment] *)
Definition schedule_appointment : M unit :=
  say (Text (nl ++ "--- SCHEDULE APPOINTMENT ---")) ;;
  except_ValueError
    (line <- input ;;
     pid <- of_option (int_of_str line) ;;
     found <- query (fetch_by_id select_patient pid) ;;
     match found with
     | None => say (Text "Error: Patient ID not found.")
     | Some _ =>
         say (Text (nl ++ "Available Doctors:")) ;;
         docs <- query (fun w => Ok (fetch select_doctors w)) ;;
         for_each docs (fun d => say (doctor_line d)) ;;
         line <- input ;;
         did <- of_option (int_of_str line) ;;
         doc_check <- query (fetch_by_id select_doctor did) ;;
         match doc_check with
         | None => say (Text "Error: Invalid Doctor ID.")
         | Some _ =>
             date_str <- input ;;
             notes <- input ;;
             done <- execute (InsertAppointment pid did date_str notes) ;;
             if (done : bool) then say (Text "Appointment confirmed.") else ret tt
         end
     end)
    (say (Text "Invalid numeric input.")).

(** The [while True] loop of [generate_bill]: one round per answer to
    "Add Medicine/Item? (y/n)".  It returns [bill_items] and
    [total_amount] when the answer is not yes. *)
Fixpoint add_items (inp : list string) (w : world)
    (bill_items : list string) (total_amount : float) {struct inp}
  : result (list string * float) * list string * world :=
  match inp with
  | [] => (Raise EOFError, [], w)
  | answer :: inp1 =>
      if negb (lower answer =? "y")%string then (Ok (bill_items, total_amount), inp1, w)
      else
        match inp1 with
        | [] => (Raise EOFError, [], w)
        | item_name :: inp2 =>
            match fetch (select_stock item_name) w with
            | None =>
                add_items inp2 (print (Text "Item not found in inventory.") w)
                  bill_items total_amount
            | Some (iid, price, available) =>
                let w1 := print (PriceAvailable price available) w in
                match inp2 with
                | [] => (Raise EOFError, [], w1)
                | line :: inp3 =>
                    match int_of_str line with
                    | None => (Raise ValueError, inp3, w1)
                    | Some req_qty =>
                        if req_qty >? available then
                          add_items inp3
                            (print (Text ("Error: Insufficient stock. Only "
                                          ++ str_int available ++ " available.")) w1)
                            bill_items total_amount
                        else
                          let new_qty := available - req_qty in
                          match execute_query (UpdateQuantity new_qty iid) w1 with
                          | (Raise e, w2) => (Raise e, inp3, w2)
                          | (Ok _, w2) =>
                              match mul_float_int price req_qty with
                              | Raise e => (Raise e, inp3, w2)
                              | Ok cost =>
                                  add_items inp3
                                    (print (Text ("Added " ++ item_name
                                                  ++ " to bill and updated inventory.")) w2)
                                    (bill_items ++
                                       [item_name ++ " x" ++ str_int req_qty ++ ": $"
                                        ++ format_2f cost])
                                    (total_amount + cost)%float
                              end
                          end
                    end
                end
            end
        end
  end.

(** [generate_bill], lines 376 to 382: the lists of the invoice, and the
    consultation fee if it is asked for. *)
Definition add_fee : M (list string * float) :=
  answer <- input ;;
  if (lower answer =? "y")%string then
    line <- input ;;
    fee <- of_option (float_of_str line) ;;
    ret (["Consultation: $" ++ format_2f fee], (0 + fee)%float)
  else ret ([], 0%float).

(** [generate_bill], lines 414 to 427: the bill is inserted and the
    invoice is printed, whether or not the store took the bill. *)
Definition write_bill (pid : Z) (full_name : string) (bill_items : list string)
    (total_amount : float) : M unit :=
  let items_str := join "; " bill_items in
  execute (InsertBill pid items_str total_amount) ;;
  say (Text (nl ++ repeat_string "=" 40)) ;;
  say (Text ("INVOICE GENERATED FOR " ++ full_name)) ;;
  say (Text (repeat_string "=" 40)) ;;
  for_each bill_items (fun item => say (Text ("* " ++ item))) ;;
  say (Text (repeat_string "-" 40)) ;;
  say (Text ("TOTAL PAYABLE: $" ++ format_2f total_amount)) ;;
  say (Text (repeat_string "=" 40)).

(** [OperationsManager.generate_bill] *)
Definition generate_bill : M unit :=
  say (Text (nl ++ "--- GENERATE INVOICE ---")) ;;
  except_ValueError
    (line <- input ;;
     pid <- of_option (int_of_str line) ;;
     patient <- query (fetch_by_id select_patient_name pid) ;;
     match patient with
     | None => say (Text "Patient not found.")
     | Some full_name =>
         say (Text ("Invoicing for: " ++ full_name)) ;;
         '(bill_items, total_amount) <- add_fee ;;
         '(bill_items, total_amount) <-
           (fun inp w => add_items inp w bill_items total_amount) ;;
         write_bill pid full_name bill_items total_amount
     end)
    (say (Text "Invalid input error. Transaction aborted.")).

(** ** The directories: [view_patients], [view_staff] *)

(** [SELECT patient_id, full_name, age, gender, contact_number FROM patients] *)
Definition select_patients (db : database) : list (Z * string * Z * string * string) :=
  map (fun p => (patient_id p, patient_full_name p, age p, gender p,
                 patient_contact_number p))
      (patients db).

(** The row that [view_patients] prints for a patient. *)
Definition patient_line (p : Z * string * Z * string * string) : printed :=
  let '(id, name, years, sex, contact) := p in
  Text (ljust 5 (str_int id) ++ " " ++ ljust 25 name ++ " " ++ ljust 5 (str_int years)
        ++ " " ++ ljust 5 sex ++ " " ++ ljust 15 contact).

(** [PatientManager.view_patients] *)
Definition view_patients : M unit :=
  say (Text (nl ++ "--- PATIENT DIRECTORY ---")) ;;
  patients <- query (fun w => Ok (fetch select_patients w)) ;;
  say (Text (ljust 5 "ID" ++ " " ++ ljust 25 "Name" ++ " " ++ ljust 5 "Age" ++ " "
             ++ ljust 5 "Sex" ++ " " ++ ljust 15 "Contact")) ;;
  say (Text (repeat_string "-" 60)) ;;
  for_each patients (fun p => say (patient_line p)).

(** The argument [role_filter] of [view_staff] counts when it is a
    non-empty text. *)
Definition active_filter (role_filter : option string) : option string :=
  match role_filter with
  | Some r => if (r =? EmptyString)%string then None else Some r
  | None => None
  end.

(** [SELECT staff_id, full_name, role, specialization, shift_timing FROM staff],
    with [WHERE role = ?] under a filter. *)
Definition select_staff (role_filter : option string) (db : database)
  : list (Z * string * string * string * string) :=
  map (fun s => (staff_id s, staff_full_name s, role s, specialization s, shift_timing s))
      (match active_filter role_filter with
       | Some r => filter (fun s => (role s =? r)%string) (staff_members db)
       | None => staff_members db
       end).

(** The row that [view_staff] prints for a member of staff. *)
Definition staff_line (s : Z * string * string * string * string) : printed :=
  let '(id, name, r, specialization, shift) := s in
  let spec := if (specialization =? EmptyString)%string then "N/A" else specialization in
  Text (ljust 5 (str_int id) ++ " " ++ ljust 20 name ++ " " ++ ljust 10 r ++ " "
        ++ ljust 15 spec ++ " " ++ ljust 10 shift).

(** [StaffManager.view_staff] *)
Definition view_staff (role_filter : option string) : M unit :=
  staff_list <- query (fun w => Ok (fetch (select_staff role_filter) w)) ;;
  say (Text (nl ++ "--- STAFF DIRECTORY ("
             ++ match active_filter role_filter with Some r => r | None => "ALL" end
             ++ ") ---")) ;;
  say (Text (ljust 5 "ID" ++ " " ++ ljust 20 "Name" ++ " " ++ ljust 10 "Role" ++ " "
             ++ ljust 15 "Specialization" ++ " " ++ ljust 10 "Shift")) ;;
  say (Text (repeat_string "-" 65)) ;;
  for_each staff_list (fun s => say (staff_line s)).

(** ** Sessions

    The methods of the four managers that write to the store or belong to
    the core (ledger, scheduler, invoice composer).  A session calls them
    one after the other on one console.  An exception that a method does
    not catch ends the process; the next call then runs on a new
    connection, which sees what was committed. *)

Inductive operation :=
| RegisterPatient
| AddStaff
| AddItem
| UpdateStock
| CheckLowStock
| ScheduleAppointment
| GenerateBill.

Definition run_operation (op : operation) : M unit :=
  match op with
  | RegisterPatient => register_patient
  | AddStaff => add_staff
  | AddItem => add_item
  | UpdateStock => update_stock
  | CheckLowStock => check_low_stock
  | ScheduleAppointment => schedule_appointment
  | GenerateBill => generate_bill
  end.

Definition reconnect (w : world) : world :=
  {| committed := committed w; working := committed w; stdout := stdout w |}.

Fixpoint session (ops : list operation) (inp : list string) (w : world)
  : list string * world :=
  match ops with
  | [] => (inp, w)
  | op :: rest =>
      match run_operation op inp w with
      | (Ok _, inp', w') => session rest inp' w'
      | (Raise _, inp', w') => session rest inp' (reconnect w')
      end
  end.

(** The world after [DatabaseManager.__init__] on a new file. *)
Definition fresh : world :=
  {| committed := Store.empty; working := Store.empty; stdout := [] |}.

(** ** Notions used by the statements *)

(** Every quantity of the inventory is non-negative. *)
Definition stock_nonneg (db : database) : Prop :=
  Forall (fun it => 0 <= quantity it) (inventory db).

Definition stock_ok (w : world) : Prop :=
  stock_nonneg (committed w) /\ stock_nonneg (working w).

(** Every bill has the payment status 'Unpaid'. *)
Definition all_unpaid (db : database) : Prop :=
  Forall (fun b => payment_status b = "Unpaid") (bills db).

(** The rows of [name] in the inventory, as [WHERE item_name = ?] finds
    the first of them. *)
Definition stored (name : string) (db : database) : option item :=
  find (fun it => (item_name it =? name)%string) (inventory db).

(** The inventory after [UPDATE inventory SET quantity = q WHERE item_id = iid]. *)
Definition with_quantity (iid q : Z) (db : database) : database :=
  set_inventory db
    (map (fun it => if item_id it =? iid then set_quantity q it else it) (inventory db)).



(** A line of an invoice: the consultation fee, or a draw of [qty] units
    of an item at a unit price. *)
Inductive invoice_line :=
| Fee (amount : float)
| Draw (name : string) (price : float) (qty : Z).

(** The cost of a line, at full precision. *)
Definition line_cost (l : invoice_line) : float :=
  match l with
  | Fee amount => amount
  | Draw _ price qty => (price * nearest_float qty)%float
  end.

(** The text of a line in [bill_items]. *)
Definition line_text (l : invoice_line) : string :=
  match l with
  | Fee amount => "Consultation: $" ++ format_2f amount
  | Draw name _ qty =>
      name ++ " x" ++ str_int qty ++ ": $" ++ format_2f (line_cost l)
  end.

(** The running total after the lines [ls], from [total]. *)
Definition running_total (ls : list invoice_line) (total : float) : float :=
  fold_left (fun t l => (t + line_cost l)%float) ls total.

(** The number that a float stands for, when it is finite. *)
Definition exact (x : float) : option QArith_base.Q :=
  match Prim2SF x with
  | S754_zero _ => Some (QArith_base.Qmake 0 1)
  | S754_finite s m e =>
      Some (Qreduction.Qred
              (QArith_base.Qmult
                 (QArith_base.Qmake (if s then Z.neg m else Z.pos m) 1)
                 (QArith_base.Qpower (QArith_base.Qmake 2 1) e)))
  | _ => None
  end.



(** A draw that the store can price: the item is there at that unit
    price, and the quantity converts to a float. *)
Definition priced (db : database) (l : invoice_line) : Prop :=
  match l with
  | Fee _ => True
  | Draw name price qty =>
      option_map price_per_unit (stored name db) = Some price
      /\ Z.abs qty < 2 ^ 1024 - 2 ^ 970
  end.

(** The console lines of the rounds of the loop that draw [ds]. *)
Fixpoint rounds (ds : list (string * string)) : list string :=
  match ds with
  | [] => []
  | (name, line) :: rest => "y" :: name :: line :: rounds rest
  end.



(** The lines that [schedule_appointment] prints for the doctors. *)
Definition doctor_lines (db : database) : list printed :=
  map doctor_line (select_doctors db).

(** The row that [schedule_appointment] inserts. *)
Definition new_appointment (db : database) (pid did : Z) (date_str notes : string)
  : appointment :=
  {| appointment_id := next_id (map appointment_id (appointments db));
     appointment_patient_id := pid; doctor_id := did;
     scheduled_time := datetime_affinity date_str; status := "Scheduled";
     notes := notes |}.

(** The row that [generate_bill] inserts for the lines [ls]. *)
Definition new_bill (db : database) (pid : Z) (ls : list invoice_line) (t : float)
  : bill :=
  {| bill_id := next_id (map bill_id (bills db));
     bill_patient_id := pid;
     items_summary := join "; " (map line_text ls);
     total_amount := t;
     payment_status := "Unpaid" |}.

(** What a call of [generate_bill] does to the bills, from the world [w]
    to the world [w']: nothing, or one new bill for a patient that is
    there, made of lines that the store prices, with their running total
    as the REAL column keeps it, committed, and the running total printed
    with two decimals. *)
Inductive billed (w w' : world) : Prop :=
| billed_none :
    bills (working w') = bills (working w) -> billed w w'
| billed_one (pid : Z) (ls : list invoice_line) (t : float) :
    patient_exists pid (working w) = true ->
    Forall (priced (working w)) ls ->
    real (running_total ls 0) = Some t ->
    bills (working w') = (bills (working w) ++ [new_bill (working w) pid ls t])%list ->
    committed w' = working w' ->
    In (Text ("TOTAL PAYABLE: $" ++ format_2f (running_total ls 0))) (stdout w') ->
    billed w w'.

(** Two databases that differ in quantities of the inventory at most. *)
Definition same_but_stock (db db' : database) : Prop :=
  patients db' = patients db
  /\ bills db' = bills db
  /\ forall name,
       option_map price_per_unit (stored name db')
       = option_map price_per_unit (stored name db).

(** A property [I] of the database holds of the committed database and
    of the connection's view. *)
Definition holds (I : database -> Prop) (w : world) : Prop :=
  I (committed w) /\ I (working w).

(** An operation keeps [I]: from a world where it holds, whatever is
    typed, the operation leaves a world where it holds. *)
Definition keeps (I : database -> Prop) {A : Type} (m : M A) : Prop :=
  forall inp w, holds I w -> holds I (snd (m inp w)).


(** The world after a refused draw: two more lines on the screen. *)
Definition after_refusal (it : item) (w : world) : world :=
  print (Text ("Error: Insufficient stock. Only " ++ str_int (quantity it)
               ++ " available."))
    (print (PriceAvailable (price_per_unit it) (quantity it)) w).


(** ** A small clinic

    One patient, a doctor and a nurse, two items in stock: the state that
    the scenarios of the specification start from. *)

Definition ann : patient :=
  {| patient_id := 1; patient_full_name := "Ann Lee"; age := 30; gender := "F";
     patient_contact_number := "555"; address := "Street"; blood_group := "A+";
     medical_history := EmptyString |}.

Definition dr_lee : staff :=
  {| staff_id := 1; staff_full_name := "Dr. Lee"; role := "Doctor";
     specialization := "Cardiology"; shift_timing := "9-5";
     staff_contact_number := "1"; is_active := true |}.

Definition nina : staff :=
  {| staff_id := 2; staff_full_name := "Nina"; role := "Nurse";
     specialization := EmptyString; shift_timing := "9-5";
     staff_contact_number := "2"; is_active := true |}.

Definition paracetamol : item :=
  {| item_id := 1; item_name := "Paracetamol"; category := "Medicine";
     quantity := 50; price_per_unit := 2.5; expiry_date := None;
     reorder_level := 10 |}.

(** Gauze is given away: its unit price is zero. *)
Definition gauze : item :=
  {| item_id := 2; item_name := "Gauze"; category := "Equipment";
     quantity := 3; price_per_unit := 0; expiry_date := None;
     reorder_level := 5 |}.

Definition clinic_db : database :=
  {| patients := [ann];
     staff_members := [dr_lee; nina];
     inventory := [paracetamol; gauze];
     appointments := [];
     bills := [] |}.

Definition clinic : world :=
  {| committed := clinic_db; working := clinic_db; stdout := [] |}.

Definition clinic_console : list string :=
  ["Ann Lee"; "30"; "f"; "555"; "Street"; "A+"; EmptyString;
   "Dr. Lee"; "doctor"; "Cardiology"; "1"; "9-5";
   "Nina"; "nurse"; "2"; "9-5";
   "Paracetamol"; "Medicine"; "50"; "2.5"; EmptyString;
   "Gauze"; "Equipment"; "3"; "0"; "5"].


(** ** Notions used by the properties of the whole program

    The tables that the statements write, what an accepted statement makes
    of the database, the constraints of the schema as properties of the
    database, and the texts of the reports. *)

(** Nothing is pending: the connection's view is what is committed. *)
Definition synced (w : world) : Prop := committed w = working w.

(** The table that a statement writes to. *)
Inductive table := Patients | Staff | Inventory | Appointments | Bills.

Definition written (s : statement) : table :=
  match s with
  | InsertPatient _ _ _ _ _ _ _ => Patients
  | InsertStaff _ _ _ _ _ => Staff
  | InsertItem _ _ _ _ _ => Inventory
  | UpdateQuantity _ _ => Inventory
  | InsertAppointment _ _ _ _ => Appointments
  | InsertBill _ _ _ => Bills
  end.

Definition table_eqb (a b : table) : bool :=
  match a, b with
  | Patients, Patients | Staff, Staff | Inventory, Inventory
  | Appointments, Appointments | Bills, Bills => true
  | _, _ => false
  end.

(** The tables that an operation has statements for. *)
Definition tables_of (op : operation) : list table :=
  match op with
  | RegisterPatient => [Patients]
  | AddStaff => [Staff]
  | AddItem => [Inventory]
  | UpdateStock => [Inventory]
  | CheckLowStock => []
  | ScheduleAppointment => [Appointments]
  | GenerateBill => [Inventory; Bills]
  end.

(** A property [P] of the world is respected by a computation. *)
Definition respects (P : world -> Prop) {A : Type} (m : M A) : Prop :=
  forall inp w, P w -> P (snd (m inp w)).

(** The rows that the INSERT statements write. *)
Definition new_patient (db : database) (name : string) (a : Z)
    (g contact addr blood history : string) : patient :=
  {| patient_id := next_id (map patient_id (patients db));
     patient_full_name := name; age := a; gender := g;
     patient_contact_number := contact; address := addr;
     blood_group := blood; medical_history := history |}.

Definition new_staff (db : database) (name r spec contact shift : string) : staff :=
  {| staff_id := next_id (map staff_id (staff_members db));
     staff_full_name := name; role := r; specialization := spec;
     shift_timing := shift; staff_contact_number := contact;
     is_active := true |}.

Definition new_item (db : database) (name cat : string) (q : Z) (pr : float)
    (reorder : Z) : item :=
  {| item_id := next_id (map item_id (inventory db));
     item_name := name; category := cat; quantity := q;
     price_per_unit := pr; expiry_date := None;
     reorder_level := reorder |}.

(** What an accepted statement [s] makes of the database [db]. *)
Definition outcome (s : statement) (db db' : database) : Prop :=
  match s with
  | InsertPatient name a g contact addr blood history =>
      0 < a /\ string_in g ["M"; "F"; "O"] = true
      /\ db' = set_patients db
                 (patients db ++ [new_patient db name a g contact addr blood history])
  | InsertStaff name r spec contact shift =>
      string_in r ["Doctor"; "Nurse"; "Admin"; "Pharmacist"] = true
      /\ db' = set_staff db (staff_members db ++ [new_staff db name r spec contact shift])
  | InsertItem name cat q price reorder =>
      exists pr, real price = Some pr
      /\ string_in name (map item_name (inventory db)) = false
      /\ 0 <= q
      /\ db' = set_inventory db (inventory db ++ [new_item db name cat q pr reorder])
  | UpdateQuantity q iid =>
      (existsb (fun it => item_id it =? iid) (inventory db) = true -> 0 <= q)
      /\ db' = with_quantity iid q db
  | InsertAppointment pid did time n =>
      patient_exists pid db = true /\ staff_exists did db = true
      /\ db' = set_appointments db
                 (appointments db ++ [new_appointment db pid did time n])
  | InsertBill pid summary total =>
      exists t, real total = Some t
      /\ patient_exists pid db = true /\ PrimFloat.leb 0 t = true
      /\ db' = set_bills db
                 (bills db ++
                  [{| bill_id := next_id (map bill_id (bills db));
                      bill_patient_id := pid; items_summary := summary;
                      total_amount := t; payment_status := "Unpaid" |}])
  end.

(** The table [t] is the same in [db] and [db']. *)
Definition untouched (t : table) (db db' : database) : Prop :=
  match t with
  | Patients => patients db' = patients db
  | Staff => staff_members db' = staff_members db
  | Inventory => inventory db' = inventory db
  | Appointments => appointments db' = appointments db
  | Bills => bills db' = bills db
  end.

(** [l'] is [l] with rows added at its end. *)
Definition grows {A : Type} (l l' : list A) : Prop :=
  exists more, l' = (l ++ more)%list.

(** [l'] is [l], row by row, up to the quantities, with rows added at its
    end. *)
Definition restocked (l l' : list item) : Prop :=
  exists kept more,
    l' = (kept ++ more)%list
    /\ Forall2 (fun it it' => set_quantity 0 it' = set_quantity 0 it) l kept.

(** No record of [db] is lost or rewritten in [db'], but for the
    quantities in stock. *)
Definition extends (db db' : database) : Prop :=
  grows (patients db) (patients db')
  /\ grows (staff_members db) (staff_members db')
  /\ restocked (inventory db) (inventory db')
  /\ grows (appointments db) (appointments db')
  /\ grows (bills db) (bills db').

(** PRIMARY KEY and UNIQUE: no identifier twice in a table, no item name
    twice in the inventory. *)
Definition keys_unique (db : database) : Prop :=
  NoDup (map patient_id (patients db))
  /\ NoDup (map staff_id (staff_members db))
  /\ NoDup (map item_id (inventory db))
  /\ NoDup (map item_name (inventory db))
  /\ NoDup (map appointment_id (appointments db))
  /\ NoDup (map bill_id (bills db)).

(** FOREIGN KEY: the patient and the doctor of an appointment, and the
    patient of a bill, are rows of their tables. *)
Definition references_resolve (db : database) : Prop :=
  Forall (fun a => patient_exists (appointment_patient_id a) db = true
                   /\ staff_exists (doctor_id a) db = true) (appointments db)
  /\ Forall (fun b => patient_exists (bill_patient_id b) db = true) (bills db).

(** CHECK, NOT NULL and DEFAULT: what the schema asks of the columns. *)
Definition rows_checked (db : database) : Prop :=
  Forall (fun p => 0 < age p /\ In (gender p) ["M"; "F"; "O"]) (patients db)
  /\ Forall (fun s => In (role s) ["Doctor"; "Nurse"; "Admin"; "Pharmacist"]
                      /\ is_active s = true) (staff_members db)
  /\ Forall (fun it => PrimFloat.is_nan (price_per_unit it) = false) (inventory db)
  /\ Forall (fun a => status a = "Scheduled") (appointments db)
  /\ Forall (fun b => PrimFloat.leb 0 (total_amount b) = true) (bills db).

(** The doctor of every appointment is a member of staff whose role is
    Doctor. *)
Definition doctors_only (db : database) : Prop :=
  Forall (fun a => doctor_exists (doctor_id a) db = true) (appointments db).

(** What [register_patient] says when it turns the lines [inp] down
    before it reaches the store, and the lines that it leaves unread:
    a blank name, an age that is not a positive integer, a gender other
    than M, F and O. *)
Inductive turned_down : list string -> string -> list string -> Prop :=
| blank_name l_name rest :
    strip l_name = EmptyString ->
    turned_down (l_name :: rest) "Error: Name is required." rest
| age_not_a_number l_name l_age rest :
    strip l_name <> EmptyString ->
    int_of_str l_age = None ->
    turned_down (l_name :: l_age :: rest) "Error: Age must be a positive integer." rest
| age_not_positive l_name l_age a rest :
    strip l_name <> EmptyString ->
    int_of_str l_age = Some a -> a <= 0 ->
    turned_down (l_name :: l_age :: rest) "Error: Age must be a positive integer." rest
| unknown_gender l_name l_age a l_gender rest :
    strip l_name <> EmptyString ->
    int_of_str l_age = Some a -> 0 < a ->
    string_in (upper (strip l_gender)) ["M"; "F"; "O"] = false ->
    turned_down (l_name :: l_age :: l_gender :: rest) "Error: Invalid Gender." rest.

(** [int(input(...) or 10)]: the reorder level that [add_item] reads from
    a line. *)
Definition reorder_level_of (line : string) : option Z :=
  if (line =? EmptyString)%string then Some 10 else int_of_str line.

(** The line of the low stock report for the item [it]. *)
Definition low_stock_line (it : item) : printed :=
  Text (ljust 20 (item_name it) ++ " " ++ ljust 10 (str_int (quantity it)) ++ " "
        ++ ljust 10 (str_int (reorder_level it)) ++ " (!)").

(** The report on the items [items]. *)
Definition low_stock_lines (items : list item) : list printed :=
  match items with
  | [] => [Text "All stock levels are healthy."]
  | _ =>
      Text (ljust 20 "Item" ++ " " ++ ljust 10 "Current" ++ " " ++ ljust 10 "Minimum")
      :: Text (repeat_string "-" 40)
      :: map low_stock_line items
  end.

(** The items at or under their reorder level. *)
Definition low_stock (db : database) : list item :=
  filter (fun it => quantity it <=? reorder_level it) (inventory db).

(** The invoice that [write_bill] prints. *)
Definition invoice_text (full_name : string) (bill_items : list string)
    (total_amount : float) : list printed :=
  ([Text (nl ++ repeat_string "=" 40);
    Text ("INVOICE GENERATED FOR " ++ full_name);
    Text (repeat_string "=" 40)]
   ++ map (fun item => Text ("* " ++ item)) bill_items
   ++ [Text (repeat_string "-" 40);
       Text ("TOTAL PAYABLE: $" ++ format_2f total_amount);
       Text (repeat_string "=" 40)])%list.

(** * Properties *)

(** ** Invariants of the database over the operations

    A property of the database that every accepted statement keeps is kept
    by every operation, on the committed database and on the connection's
    view, whatever is typed and whether the operation returns or raises. *)

Create HintDb keeps.

Section Invariant.

Variable I : database -> Prop.
Hypothesis I_exec : forall s db db', exec s db = Some db' -> I db -> I db'.

Lemma holds_reconnect w : holds I w -> holds I (reconnect w).
Proof. intros [H _]; split; exact H. Qed.

Lemma holds_execute_query s w :
  holds I w -> holds I (snd (execute_query s w)).
Proof.
  intros [Hc Hw]. unfold execute_query.
  destruct (forallb fits_int64 (int_params s)); [ | split; assumption ].
  destruct (exec s (working w)) as [db' | ] eqn:E; simpl.
  - split; eapply I_exec; eauto.
  - split; assumption.
Qed.

Lemma keeps_ret {A} (a : A) : keeps I (ret a).
Proof. intros inp w H; exact H. Qed.

Lemma keeps_raise {A} e : keeps I (@raise A e).
Proof. intros inp w H; exact H. Qed.

Lemma keeps_bind {A B} (m : M A) (k : A -> M B) :
  keeps I m -> (forall a, keeps I (k a)) -> keeps I (bind m k).
Proof.
  intros Hm Hk inp w H. unfold bind.
  specialize (Hm inp w H).
  destruct (m inp w) as [[[a | e] inp'] w']; simpl in *.
  - apply Hk, Hm.
  - exact Hm.
Qed.

Lemma keeps_except {A} (m h : M A) :
  keeps I m -> keeps I h -> keeps I (except_ValueError m h).
Proof.
  intros Hm Hh inp w H. unfold except_ValueError.
  specialize (Hm inp w H).
  destruct (m inp w) as [[[a | []] inp'] w']; simpl in *; auto.
Qed.

Lemma keeps_input : keeps I input.
Proof. intros [ | l inp] w H; exact H. Qed.

Lemma keeps_say p : keeps I (say p).
Proof. intros inp w H; exact H. Qed.

Lemma keeps_query {A} (q : world -> result A) : keeps I (query q).
Proof. intros inp w H. unfold query. destruct (q w); exact H. Qed.

Lemma keeps_execute s : keeps I (execute s).
Proof.
  intros inp w H. unfold execute.
  pose proof (holds_execute_query s w H) as K.
  destruct (execute_query s w); exact K.
Qed.

Lemma keeps_of_option {A} (o : option A) : keeps I (of_option o).
Proof. destruct o; [apply keeps_ret | apply keeps_raise]. Qed.

Lemma keeps_for_each {A} (l : list A) (body : A -> M unit) :
  (forall a, keeps I (body a)) -> keeps I (for_each l body).
Proof.
  intros Hb. induction l as [ | a l IH]; simpl.
  - apply keeps_ret.
  - apply keeps_bind; auto.
Qed.

#[local] Hint Resolve keeps_ret keeps_raise keeps_input keeps_say keeps_query
  keeps_execute keeps_of_option : keeps.

Ltac keeps_step :=
  match goal with
  | |- keeps I (bind _ _) => apply keeps_bind; [ | intro ]
  | |- keeps I (except_ValueError _ _) => apply keeps_except
  | |- keeps I (for_each _ _) => apply keeps_for_each; intro
  | |- keeps I (if ?b then _ else _) => destruct b
  | |- keeps I (match ?x with _ => _ end) => destruct x
  | |- keeps I (fun _ _ => (Ok _, _, _)) => intros ? ? ?; assumption
  | |- keeps I _ => solve [auto with keeps]
  end.

Lemma keeps_register_patient : keeps I register_patient.
Proof. unfold register_patient. repeat keeps_step. Qed.

Lemma keeps_add_staff : keeps I add_staff.
Proof. unfold add_staff. repeat keeps_step. Qed.

Lemma keeps_add_item : keeps I add_item.
Proof. unfold add_item. repeat keeps_step. Qed.

Lemma keeps_update_stock : keeps I update_stock.
Proof. unfold update_stock. repeat keeps_step. Qed.

Lemma keeps_check_low_stock : keeps I check_low_stock.
Proof. unfold check_low_stock. repeat keeps_step. Qed.

Lemma keeps_schedule_appointment : keeps I schedule_appointment.
Proof. unfold schedule_appointment. repeat keeps_step. Qed.

(** The loop of [generate_bill], by induction on a bound of the number of
    lines left on the console. *)
Lemma holds_add_items n :
  forall inp, (List.length inp <= n)%nat ->
  forall w items total, holds I w -> holds I (snd (add_items inp w items total)).
Proof.
  induction n as [ | n IH]; intros inp Hn w items total H.
  - destruct inp; [exact H | simpl in Hn; lia].
  - destruct inp as [ | answer inp1]; [exact H | ].
    cbn [add_items]. destruct (negb _); [exact H | ].
    destruct inp1 as [ | name inp2]; [exact H | ].
    destruct (fetch _ w) as [[[iid price] available] | ].
    + destruct inp2 as [ | line inp3]; [exact H | ].
      destruct (int_of_str line) as [req_qty | ]; [ | exact H].
      destruct (req_qty >? available).
      { apply IH; [simpl in Hn; lia | exact H]. }
      pose proof (holds_execute_query
                    (UpdateQuantity (available - req_qty) iid)
                    (print (PriceAvailable price available) w) H) as K.
      destruct (execute_query _ _) as [[done | e] w2]; simpl in K; [ | exact K].
      destruct (mul_float_int price req_qty); [ | exact K].
      apply IH; [simpl in Hn; lia | exact K].
    + apply IH; [simpl in Hn; lia | exact H].
Qed.

Lemma keeps_generate_bill : keeps I generate_bill.
Proof.
  unfold generate_bill, add_fee, write_bill. repeat keeps_step.
  all: try (intros inp w H; eapply holds_add_items; eauto).
Qed.

Lemma keeps_run_operation op : keeps I (run_operation op).
Proof.
  destruct op; simpl;
    auto using keeps_register_patient, keeps_add_staff, keeps_add_item,
      keeps_update_stock, keeps_check_low_stock, keeps_schedule_appointment,
      keeps_generate_bill.
Qed.

Lemma holds_session ops :
  forall inp w, holds I w -> holds I (snd (session ops inp w)).
Proof.
  induction ops as [ | op ops IH]; intros inp w H; simpl; [exact H | ].
  pose proof (keeps_run_operation op inp w H) as K.
  destruct (run_operation op inp w) as [[[u | e] inp'] w']; simpl in K.
  - apply IH, K.
  - apply IH, holds_reconnect, K.
Qed.

End Invariant.

(** ** The stock never goes below zero *)

Ltac split_if_in E :=
  match type of E with
  | (if ?b then _ else _) = _ => destruct b eqn:?; [ | discriminate E]
  | match ?o with Some _ => _ | None => _ end = _ =>
      destruct o eqn:?; [ | discriminate E]
  end.

Lemma stock_nonneg_exec s db db' :
  exec s db = Some db' -> stock_nonneg db -> stock_nonneg db'.
Proof.
  unfold stock_nonneg. intros E H.
  destruct s as [ ? ? ? ? ? ? ? | ? ? ? ? ? | name cat q price reorder
                | q iid | ? ? ? ? | ? ? ? ]; unfold exec in E.
  - split_if_in E. inversion E; subst; exact H.
  - split_if_in E. inversion E; subst; exact H.
  - repeat split_if_in E. inversion E; subst; simpl.
    apply andb_true_iff in Heqb as [_ Q].
    apply Forall_app; split; [exact H | ].
    constructor; [simpl; lia | constructor].
  - destruct (existsb _ _ && _) eqn:C; inversion E; subst; simpl.
    apply andb_false_iff in C.
    apply Forall_forall. intros it' Hin.
    apply in_map_iff in Hin as [it [Eq Hin]].
    rewrite Forall_forall in H. specialize (H it Hin).
    destruct (item_id it =? iid) eqn:Eid; subst it'; [ | exact H].
    simpl. destruct C as [C | C]; [ | lia].
    exfalso. rewrite <- not_true_iff_false in C. apply C.
    apply existsb_exists. exists it; split; assumption.
  - split_if_in E. inversion E; subst; exact H.
  - repeat split_if_in E. inversion E; subst; exact H.
Qed.

Lemma stock_ok_clinic : stock_ok clinic.
Proof. split; repeat constructor; simpl; lia. Defined.

(** The small clinic is what five calls make of a new database. *)
Example clinic_reached :
  let end_of_session :=
    session [RegisterPatient; AddStaff; AddStaff; AddItem; AddItem]
      clinic_console fresh in
  fst end_of_session = []
  /\ committed (snd end_of_session) = clinic_db
  /\ working (snd end_of_session) = clinic_db.
Proof. vm_compute. repeat split. Qed.

(** C3.  Every operation keeps every quantity of the inventory at zero or
    above, in the committed database and in the connection's view,
    whatever is typed and whether the operation returns or raises. *)
Theorem stock_never_negative (op : operation) (inp : list string) (w : world) :
  stock_ok w -> stock_ok (snd (run_operation op inp w)).
Proof.
  intros H. exact (keeps_run_operation stock_nonneg stock_nonneg_exec op inp w H).
Qed.

Lemma stock_never_negative_witness :
  stock_ok clinic
  /\ stock_ok (snd (run_operation GenerateBill
                      ["1"; "n"; "y"; "Gauze"; "-2"; "y"; "Paracetamol"; "50"; "n"]
                      clinic)).
Proof.
  split.
  - exact stock_ok_clinic.
  - apply (stock_never_negative GenerateBill). exact stock_ok_clinic.
Defined.

(** From a new database, no sequence of operations on any console reaches
    a negative quantity. *)
Corollary stock_nonneg_in_every_session (ops : list operation) (inp : list string) :
  stock_ok (snd (session ops inp fresh)).
Proof.
  apply (holds_session stock_nonneg stock_nonneg_exec).
  split; constructor.
Qed.

(** ** The statements on the store *)

Arguments strip : simpl never.
Arguments int_of_str : simpl never.
Arguments float_of_str : simpl never.
Arguments str_int : simpl never.
Arguments format_2f : simpl never.
Arguments lower : simpl never.
Arguments fits_int64 : simpl never.
Arguments nearest_float : simpl never.

Lemma find_map_same {A} (p : A -> bool) (f : A -> A) (l : list A) :
  (forall a, p (f a) = p a) -> find p (map f l) = option_map f (find p l).
Proof.
  intros Hp. induction l as [ | a l IH]; simpl; [reflexivity | ].
  rewrite Hp. destruct (p a); [reflexivity | exact IH].
Qed.

Lemma stored_with_quantity name iid q db :
  stored name (with_quantity iid q db)
  = option_map (fun it => if item_id it =? iid then set_quantity q it else it)
      (stored name db).
Proof.
  unfold stored, with_quantity; simpl.
  apply find_map_same. intros it. destruct (item_id it =? iid); reflexivity.
Qed.

Lemma stored_quantity_after name it q db :
  stored name db = Some it ->
  option_map quantity (stored name (with_quantity (item_id it) q db)) = Some q.
Proof.
  intros E. rewrite stored_with_quantity, E; simpl.
  rewrite Z.eqb_refl. reflexivity.
Qed.

Lemma stored_price_after name iid q db :
  option_map price_per_unit (stored name (with_quantity iid q db))
  = option_map price_per_unit (stored name db).
Proof.
  rewrite stored_with_quantity.
  destruct (stored name db) as [it | ]; simpl; [ | reflexivity].
  destruct (item_id it =? iid); reflexivity.
Qed.

Lemma select_item_stored name db :
  select_item name db = option_map (fun it => (item_id it, quantity it)) (stored name db).
Proof. reflexivity. Qed.

Lemma select_stock_stored name db :
  select_stock name db
  = option_map (fun it => (item_id it, price_per_unit it, quantity it)) (stored name db).
Proof. reflexivity. Qed.

Lemma exec_update_nonneg q iid db :
  0 <= q -> exec (UpdateQuantity q iid) db = Some (with_quantity iid q db).
Proof.
  intros Hq. unfold exec.
  replace (q <? 0) with false by (symmetry; apply Z.ltb_ge; exact Hq).
  rewrite andb_false_r. reflexivity.
Qed.

Lemma fits_int64_iff z :
  fits_int64 z = true <-> - 2 ^ 63 <= z <= 2 ^ 63 - 1.
Proof.
  unfold fits_int64. rewrite andb_true_iff, Z.leb_le, Z.leb_le. reflexivity.
Qed.

(** An accepted UPDATE is committed at once: the committed database and
    the connection's view both are the updated database. *)
Lemma execute_query_update q iid w :
  0 <= q <= 2 ^ 63 - 1 -> fits_int64 iid = true ->
  execute_query (UpdateQuantity q iid) w
  = (Ok true, {| committed := with_quantity iid q (working w);
                 working := with_quantity iid q (working w);
                 stdout := stdout w |}).
Proof.
  intros Hq Hi. unfold execute_query.
  assert (Hf : fits_int64 q = true) by (apply fits_int64_iff; lia).
  cbn [int_params forallb]. rewrite Hf, Hi. cbn [andb].
  rewrite exec_update_nonneg by lia. reflexivity.
Qed.

Lemma execute_query_overflow s w :
  forallb fits_int64 (int_params s) = false ->
  execute_query s w = (Raise OverflowError, w).
Proof. intros H. unfold execute_query. rewrite H. reflexivity. Qed.


(** ** Stock adjustment: [InventoryManager.update_stock] *)

(** C2, as amended.  For an item found under the typed name, with stored
    quantity [quantity it], and a typed integer [delta]: when
    [quantity it + delta] lies between 0 and the largest INTEGER of the
    store, the adjustment goes through, is committed, and the stored
    quantity is [quantity it + delta]; when it is below 0 the adjustment
    is refused with a message and nothing is written. *)
Theorem update_stock_adjusts (w : world) (l1 l2 : string) (rest : list string)
    (it : item) (delta : Z) :
  stored (strip l1) (working w) = Some it ->
  int_of_str l2 = Some delta ->
  fits_int64 (item_id it) = true ->
  (0 <= quantity it + delta <= 2 ^ 63 - 1 ->
   exists w',
     update_stock (l1 :: l2 :: rest) w = (Ok tt, rest, w')
     /\ committed w' = with_quantity (item_id it) (quantity it + delta) (working w)
     /\ working w' = committed w'
     /\ option_map quantity (stored (strip l1) (committed w'))
        = Some (quantity it + delta)
     /\ stdout w' = (stdout w ++ [Text ("Current Stock: " ++ str_int (quantity it));
                                  Text "Stock updated successfully."])%list)
  /\ (quantity it + delta < 0 ->
      exists w',
        update_stock (l1 :: l2 :: rest) w = (Ok tt, rest, w')
        /\ committed w' = committed w
        /\ working w' = working w
        /\ stdout w' = (stdout w ++ [Text ("Current Stock: " ++ str_int (quantity it));
                                     Text "Error: Resulting stock cannot be negative."])%list).
Proof.
  intros Hit Hd Hid.
  assert (Hsel : select_item (strip l1) (working w)
                 = Some (item_id it, quantity it))
    by (rewrite select_item_stored, Hit; reflexivity).
  split; intros Hq.
  - eexists. split; [ | split; [ | split; [ | split]]].
    + unfold update_stock, bind, input, query, fetch, say, except_ValueError,
        of_option, execute, ret.
      rewrite Hsel. cbn [print working]. rewrite Hd.
      replace (quantity it + delta <? 0) with false by (symmetry; apply Z.ltb_ge; lia).
      rewrite execute_query_update by (assumption || lia).
      reflexivity.
    + reflexivity.
    + reflexivity.
    + cbn [committed]. apply stored_quantity_after. exact Hit.
    + cbn [print stdout]. rewrite <- app_assoc. reflexivity.
  - eexists. split; [ | split; [ | split]].
    + unfold update_stock, bind, input, query, fetch, say, except_ValueError,
        of_option, execute, ret.
      rewrite Hsel. cbn [print working]. rewrite Hd.
      replace (quantity it + delta <? 0) with true by (symmetry; apply Z.ltb_lt; lia).
      reflexivity.
    + reflexivity.
    + reflexivity.
    + cbn [print stdout]. rewrite <- app_assoc. reflexivity.
Qed.

(** Above the largest INTEGER of the store the adjustment is not refused
    by the program: the driver raises [OverflowError] when it binds the
    new quantity, and nothing is written. *)
Lemma update_stock_overflow (w : world) (l1 l2 : string) (rest : list string)
    (it : item) (delta : Z) :
  stored (strip l1) (working w) = Some it ->
  int_of_str l2 = Some delta ->
  2 ^ 63 - 1 < quantity it + delta ->
  update_stock (l1 :: l2 :: rest) w
  = (Raise OverflowError, rest,
     print (Text ("Current Stock: " ++ str_int (quantity it))) w).
Proof.
  intros Hit Hd Hq.
  assert (Hsel : select_item (strip l1) (working w)
                 = Some (item_id it, quantity it))
    by (rewrite select_item_stored, Hit; reflexivity).
  unfold update_stock, bind, input, query, fetch, say, except_ValueError,
    of_option, execute, ret.
  rewrite Hsel. cbn [print working]. rewrite Hd.
  replace (quantity it + delta <? 0) with false by (symmetry; apply Z.ltb_ge; lia).
  rewrite execute_query_overflow; [reflexivity | ].
  cbn [int_params forallb].
  replace (fits_int64 (quantity it + delta)) with false; [reflexivity | ].
  symmetry. apply not_true_iff_false. rewrite fits_int64_iff. lia.
Qed.

Lemma update_stock_adjusts_witness :
  exists w',
    update_stock [" Gauze "; "-3"] clinic = (Ok tt, [], w')
    /\ option_map quantity (stored "Gauze" (committed w')) = Some 0.
Proof.
  destruct (update_stock_adjusts clinic " Gauze " "-3" [] gauze (-3))
    as [H _]; [reflexivity | reflexivity | reflexivity | ].
  destruct H as [w' [E [_ [_ [Q _]]]]]; [simpl; lia | ].
  exists w'. split; [exact E | exact Q].
Defined.

(** C2 as stated fails where the sum leaves the INTEGER range of the
    store: 3 + 9223372036854775805 is not negative, yet the adjustment
    raises [OverflowError] and the quantity stays 3. *)
Lemma update_stock_beyond_int64 :
  stored "Gauze" (working clinic) = Some gauze
  /\ int_of_str "9223372036854775805" = Some 9223372036854775805
  /\ 0 <= quantity gauze + 9223372036854775805
  /\ update_stock ["Gauze"; "9223372036854775805"] clinic
     = (Raise OverflowError, [], print (Text "Current Stock: 3") clinic).
Proof.
  split; [reflexivity | ]. split; [reflexivity | ].
  split; [simpl; lia | ]. vm_compute. reflexivity.
Qed.

(** ** One round of the loop of [generate_bill] *)

Lemma add_items_yes answer :
  lower answer = "y" -> negb (lower answer =? "y")%string = false.
Proof. intros ->. reflexivity. Qed.


Lemma add_items_refusal w answer name line rest items total it q :
  lower answer = "y" ->
  stored name (working w) = Some it ->
  int_of_str line = Some q ->
  q > quantity it ->
  add_items (answer :: name :: line :: rest) w items total
  = add_items rest (after_refusal it w) items total.
Proof.
  intros Hy Hit Hq Hgt.
  cbn [add_items]. rewrite (add_items_yes _ Hy).
  unfold fetch. rewrite select_stock_stored, Hit. cbn [option_map].
  rewrite Hq.
  replace (q >? quantity it) with true
    by (symmetry; rewrite Z.gtb_ltb; apply Z.ltb_lt; lia).
  reflexivity.
Qed.



(** C5.  A draw of more than is available is refused: the screen shows
    the available count, no line joins the invoice, the total and the
    database stay as they were, and the loop goes on with the next
    round. *)
Theorem draw_refused (w : world) (answer name line : string) (rest items : list string)
    (total : float) (it : item) (q : Z) :
  lower answer = "y" ->
  stored name (working w) = Some it ->
  int_of_str line = Some q ->
  q > quantity it ->
  exists w',
    add_items (answer :: name :: line :: rest) w items total
    = add_items rest w' items total
    /\ committed w' = committed w
    /\ working w' = working w
    /\ stdout w' = (stdout w ++
         [PriceAvailable (price_per_unit it) (quantity it);
          Text ("Error: Insufficient stock. Only " ++ str_int (quantity it)
                ++ " available.")])%list.
Proof.
  intros Hy Hit Hq Hgt.
  exists (after_refusal it w).
  split; [ | split; [ | split]].
  - apply add_items_refusal with (q := q); assumption.
  - reflexivity.
  - reflexivity.
  - unfold after_refusal. cbn [print stdout]. rewrite <- app_assoc. reflexivity.
Qed.

(** Scenario B: 3 units in stock, 5 requested. *)
Lemma draw_refused_witness :
  exists w',
    add_items ["Y"; "Gauze"; "5"; "n"] clinic [] 0 = add_items ["n"] w' [] 0
    /\ working w' = working clinic
    /\ In (Text "Error: Insufficient stock. Only 3 available.") (stdout w').
Proof.
  destruct (draw_refused clinic "Y" "Gauze" "5" ["n"] [] 0 gauze 5)
    as [w' [E [_ [W O]]]];
    [reflexivity | reflexivity | reflexivity | simpl; lia | ].
  exists w'. split; [exact E | ]. split; [exact W | ].
  rewrite O. right. left. reflexivity.
Defined.

(** *** The sign of the cost of a draw *)














(** ** Invoices for a patient that is not there *)

Lemma find_none_existsb {A} (p : A -> bool) (l : list A) :
  existsb p l = false -> find p l = None.
Proof.
  induction l as [ | a l IH]; simpl; [reflexivity | ].
  destruct (p a); simpl; [discriminate | exact IH].
Qed.


Lemma select_patient_name_none pid db :
  patient_exists pid db = false -> select_patient_name pid db = None.
Proof.
  intros H. unfold select_patient_name.
  rewrite (find_none_existsb _ _ H). reflexivity.
Qed.

(** C7, as amended.  For a patient id within the INTEGER range of the
    store that no patient has, [generate_bill] says that the patient was
    not found and returns; no bill is written, no quantity changes:
    the database is as it was. *)
Theorem invoice_needs_patient (w : world) (line : string) (rest : list string) (pid : Z) :
  int_of_str line = Some pid ->
  fits_int64 pid = true ->
  patient_exists pid (working w) = false ->
  exists w',
    generate_bill (line :: rest) w = (Ok tt, rest, w')
    /\ committed w' = committed w
    /\ working w' = working w
    /\ stdout w' = (stdout w ++ [Text (nl ++ "--- GENERATE INVOICE ---");
                                 Text "Patient not found."])%list.
Proof.
  intros Hp Hf Hn.
  eexists. split; [ | split; [ | split]].
  - unfold generate_bill, bind, say, except_ValueError, input, of_option, query,
      fetch_by_id, ret.
    rewrite Hp, Hf. cbn [print working].
    rewrite (select_patient_name_none _ _ Hn). reflexivity.
  - reflexivity.
  - reflexivity.
  - cbn [print stdout]. rewrite <- app_assoc. reflexivity.
Qed.

(** Scenario C: no patient has the id 7. *)
Lemma invoice_needs_patient_witness :
  exists w',
    generate_bill ["7"; "y"; "50"] clinic = (Ok tt, ["y"; "50"], w')
    /\ committed w' = clinic_db
    /\ In (Text "Patient not found.") (stdout w').
Proof.
  destruct (invoice_needs_patient clinic "7" ["y"; "50"] 7)
    as [w' [E [C [_ O]]]]; [reflexivity | reflexivity | reflexivity | ].
  exists w'. split; [exact E | ]. split; [exact C | ].
  rewrite O. right. left. reflexivity.
Defined.

(** C7 as stated fails for an id beyond the INTEGER range of the store:
    no patient has the id 9223372036854775808, yet [generate_bill] does
    not say so; it raises [OverflowError]. *)
Lemma invoice_id_beyond_int64 :
  int_of_str "9223372036854775808" = Some 9223372036854775808
  /\ patient_exists 9223372036854775808 (working clinic) = false
  /\ generate_bill ["9223372036854775808"] clinic
     = (Raise OverflowError, [],
        print (Text (nl ++ "--- GENERATE INVOICE ---")) clinic).
Proof. repeat split; vm_compute; reflexivity. Qed.

(** ** Appointments: [OperationsManager.schedule_appointment] *)

Lemma for_each_say {A} (f : A -> printed) (l : list A) inp w :
  for_each l (fun a => say (f a)) inp w
  = (Ok tt, inp, {| committed := committed w; working := working w;
                    stdout := stdout w ++ map f l |}).
Proof.
  revert w. induction l as [ | a l IH]; intros w; simpl.
  - unfold ret. rewrite app_nil_r. destruct w; reflexivity.
  - unfold bind, say. rewrite IH.
    cbn [print committed working stdout].
    rewrite <- app_assoc. reflexivity.
Qed.

Lemma doctor_is_staff did db :
  doctor_exists did db = true -> staff_exists did db = true.
Proof.
  unfold doctor_exists, staff_exists. intros H.
  apply existsb_exists in H as [s [Hin Hs]].
  apply andb_true_iff in Hs as [Hs _].
  apply existsb_exists. exists s. split; assumption.
Qed.

(** C6, as amended.  For ids within the INTEGER range of the store,
    [schedule_appointment] first looks the patient up, and when no patient
    has the id it says so and creates nothing, whatever else is typed;
    then it looks the doctor up, and when the id is not that of a member
    of staff whose role is Doctor it says so and creates nothing; when
    both are found, the appointment is inserted with status Scheduled. *)
Theorem schedule_checks_in_order (w : world) (l1 l2 date_str notes : string)
    (rest : list string) (pid did : Z) :
  int_of_str l1 = Some pid ->
  fits_int64 pid = true ->
  (patient_exists pid (working w) = false ->
   forall tail, exists w',
     schedule_appointment (l1 :: tail) w = (Ok tt, tail, w')
     /\ committed w' = committed w
     /\ working w' = working w
     /\ stdout w' = (stdout w ++ [Text (nl ++ "--- SCHEDULE APPOINTMENT ---");
                                  Text "Error: Patient ID not found."])%list)
  /\ (patient_exists pid (working w) = true ->
      int_of_str l2 = Some did ->
      fits_int64 did = true ->
      doctor_exists did (working w) = false ->
      exists w',
        schedule_appointment (l1 :: l2 :: rest) w = (Ok tt, rest, w')
        /\ committed w' = committed w
        /\ working w' = working w
        /\ stdout w' = (stdout w ++ [Text (nl ++ "--- SCHEDULE APPOINTMENT ---");
                                     Text (nl ++ "Available Doctors:")]
                        ++ doctor_lines (working w)
                        ++ [Text "Error: Invalid Doctor ID."])%list)
  /\ (patient_exists pid (working w) = true ->
      int_of_str l2 = Some did ->
      fits_int64 did = true ->
      doctor_exists did (working w) = true ->
      exists w',
        schedule_appointment (l1 :: l2 :: date_str :: notes :: rest) w
        = (Ok tt, rest, w')
        /\ appointments (committed w')
           = (appointments (working w)
              ++ [new_appointment (working w) pid did date_str notes])%list
        /\ committed w' = working w'
        /\ stdout w' = (stdout w ++ [Text (nl ++ "--- SCHEDULE APPOINTMENT ---");
                                     Text (nl ++ "Available Doctors:")]
                        ++ doctor_lines (working w)
                        ++ [Text "Appointment confirmed."])%list).
Proof.
  intros Hp Hfp.
  split; [ | split].
  - intros Hno tail. eexists. split; [ | split; [ | split]].
    + unfold schedule_appointment, bind, say, except_ValueError, input,
        of_option, query, fetch_by_id, ret, select_patient.
      rewrite Hp, Hfp. cbn [print working]. rewrite Hno. reflexivity.
    + reflexivity.
    + reflexivity.
    + cbn [print stdout]. rewrite <- app_assoc. reflexivity.
  - intros Hyes Hd Hfd Hno. eexists. split; [ | split; [ | split]].
    + unfold schedule_appointment, bind, say, except_ValueError, input,
        of_option, query, fetch_by_id, fetch, ret, select_patient, select_doctor.
      rewrite Hp, Hfp. cbn [print working]. rewrite Hyes.
      rewrite (for_each_say doctor_line).
      cbn [print committed working stdout].
      rewrite Hd, Hfd. cbn [working]. rewrite Hno. reflexivity.
    + reflexivity.
    + reflexivity.
    + cbn [print stdout]. unfold doctor_lines.
      rewrite <- !app_assoc. reflexivity.
  - intros Hyes Hd Hfd Hdoc. eexists. split; [ | split; [ | split]].
    + unfold schedule_appointment, bind, say, except_ValueError, input,
        of_option, query, fetch_by_id, fetch, ret, select_patient, select_doctor,
        execute, execute_query.
      rewrite Hp, Hfp. cbn [print working]. rewrite Hyes.
      rewrite (for_each_say doctor_line).
      cbn [print committed working stdout].
      rewrite Hd, Hfd. cbn [working]. rewrite Hdoc.
      cbn [int_params forallb]. rewrite Hfp, Hfd. cbn [andb].
      unfold exec. cbn [print committed working stdout].
      rewrite Hyes, (doctor_is_staff _ _ Hdoc). cbn [andb].
      reflexivity.
    + reflexivity.
    + reflexivity.
    + cbn [print stdout]. unfold doctor_lines.
      rewrite <- !app_assoc. reflexivity.
Qed.

(** Scenario D, and a nurse in the place of the doctor: Dr. Lee has the
    id 1, the nurse the id 2, no patient has the id 3. *)
Lemma schedule_checks_in_order_witness :
  (exists w', schedule_appointment ["3"; "x"] clinic = (Ok tt, ["x"], w')
              /\ In (Text "Error: Patient ID not found.") (stdout w')
              /\ committed w' = clinic_db)
  /\ (exists w', schedule_appointment ["1"; "2"; "2024-01-01 10:00"; "checkup"] clinic
                 = (Ok tt, ["2024-01-01 10:00"; "checkup"], w')
                 /\ In (Text "Error: Invalid Doctor ID.") (stdout w')
                 /\ committed w' = clinic_db)
  /\ (exists w', schedule_appointment ["1"; "1"; "2024-01-01 10:00"; "checkup"] clinic
                 = (Ok tt, [], w')
                 /\ map status (appointments (committed w')) = ["Scheduled"]).
Proof.
  split; [ | split].
  - destruct (schedule_checks_in_order clinic "3" "1" "d" "n" [] 3 1)
      as [H _]; [reflexivity | reflexivity | ].
    destruct (H eq_refl ["x"]) as [w' [E [C [_ O]]]].
    exists w'. split; [exact E | ]. split; [ | exact C].
    rewrite O. right. left. reflexivity.
  - destruct (schedule_checks_in_order clinic "1" "2" "d" "n"
                ["2024-01-01 10:00"; "checkup"] 1 2)
      as [_ [H _]]; [reflexivity | reflexivity | ].
    destruct (H eq_refl eq_refl eq_refl eq_refl) as [w' [E [C [_ O]]]].
    exists w'. split; [exact E | ]. split; [ | exact C].
    rewrite O. cbv. repeat (first [left; reflexivity | right]).
  - destruct (schedule_checks_in_order clinic "1" "1" "2024-01-01 10:00" "checkup"
                [] 1 1)
      as [_ [_ H]]; [reflexivity | reflexivity | ].
    destruct (H eq_refl eq_refl eq_refl eq_refl) as [w' [E [A _]]].
    exists w'. split; [exact E | ]. rewrite A. reflexivity.
Defined.

(** C6 as stated fails for an id beyond the INTEGER range of the store:
    no patient has the id 9223372036854775808, yet the call raises
    [OverflowError] in place of the message; and so does a doctor id out of
    range for a patient that is there. *)
Lemma schedule_id_beyond_int64 :
  int_of_str "9223372036854775808" = Some 9223372036854775808
  /\ patient_exists 9223372036854775808 (working clinic) = false
  /\ schedule_appointment ["9223372036854775808"; "1"; "d"; "n"] clinic
     = (Raise OverflowError, ["1"; "d"; "n"],
        print (Text (nl ++ "--- SCHEDULE APPOINTMENT ---")) clinic)
  /\ doctor_exists 9223372036854775808 (working clinic) = false
  /\ fst (fst (schedule_appointment ["1"; "9223372036854775808"; "d"; "n"] clinic))
     = Raise OverflowError.
Proof. repeat split; vm_compute; reflexivity. Qed.

(** ** The invoice: lines, total and bill *)

Lemma same_but_stock_refl db : same_but_stock db db.
Proof. repeat split. Qed.

Lemma same_but_stock_trans db1 db2 db3 :
  same_but_stock db1 db2 -> same_but_stock db2 db3 -> same_but_stock db1 db3.
Proof.
  intros (P1 & B1 & S1) (P2 & B2 & S2). repeat split.
  - congruence.
  - congruence.
  - intros name. rewrite S2. apply S1.
Qed.

Lemma same_but_stock_with_quantity iid q db :
  same_but_stock db (with_quantity iid q db).
Proof.
  repeat split. intros name. apply stored_price_after.
Qed.

Lemma priced_same_but_stock db db' l :
  same_but_stock db db' -> priced db' l -> priced db l.
Proof.
  intros (_ & _ & S) H. destruct l as [a | name price q]; [exact I | ].
  destruct H as [H1 H2]. split; [ | exact H2]. rewrite <- S. exact H1.
Qed.

Lemma execute_query_update_stock q iid w :
  same_but_stock (working w) (working (snd (execute_query (UpdateQuantity q iid) w))).
Proof.
  unfold execute_query.
  destruct (forallb _ _); [ | apply same_but_stock_refl].
  unfold exec.
  destruct (existsb _ _ && _); cbn [snd working print].
  - apply same_but_stock_refl.
  - apply same_but_stock_with_quantity.
Qed.

Lemma float_of_int_ok q f :
  float_of_int q = Ok f -> f = nearest_float q /\ Z.abs q < 2 ^ 1024 - 2 ^ 970.
Proof.
  unfold float_of_int.
  destruct (Z.abs q <? 2 ^ 1024 - 2 ^ 970) eqn:E; [ | discriminate].
  intros H. inversion H. split; [reflexivity | ]. apply Z.ltb_lt. exact E.
Qed.

Lemma add_items_lines n :
  forall inp, (List.length inp <= n)%nat ->
  forall w items total r inp' w',
    add_items inp w items total = (r, inp', w') ->
    same_but_stock (working w) (working w')
    /\ forall items' total', r = Ok (items', total') ->
       exists ls,
         items' = (items ++ map line_text ls)%list
         /\ total' = running_total ls total
         /\ Forall (priced (working w)) ls.
Proof.
  induction n as [ | n IH]; intros inp Hn w items total r inp' w' E.
  - destruct inp; [ | simpl in Hn; lia]. inversion E; subst.
    split; [apply same_but_stock_refl | discriminate].
  - destruct inp as [ | answer inp1].
    { inversion E; subst. split; [apply same_but_stock_refl | discriminate]. }
    cbn [add_items] in E. destruct (negb _).
    { inversion E; subst. split; [apply same_but_stock_refl | ].
      intros items' total' H. inversion H; subst.
      exists []. rewrite app_nil_r. repeat split. constructor. }
    destruct inp1 as [ | name inp2].
    { inversion E; subst. split; [apply same_but_stock_refl | discriminate]. }
    unfold fetch in E. rewrite select_stock_stored in E.
    destruct (stored name (working w)) as [it | ] eqn:Hit; cbn [option_map] in E.
    + destruct inp2 as [ | line inp3].
      { inversion E; subst. split; [apply same_but_stock_refl | discriminate]. }
      destruct (int_of_str line) as [req_qty | ].
      2:{ inversion E; subst. split; [apply same_but_stock_refl | discriminate]. }
      destruct (req_qty >? quantity it).
      { apply IH in E; [ | simpl in Hn; lia]. exact E. }
      pose proof (execute_query_update_stock (quantity it - req_qty) (item_id it)
                    (print (PriceAvailable (price_per_unit it) (quantity it)) w)) as K.
      destruct (execute_query _ _) as [[done | e] w2]; cbn [snd] in K.
      2:{ inversion E; subst. split; [exact K | discriminate]. }
      unfold mul_float_int in E.
      destruct (float_of_int req_qty) as [f | e] eqn:Hf.
      2:{ inversion E; subst. split; [exact K | discriminate]. }
      apply float_of_int_ok in Hf as [-> Hq].
      apply IH in E; [ | simpl in Hn; lia].
      destruct E as [S L]. cbn [print working] in S, L.
      split; [eapply same_but_stock_trans; eassumption | ].
      intros items' total' Hr. destruct (L _ _ Hr) as (ls & Hi & Ht & Hp).
      exists (Draw name (price_per_unit it) req_qty :: ls).
      split; [ | split].
      * rewrite Hi, <- app_assoc. reflexivity.
      * rewrite Ht. reflexivity.
      * constructor.
        -- split; [rewrite Hit; reflexivity | exact Hq].
        -- eapply Forall_impl; [ | exact Hp].
           intros l. apply priced_same_but_stock. exact K.
    + apply IH in E; [ | simpl in Hn; lia]. exact E.
Qed.



Lemma add_fee_lines inp w r inp' w' :
  add_fee inp w = (r, inp', w') ->
  w' = w
  /\ forall items total, r = Ok (items, total) ->
       exists ls, items = map line_text ls /\ total = running_total ls 0
                  /\ forall db, Forall (priced db) ls.
Proof.
  unfold add_fee, bind, input, of_option, ret, raise.
  destruct inp as [ | answer inp].
  { intros E; inversion E; subst. split; [reflexivity | discriminate]. }
  destruct (lower answer =? "y")%string.
  - destruct inp as [ | line inp].
    { intros E; inversion E; subst. split; [reflexivity | discriminate]. }
    destruct (float_of_str line) as [fee | ].
    + intros E; inversion E; subst. split; [reflexivity | ].
      intros items total H. inversion H; subst.
      exists [Fee fee]. repeat split. intros db. repeat constructor.
    + intros E; inversion E; subst. split; [reflexivity | discriminate].
  - intros E; inversion E; subst. split; [reflexivity | ].
    intros items total H. inversion H; subst.
    exists []. repeat split. intros db. constructor.
Qed.

(** What [write_bill] leaves: the view of the connection with the new
    bill, committed, and the total on the screen; or the world as it was
    but for the screen. *)
Lemma write_bill_cases pid full_name items total inp w :
  let w' := snd (write_bill pid full_name items total inp w) in
  (working w' = working w /\ committed w' = committed w)
  \/ (exists t,
        real total = Some t
        /\ patient_exists pid (working w) = true
        /\ working w'
           = set_bills (working w)
               (bills (working w) ++
                [{| bill_id := next_id (map bill_id (bills (working w)));
                    bill_patient_id := pid; items_summary := join "; " items;
                    total_amount := t; payment_status := "Unpaid" |}])
        /\ committed w' = working w'
        /\ In (Text ("TOTAL PAYABLE: $" ++ format_2f total)) (stdout w')).
Proof.
  unfold write_bill, bind, execute, execute_query, say.
  cbn [int_params forallb]. rewrite andb_true_r.
  destruct (fits_int64 pid); [ | left; split; reflexivity].
  unfold exec.
  destruct (real total) as [t | ] eqn:Hr.
  - destruct (patient_exists pid (working w)) eqn:Hp; cbn [andb].
    + destruct (PrimFloat.leb 0 t).
      * right. exists t.
        rewrite (for_each_say (fun item => Text ("* " ++ item))).
        repeat split.
        cbn [snd print stdout committed working].
        apply in_or_app. left. apply in_or_app. right. left. reflexivity.
      * left.
        rewrite (for_each_say (fun item => Text ("* " ++ item))).
        split; reflexivity.
    + left.
      rewrite (for_each_say (fun item => Text ("* " ++ item))).
      split; reflexivity.
  - left.
    rewrite (for_each_say (fun item => Text ("* " ++ item))).
    split; reflexivity.
Qed.

Lemma running_total_app ls1 ls2 total :
  running_total (ls1 ++ ls2) total = running_total ls2 (running_total ls1 total).
Proof. unfold running_total. apply fold_left_app. Qed.

Lemma billed_print w w' p : billed w w' -> billed w (print p w').
Proof.
  intros [H | pid ls t H1 H2 H3 H4 H5 H6].
  - apply billed_none. exact H.
  - apply (billed_one w (print p w') pid ls t); try assumption.
    cbn [print stdout]. apply in_or_app. left. exact H6.
Qed.

Lemma generate_bill_billed inp w : billed w (snd (generate_bill inp w)).
Proof.
  unfold generate_bill, bind, say, except_ValueError, input, of_option, query,
    fetch_by_id, ret, raise.
  destruct inp as [ | line inp]; [apply billed_none; reflexivity | ].
  destruct (int_of_str line) as [pid | ]; [ | apply billed_none; reflexivity].
  destruct (fits_int64 pid) eqn:Hfit; [ | apply billed_none; reflexivity].
  cbn [print working].
  destruct (select_patient_name pid (working w)) as [full_name | ] eqn:Hpat;
    [ | apply billed_none; reflexivity].
  destruct (add_fee inp _) as [[r1 inp1] w1] eqn:E1.
  apply add_fee_lines in E1 as [-> L1].
  destruct r1 as [[items1 total1] | e1];
    [ | destruct e1; apply billed_none; reflexivity].
  destruct (L1 _ _ eq_refl) as (ls1 & -> & -> & P1).
  destruct (add_items inp1 _ _ _) as [[r2 inp2] w2] eqn:E2.
  apply (add_items_lines _ _ (Nat.le_refl _)) in E2 as [S2 L2].
  cbn [print working] in S2, L2.
  destruct S2 as (Sp & Sb & Ss).
  destruct r2 as [[items2 total2] | e2];
    [ | destruct e2; apply billed_none; exact Sb].
  destruct (L2 _ _ eq_refl) as (ls2 & -> & -> & P2).
  pose proof (write_bill_cases pid full_name (map line_text ls1 ++ map line_text ls2)
                (running_total ls2 (running_total ls1 0)) inp2 w2) as W.
  destruct (write_bill _ _ _ _ _ _) as [[r3 inp3] w3]. cbn [snd] in W.
  assert (B : billed w w3).
  { destruct W as [[Ww Wc] | (t & Hr & Hp & Ww & Wc & Wo)].
    - apply billed_none. rewrite Ww. exact Sb.
    - apply (billed_one w w3 pid (ls1 ++ ls2) t).
      + unfold patient_exists in *. rewrite <- Sp. exact Hp.
      + apply Forall_app. split; [apply P1 | exact P2].
      + rewrite running_total_app. exact Hr.
      + rewrite Ww. cbn [set_bills bills]. rewrite Sb.
        unfold new_bill. rewrite map_app. reflexivity.
      + exact Wc.
      + rewrite running_total_app. exact Wo. }
  destruct r3 as [u | e3]; [exact B | destruct e3; try exact B].
  apply billed_print. exact B.
Qed.






(** C10.  Whatever is typed, [generate_bill] adds at most one bill to the
    bills of the store, and a bill that it adds has the payment status
    'Unpaid', which the INSERT gives, not the 'Pending' that the schema
    has as default. *)
Theorem new_bills_are_unpaid (inp : list string) (w : world) :
  exists added,
    bills (working (snd (generate_bill inp w))) = (bills (working w) ++ added)%list
    /\ (List.length added <= 1)%nat
    /\ Forall (fun b => payment_status b = "Unpaid"
                        /\ payment_status b <> default_payment_status) added
    /\ (added <> [] ->
        committed (snd (generate_bill inp w)) = working (snd (generate_bill inp w))).
Proof.
  destruct (generate_bill_billed inp w) as [N | pid ls t Hp Hl Hr Hb Hc Ho].
  - exists []. rewrite app_nil_r. repeat split; auto. intros H; contradiction.
  - exists [new_bill (working w) pid ls t]. repeat split; auto.
    constructor; [ | constructor]. split; [reflexivity | discriminate].
Qed.






(** From a new database, every bill of every session is 'Unpaid': no
    operation writes another payment status. *)
Lemma all_unpaid_exec s db db' :
  exec s db = Some db' -> all_unpaid db -> all_unpaid db'.
Proof.
  unfold all_unpaid. intros E H.
  destruct s; unfold exec in E; repeat split_if_in E;
    try (inversion E; subst; exact H).
  - destruct (existsb _ _ && _); inversion E; subst; exact H.
  - inversion E; subst; simpl.
    apply Forall_app. split; [exact H | ]. repeat constructor.
Qed.

Corollary every_bill_unpaid_in_every_session (ops : list operation) (inp : list string) :
  all_unpaid (committed (snd (session ops inp fresh))).
Proof.
  apply (holds_session all_unpaid all_unpaid_exec ops inp fresh).
  split; constructor.
Qed.


(** * Properties of the whole program

    What the operations do to the store beyond the ledger, the scheduler
    and the invoice composer: which tables they write, what the schema and
    the checks of the program keep true over any sequence of calls, how the
    operations take and turn down what is typed, and how they compose. *)

(** ** Properties of the world over the operations

    A property of the world that printing keeps, and that the statements
    on the tables [allowed] keep, is kept by every operation that has
    statements for these tables only. *)

Create HintDb respects.

Section Respects.

Variable P : world -> Prop.
Variable allowed : table -> bool.
Hypothesis P_print : forall p w, P w -> P (print p w).
Hypothesis P_execute :
  forall s w, allowed (written s) = true -> P w -> P (snd (execute_query s w)).

Lemma respects_ret {A} (a : A) : respects P (ret a).
Proof. intros inp w H; exact H. Qed.

Lemma respects_raise {A} e : respects P (@raise A e).
Proof. intros inp w H; exact H. Qed.

Lemma respects_bind {A B} (m : M A) (k : A -> M B) :
  respects P m -> (forall a, respects P (k a)) -> respects P (bind m k).
Proof.
  intros Hm Hk inp w H. unfold bind.
  specialize (Hm inp w H).
  destruct (m inp w) as [[[a | e] inp'] w']; cbn [snd] in *.
  - apply Hk, Hm.
  - exact Hm.
Qed.

Lemma respects_except {A} (m h : M A) :
  respects P m -> respects P h -> respects P (except_ValueError m h).
Proof.
  intros Hm Hh inp w H. unfold except_ValueError.
  specialize (Hm inp w H).
  destruct (m inp w) as [[[a | []] inp'] w']; cbn [snd] in *; auto.
Qed.

Lemma respects_input : respects P input.
Proof. intros [ | l inp] w H; exact H. Qed.

Lemma respects_say p : respects P (say p).
Proof. intros inp w H. apply P_print, H. Qed.

Lemma respects_query {A} (q : world -> result A) : respects P (query q).
Proof. intros inp w H. unfold query. destruct (q w); exact H. Qed.

Lemma respects_execute s : allowed (written s) = true -> respects P (execute s).
Proof.
  intros Ha inp w H. unfold execute.
  pose proof (P_execute s w Ha H) as K.
  destruct (execute_query s w); exact K.
Qed.

Lemma respects_of_option {A} (o : option A) : respects P (of_option o).
Proof. destruct o; [apply respects_ret | apply respects_raise]. Qed.

Lemma respects_for_each {A} (l : list A) (body : A -> M unit) :
  (forall a, respects P (body a)) -> respects P (for_each l body).
Proof.
  intros Hb. induction l as [ | a l IH]; simpl.
  - apply respects_ret.
  - apply respects_bind; auto.
Qed.

#[local] Hint Resolve respects_ret respects_raise respects_input respects_say
  respects_query respects_of_option : respects.

Ltac respects_step :=
  match goal with
  | |- respects P (bind _ _) => apply respects_bind; [ | intro ]
  | |- respects P (except_ValueError _ _) => apply respects_except
  | |- respects P (for_each _ _) => apply respects_for_each; intro
  | |- respects P (execute _) => apply respects_execute; assumption
  | |- respects P (if ?b then _ else _) => destruct b
  | |- respects P (match ?x with _ => _ end) => destruct x
  | |- respects P (fun _ _ => (Ok _, _, _)) => intros ? ? ?; assumption
  | |- respects P _ => solve [auto with respects]
  end.

Lemma respects_register_patient :
  allowed Patients = true -> respects P register_patient.
Proof. intros Ha. unfold register_patient. repeat respects_step. Qed.

Lemma respects_add_staff : allowed Staff = true -> respects P add_staff.
Proof. intros Ha. unfold add_staff. repeat respects_step. Qed.

Lemma respects_add_item : allowed Inventory = true -> respects P add_item.
Proof. intros Ha. unfold add_item. repeat respects_step. Qed.

Lemma respects_update_stock : allowed Inventory = true -> respects P update_stock.
Proof. intros Ha. unfold update_stock. repeat respects_step. Qed.

Lemma respects_check_low_stock : respects P check_low_stock.
Proof. unfold check_low_stock. repeat respects_step. Qed.

Lemma respects_view_patients : respects P view_patients.
Proof. unfold view_patients. repeat respects_step. Qed.

Lemma respects_view_staff role_filter : respects P (view_staff role_filter).
Proof. unfold view_staff. repeat respects_step. Qed.

Lemma respects_schedule_appointment :
  allowed Appointments = true -> respects P schedule_appointment.
Proof. intros Ha. unfold schedule_appointment. repeat respects_step. Qed.

Lemma respects_add_items n :
  allowed Inventory = true ->
  forall inp, (List.length inp <= n)%nat ->
  forall w items total, P w -> P (snd (add_items inp w items total)).
Proof.
  intros Ha.
  induction n as [ | n IH]; intros inp Hn w items total H.
  - destruct inp; [exact H | simpl in Hn; lia].
  - destruct inp as [ | answer inp1]; [exact H | ].
    cbn [add_items]. destruct (negb _); [exact H | ].
    destruct inp1 as [ | name inp2]; [exact H | ].
    destruct (fetch _ w) as [[[iid price] available] | ].
    + destruct inp2 as [ | line inp3]; [apply P_print, H | ].
      destruct (int_of_str line) as [req_qty | ]; [ | apply P_print, H].
      destruct (req_qty >? available).
      { apply IH; [simpl in Hn; lia | apply P_print, P_print, H]. }
      pose proof (P_execute (UpdateQuantity (available - req_qty) iid)
                    (print (PriceAvailable price available) w) Ha
                    (P_print _ _ H)) as K.
      destruct (execute_query _ _) as [[done | e] w2]; cbn [snd] in K; [ | exact K].
      destruct (mul_float_int price req_qty); [ | exact K].
      apply IH; [simpl in Hn; lia | apply P_print, K].
    + apply IH; [simpl in Hn; lia | apply P_print, H].
Qed.

Lemma respects_generate_bill :
  allowed Inventory = true -> allowed Bills = true -> respects P generate_bill.
Proof.
  intros Hi Hb. unfold generate_bill, add_fee, write_bill. repeat respects_step.
  all: try (intros inp w H; eapply respects_add_items; eauto).
Qed.

Lemma respects_run_operation op :
  (forall t, In t (tables_of op) -> allowed t = true) ->
  respects P (run_operation op).
Proof.
  intros Ha. destruct op; cbn [run_operation].
  - apply respects_register_patient, Ha. left; reflexivity.
  - apply respects_add_staff, Ha. left; reflexivity.
  - apply respects_add_item, Ha. left; reflexivity.
  - apply respects_update_stock, Ha. left; reflexivity.
  - apply respects_check_low_stock.
  - apply respects_schedule_appointment, Ha. left; reflexivity.
  - apply respects_generate_bill; apply Ha; [left | right; left]; reflexivity.
Qed.

End Respects.

Lemma exec_outcome s db db' : exec s db = Some db' -> outcome s db db'.
Proof.
  intros E.
  destruct s as [name a g contact addr blood history | name r spec contact shift
                | name cat q price reorder | q iid | pid did time n
                | pid summary total]; unfold exec in E; cbn [outcome].
  - split_if_in E.
    match goal with H : _ && _ = true |- _ => apply andb_true_iff in H as [Ha Hg] end.
    inversion E; subst. apply Z.ltb_lt in Ha. repeat split; first [assumption | reflexivity].
  - split_if_in E. inversion E; subst. split; reflexivity.
  - destruct (real price) as [pr | ] eqn:R; [ | discriminate E].
    split_if_in E.
    match goal with H : _ && _ = true |- _ => apply andb_true_iff in H as [Hn Hq] end.
    apply negb_true_iff in Hn. apply Z.leb_le in Hq.
    inversion E; subst. exists pr. repeat split; first [assumption | reflexivity].
  - destruct (existsb _ _ && _) eqn:C; inversion E; subst.
    split; [ | reflexivity]. intros Hex. rewrite Hex in C. cbn [andb] in C.
    apply Z.ltb_ge. exact C.
  - split_if_in E.
    match goal with H : _ && _ = true |- _ => apply andb_true_iff in H as [Hp Hs] end.
    inversion E; subst. repeat split; first [assumption | reflexivity].
  - destruct (real total) as [t | ] eqn:R; [ | discriminate E].
    split_if_in E.
    match goal with H : _ && _ = true |- _ => apply andb_true_iff in H as [Hp Ht] end.
    inversion E; subst. exists t. repeat split; first [assumption | reflexivity].
Qed.

(** What [execute_query] leaves to the connection: the database as it
    was, or what the accepted statement made of it, committed. *)
Lemma execute_query_cases s w :
  (working (snd (execute_query s w)) = working w
   /\ committed (snd (execute_query s w)) = committed w)
  \/ (outcome s (working w) (working (snd (execute_query s w)))
      /\ committed (snd (execute_query s w)) = working (snd (execute_query s w))
      /\ fst (execute_query s w) = Ok true).
Proof.
  unfold execute_query.
  destruct (forallb _ _); [ | left; split; reflexivity].
  destruct (exec s (working w)) as [db' | ] eqn:E.
  - right. cbn [snd fst working committed]. split; [ | split; reflexivity].
    apply exec_outcome. exact E.
  - left. split; reflexivity.
Qed.

Lemma session_respects (P : world -> Prop) :
  (forall op inp w, P w -> P (snd (run_operation op inp w))) ->
  (forall w, P w -> P (reconnect w)) ->
  forall ops inp w, P w -> P (snd (session ops inp w)).
Proof.
  intros Hop Hre ops. induction ops as [ | op ops IH]; intros inp w H;
    cbn [session]; [exact H | ].
  pose proof (Hop op inp w H) as K.
  destruct (run_operation op inp w) as [[[u | e] inp'] w']; cbn [snd] in K.
  - apply IH, K.
  - apply IH, Hre, K.
Qed.

(** ** The connection's view and the committed database *)

Lemma synced_print p w : synced w -> synced (print p w).
Proof. intros H; exact H. Qed.

Lemma synced_execute_query s w : synced w -> synced (snd (execute_query s w)).
Proof.
  unfold synced. intros H.
  destruct (execute_query_cases s w) as [[Hw Hc] | [_ [Hc _]]]; congruence.
Qed.

Lemma synced_run_operation op inp w :
  synced w -> synced (snd (run_operation op inp w)).
Proof.
  apply (respects_run_operation synced (fun _ => true)).
  - exact synced_print.
  - intros s w' _. apply synced_execute_query.
  - reflexivity.
Qed.

(** ** The tables that an operation writes *)

Lemma untouched_refl t db : untouched t db db.
Proof. destruct t; reflexivity. Qed.

Lemma untouched_trans t db1 db2 db3 :
  untouched t db1 db2 -> untouched t db2 db3 -> untouched t db1 db3.
Proof. destruct t; unfold untouched; congruence. Qed.

Lemma outcome_untouched t s db db' :
  table_eqb (written s) t = false -> outcome s db db' -> untouched t db db'.
Proof.
  intros Ht O.
  destruct s; cbn [outcome written] in *.
  - destruct O as (_ & _ & ->). destruct t; try reflexivity; discriminate Ht.
  - destruct O as (_ & ->). destruct t; try reflexivity; discriminate Ht.
  - destruct O as (pr & _ & _ & _ & ->). destruct t; try reflexivity; discriminate Ht.
  - destruct O as (_ & ->). destruct t; try reflexivity; discriminate Ht.
  - destruct O as (_ & _ & ->). destruct t; try reflexivity; discriminate Ht.
  - destruct O as (tt & _ & _ & _ & ->). destruct t; try reflexivity; discriminate Ht.
Qed.

Lemma untouched_run_operation t op inp w :
  ~ In t (tables_of op) ->
  untouched t (working w) (working (snd (run_operation op inp w))).
Proof.
  intros Ht.
  apply (respects_run_operation (fun w' => untouched t (working w) (working w'))
           (fun t' => negb (table_eqb t' t))).
  - intros p w' H; exact H.
  - intros s w' Hs H. apply negb_true_iff in Hs.
    destruct (execute_query_cases s w') as [[Hw _] | [O _]].
    + rewrite Hw. exact H.
    + eapply untouched_trans; [exact H | ].
      eapply outcome_untouched; eassumption.
  - intros t' Hin. apply negb_true_iff.
    destruct t, t'; try reflexivity; exfalso; apply Ht; exact Hin.
  - apply untouched_refl.
Qed.

(** X2.  Each operation writes its own tables only: registering a patient
    the patients, adding staff the staff, adding an item and updating
    stock the inventory, scheduling the appointments, billing the inventory
    and the bills, and the low stock report none.  Every other table is,
    after the call, what it was before, in the connection's view and in
    the committed database. *)
Theorem operation_writes_its_tables_only t op inp w :
  ~ In t (tables_of op) ->
  committed w = working w ->
  untouched t (working w) (working (snd (run_operation op inp w)))
  /\ untouched t (committed w) (committed (snd (run_operation op inp w))).
Proof.
  intros Ht S.
  pose proof (untouched_run_operation t op inp w Ht) as U.
  split; [exact U | ].
  pose proof (synced_run_operation op inp w S) as S'. unfold synced in S'.
  rewrite S, S'. exact U.
Qed.

Lemma operation_writes_its_tables_only_witness :
  untouched Patients (working clinic)
    (working (snd (run_operation GenerateBill ["1"; "50"; "y"; "Paracetamol"; "5"] clinic)))
  /\ untouched Patients (committed clinic)
    (committed (snd (run_operation GenerateBill ["1"; "50"; "y"; "Paracetamol"; "5"] clinic))).
Proof.
  apply (operation_writes_its_tables_only Patients GenerateBill
           ["1"; "50"; "y"; "Paracetamol"; "5"] clinic).
  - cbv. intros [H | [H | []]]; discriminate H.
  - reflexivity.
Defined.

(** ** Records are kept *)

Lemma grows_refl {A} (l : list A) : grows l l.
Proof. exists []. symmetry. apply app_nil_r. Qed.

Lemma grows_trans {A} (l1 l2 l3 : list A) :
  grows l1 l2 -> grows l2 l3 -> grows l1 l3.
Proof.
  intros [m1 ->] [m2 ->]. exists (m1 ++ m2)%list. symmetry. apply app_assoc.
Qed.

Lemma grows_one {A} (l : list A) x : grows l (l ++ [x]).
Proof. exists [x]. reflexivity. Qed.

Lemma restocked_refl l : restocked l l.
Proof.
  exists l, []. split; [symmetry; apply app_nil_r | ].
  induction l; constructor; [reflexivity | assumption].
Qed.

Lemma restocked_one l x : restocked l (l ++ [x]).
Proof.
  exists l, [x]. split; [reflexivity | ].
  induction l; constructor; [reflexivity | assumption].
Qed.

Lemma restocked_map iid q l :
  restocked l (map (fun it => if item_id it =? iid then set_quantity q it else it) l).
Proof.
  exists (map (fun it => if item_id it =? iid then set_quantity q it else it) l), [].
  split; [symmetry; apply app_nil_r | ].
  induction l as [ | it l IH]; cbn [map]; constructor; [ | exact IH].
  destruct (item_id it =? iid); reflexivity.
Qed.

Lemma Forall2_app_left {A B} (R : A -> B -> Prop) l k1 k2 :
  Forall2 R l (k1 ++ k2) ->
  exists l1 l2, l = (l1 ++ l2)%list /\ Forall2 R l1 k1 /\ Forall2 R l2 k2.
Proof.
  revert l. induction k1 as [ | b k1 IH]; intros l H.
  - exists [], l. repeat split; [constructor | exact H].
  - cbn [app] in H. inversion H as [ | a b' l' k' Hab Hrest]; subst.
    destruct (IH _ Hrest) as (l1 & l2 & -> & H1 & H2).
    exists (a :: l1), l2. repeat split; [constructor; assumption | exact H2].
Qed.

Lemma restocked_trans l1 l2 l3 :
  restocked l1 l2 -> restocked l2 l3 -> restocked l1 l3.
Proof.
  intros (k1 & m1 & -> & F1) (k2 & m2 & -> & F2).
  apply Forall2_flip in F2.
  apply Forall2_app_left in F2 as (a & b & -> & Fa & Fb).
  exists a, (b ++ m2)%list. split; [symmetry; apply app_assoc | ].
  clear Fb. revert a Fa. induction F1 as [ | x y l k Hxy F1 IH]; intros a Fa.
  - inversion Fa; constructor.
  - inversion Fa as [ | y' z k' a' Hyz Fa']; subst. constructor.
    + cbn beta in Hyz. congruence.
    + apply IH, Fa'.
Qed.

Lemma extends_refl db : extends db db.
Proof.
  repeat split; first [apply grows_refl | apply restocked_refl].
Qed.

Lemma extends_trans db1 db2 db3 :
  extends db1 db2 -> extends db2 db3 -> extends db1 db3.
Proof.
  intros (P1 & S1 & I1 & A1 & B1) (P2 & S2 & I2 & A2 & B2).
  repeat split;
    first [eapply grows_trans; eassumption | eapply restocked_trans; eassumption].
Qed.

Lemma outcome_extends s db db' : outcome s db db' -> extends db db'.
Proof.
  intros O. destruct s; cbn [outcome] in O.
  - destruct O as (_ & _ & ->).
    repeat split; first [apply grows_one | apply grows_refl | apply restocked_refl].
  - destruct O as (_ & ->).
    repeat split; first [apply grows_one | apply grows_refl | apply restocked_refl].
  - destruct O as (pr & _ & _ & _ & ->).
    repeat split; first [apply restocked_one | apply grows_refl].
  - destruct O as (_ & ->).
    repeat split; first [apply restocked_map | apply grows_refl].
  - destruct O as (_ & _ & ->).
    repeat split; first [apply grows_one | apply grows_refl | apply restocked_refl].
  - destruct O as (t & _ & _ & _ & ->).
    repeat split; first [apply grows_one | apply grows_refl | apply restocked_refl].
Qed.

Lemma extends_run_operation op inp w :
  extends (working w) (working (snd (run_operation op inp w))).
Proof.
  apply (respects_run_operation (fun w' => extends (working w) (working w'))
           (fun _ => true)).
  - intros p w' H; exact H.
  - intros s w' _ H.
    destruct (execute_query_cases s w') as [[Hw _] | [O _]].
    + rewrite Hw. exact H.
    + eapply extends_trans; [exact H | ]. exact (outcome_extends _ _ _ O).
  - reflexivity.
  - apply extends_refl.
Qed.

(** X3.  No operation deletes or rewrites a record: after any call, and
    after any sequence of calls, the patients, staff, appointments and
    bills are the rows that were there, in their order, perhaps with new
    rows behind them, and so is the inventory but for the quantities. *)
Theorem records_are_kept op ops inp inp' w :
  committed w = working w ->
  extends (working w) (working (snd (run_operation op inp w)))
  /\ extends (working w) (working (snd (session ops inp' w))).
Proof.
  intros S. split; [apply extends_run_operation | ].
  assert (G : forall i w0,
             synced w0 /\ extends (working w) (working w0) ->
             synced (snd (session ops i w0))
             /\ extends (working w) (working (snd (session ops i w0)))).
  { apply (session_respects
             (fun w' => synced w' /\ extends (working w) (working w'))).
    - intros o i w' [S' E]. split; [apply synced_run_operation, S' | ].
      eapply extends_trans; [exact E | apply extends_run_operation].
    - intros w' [S' E]. split; [reflexivity | ].
      unfold reconnect; cbn [working]. unfold synced in S'. rewrite S'. exact E. }
  apply G. split; [exact S | apply extends_refl].
Qed.

Lemma records_are_kept_witness :
  extends (working clinic)
    (working (snd (run_operation GenerateBill ["1"; "50"; "y"; "Paracetamol"; "5"] clinic)))
  /\ extends (working clinic)
    (working (snd (session [AddItem; UpdateStock]
                     ["Gauze"; "Equipment"; "1"; "1"; "1"; "2"; "-3"] clinic))).
Proof.
  apply (records_are_kept GenerateBill [AddItem; UpdateStock]
           ["1"; "50"; "y"; "Paracetamol"; "5"]
           ["Gauze"; "Equipment"; "1"; "1"; "1"; "2"; "-3"] clinic).
  reflexivity.
Defined.

(** ** Keys, references and checks *)

Lemma next_id_above ids x : In x ids -> x < next_id ids.
Proof.
  unfold next_id. induction ids as [ | y ids IH]; intros H; [destruct H | ].
  cbn [fold_right]. destruct H as [-> | H]; [lia | ]. specialize (IH H). lia.
Qed.

Lemma next_id_fresh ids : ~ In (next_id ids) ids.
Proof. intros H. apply next_id_above in H. lia. Qed.

Lemma next_id_positive ids : 0 < next_id ids.
Proof.
  unfold next_id.
  assert (0 <= fold_right Z.max 0 ids); [ | lia].
  induction ids; cbn [fold_right]; lia.
Qed.

Lemma NoDup_snoc {A} (l : list A) x : NoDup l -> ~ In x l -> NoDup (l ++ [x]).
Proof.
  intros Hl Hx. induction Hl as [ | y l Hy Hl IH]; cbn [app].
  - constructor; [intros [] | constructor].
  - constructor.
    + rewrite in_app_iff. intros [H | [-> | []]]; [exact (Hy H) | ].
      apply Hx. left. reflexivity.
    + apply IH. intros H. apply Hx. right. exact H.
Qed.

Lemma string_in_In s l : string_in s l = true <-> In s l.
Proof.
  unfold string_in. rewrite existsb_exists. split.
  - intros (x & Hx & E). apply String.eqb_eq in E. subst. exact Hx.
  - intros H. exists s. split; [exact H | apply String.eqb_refl].
Qed.

Lemma string_in_not_In s l : string_in s l = false -> ~ In s l.
Proof.
  intros H Hin. apply string_in_In in Hin. congruence.
Qed.

Lemma map_with_quantity {B} (f : item -> B) iid q l :
  (forall it, f (set_quantity q it) = f it) ->
  map f (map (fun it => if item_id it =? iid then set_quantity q it else it) l)
  = map f l.
Proof.
  intros Hf. rewrite map_map. apply map_ext. intros it.
  destruct (item_id it =? iid); [apply Hf | reflexivity].
Qed.

Lemma keys_unique_exec s db db' :
  exec s db = Some db' -> keys_unique db -> keys_unique db'.
Proof.
  intros E (P & S & I & N & A & B). apply exec_outcome in E.
  destruct s; cbn [outcome] in E.
  - destruct E as (_ & _ & ->). repeat split; try assumption.
    cbn [set_patients patients]. rewrite map_app. apply NoDup_snoc; [exact P | ].
    apply next_id_fresh.
  - destruct E as (_ & ->). repeat split; try assumption.
    cbn [set_staff staff_members]. rewrite map_app. apply NoDup_snoc; [exact S | ].
    apply next_id_fresh.
  - destruct E as (pr & _ & Hn & _ & ->). repeat split; try assumption.
    + cbn [set_inventory inventory]. rewrite map_app.
      apply NoDup_snoc; [exact I | ]. apply next_id_fresh.
    + cbn [set_inventory inventory]. rewrite map_app.
      apply NoDup_snoc; [exact N | ]. apply string_in_not_In, Hn.
  - destruct E as (_ & ->). unfold with_quantity. repeat split; try assumption.
    + cbn [set_inventory inventory]. rewrite map_with_quantity; [exact I | reflexivity].
    + cbn [set_inventory inventory]. rewrite map_with_quantity; [exact N | reflexivity].
  - destruct E as (_ & _ & ->). repeat split; try assumption.
    cbn [set_appointments appointments]. rewrite map_app.
    apply NoDup_snoc; [exact A | ]. apply next_id_fresh.
  - destruct E as (t & _ & _ & _ & ->). repeat split; try assumption.
    cbn [set_bills bills]. rewrite map_app. apply NoDup_snoc; [exact B | ].
    apply next_id_fresh.
Qed.

(** X4.  Identifiers and item names stay unique: when no table holds an
    identifier twice and no two items share a name, the same is true
    after every sequence of operations, in the committed database and in
    the connection's view. *)
Theorem keys_stay_unique ops inp w :
  holds keys_unique w -> holds keys_unique (snd (session ops inp w)).
Proof. apply holds_session. exact keys_unique_exec. Qed.

Lemma keys_unique_clinic : holds keys_unique clinic.
Proof.
  split; repeat split; repeat constructor; cbv;
    intuition (try discriminate; try congruence).
Qed.

Lemma keys_stay_unique_witness :
  holds keys_unique
    (snd (session [AddItem; RegisterPatient]
            ["Gauze"; "Equipment"; "1"; "1"; "1";
             "Bo"; "41"; "m"; "556"; "Road"; "B+"; "none"] clinic)).
Proof.
  apply (keys_stay_unique [AddItem; RegisterPatient]
           ["Gauze"; "Equipment"; "1"; "1"; "1";
            "Bo"; "41"; "m"; "556"; "Road"; "B+"; "none"] clinic).
  split; repeat split; repeat constructor; cbv;
    intuition (try discriminate; try congruence).
Defined.

Lemma existsb_app_left {A} (f : A -> bool) l m :
  existsb f l = true -> existsb f (l ++ m) = true.
Proof. intros H. rewrite existsb_app, H. reflexivity. Qed.

Lemma Forall_snoc {A} (P : A -> Prop) l x :
  Forall P l -> P x -> Forall P (l ++ [x]).
Proof.
  intros Hl Hx. apply Forall_app. split; [exact Hl | ].
  constructor; [exact Hx | constructor].
Qed.

Lemma references_resolve_exec s db db' :
  exec s db = Some db' -> references_resolve db -> references_resolve db'.
Proof.
  intros E [A B]. apply exec_outcome in E.
  destruct s; cbn [outcome] in E.
  - destruct E as (_ & _ & ->). split.
    + eapply Forall_impl; [ | exact A]. intros a [Hp Hs]. split; [ | exact Hs].
      apply existsb_app_left, Hp.
    + eapply Forall_impl; [ | exact B]. intros b Hp.
      apply existsb_app_left, Hp.
  - destruct E as (_ & ->). split; [ | exact B].
    eapply Forall_impl; [ | exact A]. intros a [Hp Hs]. split; [exact Hp | ].
    apply existsb_app_left, Hs.
  - destruct E as (pr & _ & _ & _ & ->). split; assumption.
  - destruct E as (_ & ->). split; assumption.
  - destruct E as (Hp & Hs & ->). split; [ | exact B].
    cbn [set_appointments appointments]. apply Forall_snoc.
    + exact A.
    + split; assumption.
  - destruct E as (t & _ & Hp & _ & ->). split; [exact A | ].
    cbn [set_bills bills]. apply Forall_snoc; assumption.
Qed.

(** X5.  References stay resolved: when every appointment names a patient
    and a staff member that are in their tables, and every bill a patient
    that is, the same is true after every sequence of operations. *)
Theorem references_stay_resolved ops inp w :
  holds references_resolve w ->
  holds references_resolve (snd (session ops inp w)).
Proof. apply holds_session. exact references_resolve_exec. Qed.

Lemma references_stay_resolved_witness :
  holds references_resolve
    (snd (session [ScheduleAppointment; GenerateBill]
            ["1"; "1"; "2026-01-05 10:00"; "check"; "1"; "50"; "n"] clinic)).
Proof.
  apply (references_stay_resolved [ScheduleAppointment; GenerateBill]
           ["1"; "1"; "2026-01-05 10:00"; "check"; "1"; "50"; "n"] clinic).
  split; split; constructor.
Defined.

Lemma real_not_nan x pr : real x = Some pr -> PrimFloat.is_nan pr = false.
Proof.
  unfold real. intros H.
  destruct (PrimFloat.is_nan x) eqn:N; [discriminate H | ].
  destruct (PrimFloat.eqb x 0); inversion H; subst; [reflexivity | exact N].
Qed.

Lemma rows_checked_exec s db db' :
  exec s db = Some db' -> rows_checked db -> rows_checked db'.
Proof.
  intros E (P & S & I & A & B). apply exec_outcome in E.
  destruct s as [name a g contact addr blood history | name r spec contact shift
                | name cat q price reorder | q iid | pid did time n
                | pid summary total]; cbn [outcome] in E.
  - destruct E as (Ha & Hg & ->). repeat split; try assumption.
    cbn [set_patients patients]. apply Forall_snoc; [exact P | ].
    split; [exact Ha | apply string_in_In, Hg].
  - destruct E as (R & ->). repeat split; try assumption.
    cbn [set_staff staff_members]. apply Forall_snoc; [exact S | ].
    split; [apply string_in_In, R | reflexivity].
  - destruct E as (pr & R & _ & _ & ->). repeat split; try assumption.
    cbn [set_inventory inventory]. apply Forall_snoc; [exact I | ].
    exact (real_not_nan _ _ R).
  - destruct E as (_ & ->). repeat split; try assumption.
    unfold with_quantity; cbn [set_inventory inventory].
    apply Forall_forall. intros it Hin. apply in_map_iff in Hin as (it0 & <- & Hin).
    rewrite Forall_forall in I. specialize (I it0 Hin).
    destruct (item_id it0 =? _); exact I.
  - destruct E as (_ & _ & ->). repeat split; try assumption.
    cbn [set_appointments appointments]. apply Forall_snoc; [exact A | reflexivity].
  - destruct E as (t & _ & _ & Ht & ->). repeat split; try assumption.
    cbn [set_bills bills]. apply Forall_snoc; [exact B | exact Ht].
Qed.

(** X6.  Rows stay within the checks and the defaults of the schema:
    when every patient has a positive age and a gender among M, F and O,
    every staff member a role among Doctor, Nurse, Admin and Pharmacist
    and the active flag set, every item a price that is a number, every
    appointment the status Scheduled and every bill a total that is not
    negative, the same is true after every sequence of operations. *)
Theorem rows_stay_checked ops inp w :
  holds rows_checked w -> holds rows_checked (snd (session ops inp w)).
Proof. apply holds_session. exact rows_checked_exec. Qed.

Lemma rows_stay_checked_witness :
  holds rows_checked
    (snd (session [RegisterPatient; AddStaff]
            ["Bo"; "41"; "m"; "556"; "Road"; "B+"; "none";
             "Cy"; "admin"; "3"; "9-5"] clinic)).
Proof.
  apply (rows_stay_checked [RegisterPatient; AddStaff]
           ["Bo"; "41"; "m"; "556"; "Road"; "B+"; "none";
            "Cy"; "admin"; "3"; "9-5"] clinic).
  assert (H : rows_checked clinic_db); [ | split; exact H].
  unfold rows_checked, clinic_db;
    cbn [patients staff_members inventory appointments bills].
  repeat split; repeat (apply Forall_cons || apply Forall_nil);
    try split; first [reflexivity | cbn; auto 6].
Defined.

(** ** Appointments *)

(** A call of [schedule_appointment] with a patient and a doctor that are
    there. *)
Lemma schedule_appointment_books w l1 l2 date_str notes rest pid did :
  int_of_str l1 = Some pid -> fits_int64 pid = true ->
  int_of_str l2 = Some did -> fits_int64 did = true ->
  patient_exists pid (working w) = true ->
  doctor_exists did (working w) = true ->
  schedule_appointment (l1 :: l2 :: date_str :: notes :: rest) w
  = (Ok tt, rest,
     let db := set_appointments (working w)
                 (appointments (working w)
                  ++ [new_appointment (working w) pid did date_str notes]) in
     {| committed := db; working := db;
        stdout := stdout w ++ [Text (nl ++ "--- SCHEDULE APPOINTMENT ---");
                               Text (nl ++ "Available Doctors:")]
                  ++ doctor_lines (working w)
                  ++ [Text "Appointment confirmed."] |}).
Proof.
  intros Hp Hfp Hd Hfd Hyes Hdoc.
  unfold schedule_appointment, bind, say, except_ValueError, input,
    of_option, query, fetch_by_id, fetch, ret, select_patient, select_doctor,
    execute, execute_query.
  rewrite Hp, Hfp. cbn [print working]. rewrite Hyes.
  rewrite (for_each_say doctor_line).
  cbn [print committed working stdout].
  rewrite Hd, Hfd. cbn [working]. rewrite Hdoc.
  cbn [int_params forallb]. rewrite Hfp, Hfd. cbn [andb].
  unfold exec. cbn [print committed working stdout].
  rewrite Hyes, (doctor_is_staff _ _ Hdoc). cbn [andb].
  unfold doctor_lines, new_appointment, print. cbn [committed working stdout].
  rewrite <- !app_assoc. reflexivity.
Qed.

(** What any call of [schedule_appointment] does to the database. *)
Lemma schedule_appointment_cases inp w :
  (working (snd (schedule_appointment inp w)) = working w
   /\ committed (snd (schedule_appointment inp w)) = committed w)
  \/ exists pid did date_str notes,
       patient_exists pid (working w) = true
       /\ doctor_exists did (working w) = true
       /\ working (snd (schedule_appointment inp w))
          = set_appointments (working w)
              (appointments (working w)
               ++ [new_appointment (working w) pid did date_str notes])
       /\ committed (snd (schedule_appointment inp w))
          = working (snd (schedule_appointment inp w)).
Proof.
  unfold schedule_appointment, bind, say, except_ValueError, input,
    of_option, query, fetch_by_id, fetch, ret, raise, select_patient, select_doctor,
    execute.
  destruct inp as [ | l1 inp]; [left; split; reflexivity | ].
  destruct (int_of_str l1) as [pid | ]; [ | left; split; reflexivity].
  destruct (fits_int64 pid); [ | left; split; reflexivity].
  cbn [print working].
  destruct (patient_exists pid (working w)) eqn:Hp; [ | left; split; reflexivity].
  rewrite (for_each_say doctor_line). cbn [print committed working stdout].
  destruct inp as [ | l2 inp]; [left; split; reflexivity | ].
  destruct (int_of_str l2) as [did | ]; [ | left; split; reflexivity].
  destruct (fits_int64 did); [ | left; split; reflexivity].
  cbn [working].
  destruct (doctor_exists did (working w)) eqn:Hd; [ | left; split; reflexivity].
  destruct inp as [ | date_str inp]; [left; split; reflexivity | ].
  destruct inp as [ | notes inp]; [left; split; reflexivity | ].
  match goal with
  | |- context [execute_query ?s ?w0] =>
      destruct (execute_query_cases s w0) as [[Hw Hc] | (O & Hc & Hr)];
      destruct (execute_query s w0) as [[[ | ] | [ | | ]] w1]
  end; cbn [snd fst print working committed] in *.
  all: try (left; split; assumption).
  all: try discriminate Hr.
  right. exists pid, did, date_str, notes.
  cbn [outcome] in O. destruct O as (_ & _ & O).
  repeat split; assumption.
Qed.

Lemma doctor_exists_more did db l :
  doctor_exists did db = true ->
  doctor_exists did (set_staff db (staff_members db ++ l)) = true.
Proof. unfold doctor_exists. cbn [set_staff staff_members]. apply existsb_app_left. Qed.

Lemma doctors_only_outcome s db db' :
  table_eqb (written s) Appointments = false ->
  outcome s db db' -> doctors_only db -> doctors_only db'.
Proof.
  unfold doctors_only. intros Ht O H.
  destruct s; cbn [outcome written] in O, Ht; try discriminate Ht.
  - destruct O as (_ & _ & ->). exact H.
  - destruct O as (_ & ->). cbn [set_staff appointments].
    eapply Forall_impl; [ | exact H]. intros a Ha.
    apply doctor_exists_more, Ha.
  - destruct O as (pr & _ & _ & _ & ->). exact H.
  - destruct O as (_ & ->). exact H.
  - destruct O as (t & _ & _ & _ & ->). exact H.
Qed.

Lemma doctors_only_run_operation op inp w :
  holds doctors_only w -> holds doctors_only (snd (run_operation op inp w)).
Proof.
  intros H.
  assert (G : forall o, ~ In Appointments (tables_of o) ->
                        holds doctors_only (snd (run_operation o inp w))).
  { intros o Ho.
    apply (respects_run_operation (holds doctors_only)
             (fun t => negb (table_eqb t Appointments))).
    - intros p w' K; exact K.
    - intros s w' Hs [Kc Kw]. apply negb_true_iff in Hs.
      destruct (execute_query_cases s w') as [[Hw Hc] | (O & Hc & _)].
      + split; [rewrite Hc | rewrite Hw]; assumption.
      + assert (doctors_only (working (snd (execute_query s w'))))
          by (eapply doctors_only_outcome; eassumption).
        split; [rewrite Hc | ]; assumption.
    - intros t Hin. apply negb_true_iff.
      destruct t; try reflexivity. exfalso. exact (Ho Hin).
    - exact H. }
  destruct op; try (apply G; cbv; intuition discriminate).
  cbn [run_operation]. destruct H as [Hc Hw].
  destruct (schedule_appointment_cases inp w)
    as [[Ew Ec] | (pid & did & date_str & notes & Hp & Hd & Ew & Ec)].
  - split; [rewrite Ec | rewrite Ew]; assumption.
  - assert (K : doctors_only (working (snd (schedule_appointment inp w)))).
    { rewrite Ew. unfold doctors_only. cbn [set_appointments appointments].
      apply Forall_snoc; [exact Hw | exact Hd]. }
    split; [rewrite Ec | ]; exact K.
Qed.

(** X7.  Appointments are with doctors: the store asks only that the
    doctor of an appointment is a member of staff, and
    [schedule_appointment] sees to the role.  When every appointment is
    with a member of staff whose role is Doctor, the same is true after
    every sequence of operations. *)
Theorem appointments_are_with_doctors ops inp w :
  holds doctors_only w -> holds doctors_only (snd (session ops inp w)).
Proof.
  revert inp w. apply (session_respects (holds doctors_only)).
  - exact doctors_only_run_operation.
  - intros w [H _]. split; exact H.
Qed.

Lemma appointments_are_with_doctors_witness :
  holds doctors_only
    (snd (session [ScheduleAppointment; ScheduleAppointment]
            ["1"; "1"; "2026-01-05 10:00"; "check"; "1"; "2"] clinic)).
Proof.
  apply (appointments_are_with_doctors [ScheduleAppointment; ScheduleAppointment]
           ["1"; "1"; "2026-01-05 10:00"; "check"; "1"; "2"] clinic).
  split; constructor.
Defined.

Lemma patient_exists_set_appointments pid db l :
  patient_exists pid (set_appointments db l) = patient_exists pid db.
Proof. reflexivity. Qed.

(** X8.  Nothing keeps a doctor from being booked twice for the same
    time: two calls of [schedule_appointment] with the same doctor and the
    same text for the time, for patients that are there, leave two
    appointments with that doctor, under two identifiers, both with the
    time as the DATETIME column keeps that text. *)
Theorem same_slot_is_booked_twice w l1 l1' l2 date_str notes notes' rest
    pid pid' did :
  int_of_str l1 = Some pid -> fits_int64 pid = true ->
  int_of_str l1' = Some pid' -> fits_int64 pid' = true ->
  int_of_str l2 = Some did -> fits_int64 did = true ->
  patient_exists pid (working w) = true ->
  patient_exists pid' (working w) = true ->
  doctor_exists did (working w) = true ->
  exists w' a a',
    session [ScheduleAppointment; ScheduleAppointment]
      (l1 :: l2 :: date_str :: notes :: l1' :: l2 :: date_str :: notes' :: rest) w
    = (rest, w')
    /\ appointments (working w') = (appointments (working w) ++ [a; a'])%list
    /\ committed w' = working w'
    /\ doctor_id a = did /\ doctor_id a' = did
    /\ scheduled_time a = datetime_affinity date_str
    /\ scheduled_time a' = datetime_affinity date_str
    /\ appointment_patient_id a = pid /\ appointment_patient_id a' = pid'
    /\ appointment_id a <> appointment_id a'.
Proof.
  intros Hp Hfp Hp' Hfp' Hd Hfd He He' Hdoc.
  cbn [session run_operation].
  rewrite (schedule_appointment_books w l1 l2 date_str notes _ pid did)
    by assumption.
  cbv zeta.
  match goal with
  | |- context [schedule_appointment _ ?w1] =>
      rewrite (schedule_appointment_books w1 l1' l2 date_str notes' rest pid' did)
        by assumption
  end.
  cbv zeta. cbn [working committed set_appointments appointments].
  eexists _, (new_appointment (working w) pid did date_str notes), _.
  split; [reflexivity | ].
  cbn [working committed set_appointments appointments].
  split; [rewrite <- app_assoc; reflexivity | ].
  split; [reflexivity | ].
  repeat (split; [reflexivity | ]).
  cbn [new_appointment appointment_id set_appointments appointments].
  rewrite map_app. cbn [map appointment_id].
  intros E.
  apply (next_id_fresh
           (map appointment_id (appointments (working w))
            ++ [next_id (map appointment_id (appointments (working w)))])%list).
  rewrite <- E at 1. apply in_or_app. right. left. reflexivity.
Qed.

Lemma same_slot_is_booked_twice_witness :
  exists w' a a',
    session [ScheduleAppointment; ScheduleAppointment]
      ["1"; "1"; "2026-01-05 10:00"; "check"; "1"; "1"; "2026-01-05 10:00"; "again"]
      clinic
    = ([], w')
    /\ appointments (working w') = (appointments (working clinic) ++ [a; a'])%list
    /\ committed w' = working w'
    /\ doctor_id a = 1 /\ doctor_id a' = 1
    /\ scheduled_time a = DateText "2026-01-05 10:00"
    /\ scheduled_time a' = DateText "2026-01-05 10:00"
    /\ appointment_patient_id a = 1 /\ appointment_patient_id a' = 1
    /\ appointment_id a <> appointment_id a'.
Proof.
  apply (same_slot_is_booked_twice clinic "1" "1" "1" "2026-01-05 10:00"
           "check" "again" [] 1 1 1); reflexivity.
Defined.

(** ** Staff *)

(** A call of [add_staff] with a role that is not Doctor. *)
Lemma add_staff_adds w l1 l2 l3 l4 rest :
  string_in (capitalize (strip l2)) ["Nurse"; "Admin"; "Pharmacist"] = true ->
  add_staff (l1 :: l2 :: l3 :: l4 :: rest) w
  = (Ok tt, rest,
     let db := set_staff (working w)
                 (staff_members (working w)
                  ++ [new_staff (working w) (strip l1) (capitalize (strip l2))
                        EmptyString (strip l3) (strip l4)]) in
     {| committed := db; working := db;
        stdout := stdout w ++
          [Text (nl ++ "--- ADD STAFF MEMBER ---");
           Text "Roles: Doctor, Nurse, Admin, Pharmacist";
           Text ("Staff member '" ++ strip l1 ++ "' added successfully as "
                 ++ capitalize (strip l2) ++ ".")] |}).
Proof.
  intros Hr.
  assert (R : string_in (capitalize (strip l2))
                ["Doctor"; "Nurse"; "Admin"; "Pharmacist"] = true).
  { unfold string_in in *. cbn [existsb] in *. rewrite Hr. apply orb_true_r. }
  assert (D : (capitalize (strip l2) =? "Doctor")%string = false).
  { unfold string_in in Hr. cbn [existsb] in Hr.
    destruct (capitalize (strip l2) =? "Doctor")%string eqn:E; [ | reflexivity].
    apply String.eqb_eq in E. rewrite E in Hr. discriminate Hr. }
  unfold add_staff, bind, say, input, ret, execute, execute_query.
  rewrite R, D. cbn [negb int_params forallb].
  unfold exec. cbn [print working]. rewrite R.
  unfold new_staff, print. cbn [committed working stdout].
  rewrite <- !app_assoc. reflexivity.
Qed.

(** A call of [add_staff] with the role Doctor. *)
Lemma add_staff_adds_doctor w l1 l2 l3 l4 l5 rest :
  capitalize (strip l2) = "Doctor" ->
  add_staff (l1 :: l2 :: l3 :: l4 :: l5 :: rest) w
  = (Ok tt, rest,
     let db := set_staff (working w)
                 (staff_members (working w)
                  ++ [new_staff (working w) (strip l1) "Doctor"
                        (strip l3) (strip l4) (strip l5)]) in
     {| committed := db; working := db;
        stdout := stdout w ++
          [Text (nl ++ "--- ADD STAFF MEMBER ---");
           Text "Roles: Doctor, Nurse, Admin, Pharmacist";
           Text ("Staff member '" ++ strip l1 ++ "' added successfully as Doctor.")] |}).
Proof.
  intros Hr.
  unfold add_staff, bind, say, input, ret, execute, execute_query.
  rewrite Hr. cbn [string_in existsb String.eqb Ascii.eqb Bool.eqb orb negb].
  cbn [int_params forallb].
  unfold exec. cbn [print working].
  cbn [string_in existsb String.eqb Ascii.eqb Bool.eqb orb negb].
  unfold new_staff, print. cbn [committed working stdout].
  rewrite <- !app_assoc. reflexivity.
Qed.

(** X9.  A doctor who has just been added can be booked: after
    [add_staff] with a role that reads Doctor in any capitalisation,
    [schedule_appointment] for a patient that is there and the identifier
    that the new doctor got inserts the appointment, with status
    Scheduled. *)
Theorem new_doctor_can_be_booked w l_name l_role l_spec l_contact l_shift
    l_pid l_did date_str notes rest pid :
  capitalize (strip l_role) = "Doctor" ->
  int_of_str l_pid = Some pid -> fits_int64 pid = true ->
  patient_exists pid (working w) = true ->
  int_of_str l_did = Some (next_id (map staff_id (staff_members (working w)))) ->
  fits_int64 (next_id (map staff_id (staff_members (working w)))) = true ->
  exists w',
    session [AddStaff; ScheduleAppointment]
      (l_name :: l_role :: l_spec :: l_contact :: l_shift
       :: l_pid :: l_did :: date_str :: notes :: rest) w
    = (rest, w')
    /\ staff_members (working w')
       = (staff_members (working w)
          ++ [new_staff (working w) (strip l_name) "Doctor" (strip l_spec)
                (strip l_contact) (strip l_shift)])%list
    /\ appointments (working w')
       = (appointments (working w)
          ++ [{| appointment_id := next_id (map appointment_id (appointments (working w)));
                 appointment_patient_id := pid;
                 doctor_id := next_id (map staff_id (staff_members (working w)));
                 scheduled_time := datetime_affinity date_str; status := "Scheduled";
                 notes := notes |}])%list
    /\ committed w' = working w'.
Proof.
  intros Hr Hp Hfp He Hd Hfd.
  cbn [session run_operation].
  rewrite (add_staff_adds_doctor w l_name l_role l_spec l_contact l_shift _ Hr).
  cbv zeta.
  match goal with
  | |- context [schedule_appointment _ ?w1] =>
      rewrite (schedule_appointment_books w1 l_pid l_did date_str notes rest pid
                 (next_id (map staff_id (staff_members (working w)))))
  end; try assumption.
  - cbv zeta. eexists. split; [reflexivity | ]. repeat split.
  - cbn [working]. unfold doctor_exists. cbn [set_staff staff_members].
    rewrite existsb_app. cbn [existsb new_staff staff_id role].
    rewrite Z.eqb_refl. cbn. apply orb_true_r.
Qed.

Lemma new_doctor_can_be_booked_witness :
  exists w',
    session [AddStaff; ScheduleAppointment]
      ["Dr. Lee"; " doctor "; "Cardiology"; "1"; "9-5";
       "1"; "3"; "2026-01-05 10:00"; "check"] clinic
    = ([], w')
    /\ staff_members (working w')
       = (staff_members (working clinic)
          ++ [new_staff (working clinic) (strip "Dr. Lee") "Doctor" (strip "Cardiology")
                (strip "1") (strip "9-5")])%list
    /\ appointments (working w')
       = (appointments (working clinic)
          ++ [{| appointment_id := next_id (map appointment_id (appointments (working clinic)));
                 appointment_patient_id := 1;
                 doctor_id := next_id (map staff_id (staff_members (working clinic)));
                 scheduled_time := DateText "2026-01-05 10:00"; status := "Scheduled";
                 notes := "check" |}])%list
    /\ committed w' = working w'.
Proof.
  apply (new_doctor_can_be_booked clinic "Dr. Lee" " doctor " "Cardiology" "1" "9-5"
           "1" "3" "2026-01-05 10:00" "check" [] 1); reflexivity.
Defined.

(** X10.  [add_staff] asks for a specialization only when the role is
    Doctor.  For Nurse, Admin and Pharmacist, in any capitalisation, the
    two lines after the role are the contact and the shift, and the row is
    stored with an empty specialization; for any other role the call says
    so after the second line and stores nothing. *)
Theorem add_staff_by_role w l_name l_role l_contact l_shift rest :
  (string_in (capitalize (strip l_role)) ["Nurse"; "Admin"; "Pharmacist"] = true ->
   exists w',
     add_staff (l_name :: l_role :: l_contact :: l_shift :: rest) w = (Ok tt, rest, w')
     /\ working w'
        = set_staff (working w)
            (staff_members (working w)
             ++ [{| staff_id := next_id (map staff_id (staff_members (working w)));
                    staff_full_name := strip l_name;
                    role := capitalize (strip l_role);
                    specialization := EmptyString;
                    shift_timing := strip l_shift;
                    staff_contact_number := strip l_contact;
                    is_active := true |}])
     /\ committed w' = working w')
  /\ (string_in (capitalize (strip l_role))
        ["Doctor"; "Nurse"; "Admin"; "Pharmacist"] = false ->
      add_staff (l_name :: l_role :: l_contact :: l_shift :: rest) w
      = (Ok tt, l_contact :: l_shift :: rest,
         print (Text "Error: Invalid Role.")
           (print (Text "Roles: Doctor, Nurse, Admin, Pharmacist")
              (print (Text (nl ++ "--- ADD STAFF MEMBER ---")) w)))).
Proof.
  split.
  - intros Hr. rewrite (add_staff_adds w l_name l_role l_contact l_shift rest Hr).
    cbv zeta. eexists. split; [reflexivity | ]. split; reflexivity.
  - intros Hr. unfold add_staff, bind, say, input, ret.
    rewrite Hr. reflexivity.
Qed.

Lemma add_staff_by_role_witness :
  (exists w',
     add_staff ["Nina"; "nurse"; "2"; "9-5"] fresh = (Ok tt, [], w')
     /\ working w'
        = set_staff (working fresh)
            (staff_members (working fresh)
             ++ [{| staff_id := next_id (map staff_id (staff_members (working fresh)));
                    staff_full_name := strip "Nina";
                    role := capitalize (strip "nurse");
                    specialization := EmptyString;
                    shift_timing := strip "9-5";
                    staff_contact_number := strip "2";
                    is_active := true |}])
     /\ committed w' = working w')
  /\ add_staff ["Sam"; "surgeon"; "3"; "9-5"] fresh
     = (Ok tt, ["3"; "9-5"],
        print (Text "Error: Invalid Role.")
          (print (Text "Roles: Doctor, Nurse, Admin, Pharmacist")
             (print (Text (nl ++ "--- ADD STAFF MEMBER ---")) fresh))).
Proof.
  split.
  - apply (proj1 (add_staff_by_role fresh "Nina" "nurse" "2" "9-5" [])).
    reflexivity.
  - apply (proj2 (add_staff_by_role fresh "Sam" "surgeon" "3" "9-5" [])).
    reflexivity.
Defined.

(** ** Patients *)

Lemma last_snoc {A} (l : list A) x d : last (l ++ [x]) d = x.
Proof.
  induction l as [ | y l IH]; [reflexivity | ].
  cbn [app last]. destruct (l ++ [x])%list eqn:E; [ | exact IH].
  destruct l; discriminate E.
Qed.

Lemma find_snoc_fresh {A} (f : A -> bool) l x :
  existsb f l = false -> f x = true -> find f (l ++ [x]) = Some x.
Proof.
  intros Hl Hx. induction l as [ | y l IH]; cbn [app find].
  - rewrite Hx. reflexivity.
  - cbn [existsb] in Hl. apply orb_false_iff in Hl as [Hy Hl].
    rewrite Hy. apply IH, Hl.
Qed.

Lemma no_row_with_next_id {A} (id : A -> Z) (l : list A) :
  existsb (fun a => id a =? next_id (map id l)) l = false.
Proof.
  destruct (existsb _ l) eqn:E; [ | reflexivity].
  apply existsb_exists in E as (a & Hin & Ha). apply Z.eqb_eq in Ha.
  exfalso. apply (next_id_fresh (map id l)). rewrite <- Ha.
  apply in_map, Hin.
Qed.

Lemma eqb_empty_false s : s <> EmptyString -> (s =? EmptyString)%string = false.
Proof. intros H. apply String.eqb_neq. exact H. Qed.

(** A call of [register_patient] with lines that it takes. *)
Lemma register_patient_registers w l1 l2 l3 l4 l5 l6 l7 rest a :
  strip l1 <> EmptyString ->
  int_of_str l2 = Some a -> 0 < a -> fits_int64 a = true ->
  string_in (upper (strip l3)) ["M"; "F"; "O"] = true ->
  register_patient (l1 :: l2 :: l3 :: l4 :: l5 :: l6 :: l7 :: rest) w
  = (Ok tt, rest,
     let db := set_patients (working w)
                 (patients (working w)
                  ++ [new_patient (working w) (strip l1) a (upper (strip l3))
                        (strip l4) (strip l5) (strip l6) (strip l7)]) in
     {| committed := db; working := db;
        stdout := stdout w ++
          [Text (nl ++ "--- PATIENT REGISTRATION ---");
           Text ("SUCCESS: Patient registered. Assigned Unique ID: "
                 ++ str_int (next_id (map patient_id (patients (working w)))))] |}).
Proof.
  intros Hn Ha Hpos Hfa Hg.
  unfold register_patient, of_option, bind, say, input, ret, raise,
    except_ValueError, execute, execute_query.
  rewrite (eqb_empty_false _ Hn), Ha. cbv beta iota.
  replace (a <=? 0) with false by (symmetry; apply Z.leb_gt; exact Hpos).
  cbv beta iota. rewrite Hg. cbn [negb int_params forallb]. rewrite Hfa. cbn [andb].
  unfold exec. cbn [print working].
  replace (0 <? a) with true by (symmetry; apply Z.ltb_lt; exact Hpos).
  rewrite Hg. cbn [andb].
  unfold lastrowid_patient. cbn [working set_patients patients].
  rewrite map_app. cbn [map]. rewrite last_snoc.
  unfold new_patient, print. cbn [committed working stdout patient_id].
  rewrite <- !app_assoc. reflexivity.
Qed.

(** X11.  A registration can be looked up: when [register_patient] gets a
    name that is not blank, a positive age and a gender among M, F and O
    in any capitalisation, it stores the patient under an identifier that
    no patient had, prints that identifier, and the store then finds the
    patient's name under it. *)
Theorem registered_patient_is_found w l1 l2 l3 l4 l5 l6 l7 rest a :
  strip l1 <> EmptyString ->
  int_of_str l2 = Some a -> 0 < a -> fits_int64 a = true ->
  string_in (upper (strip l3)) ["M"; "F"; "O"] = true ->
  exists w' pid,
    register_patient (l1 :: l2 :: l3 :: l4 :: l5 :: l6 :: l7 :: rest) w
    = (Ok tt, rest, w')
    /\ patient_exists pid (working w) = false
    /\ last (stdout w') (Text EmptyString)
       = Text ("SUCCESS: Patient registered. Assigned Unique ID: " ++ str_int pid)
    /\ select_patient_name pid (working w') = Some (strip l1)
    /\ patient_exists pid (working w') = true
    /\ patients (working w')
       = (patients (working w)
          ++ [{| patient_id := pid; patient_full_name := strip l1; age := a;
                 gender := upper (strip l3); patient_contact_number := strip l4;
                 address := strip l5; blood_group := strip l6;
                 medical_history := strip l7 |}])%list
    /\ committed w' = working w'.
Proof.
  intros Hn Ha Hpos Hfa Hg.
  rewrite (register_patient_registers w l1 l2 l3 l4 l5 l6 l7 rest a) by assumption.
  cbv zeta. eexists _, (next_id (map patient_id (patients (working w)))).
  split; [reflexivity | ].
  cbn [working committed stdout set_patients patients].
  split; [apply (no_row_with_next_id patient_id) | ].
  split.
  { change (stdout w ++ [?x; ?y])%list with (stdout w ++ [x] ++ [y])%list.
    rewrite app_assoc. apply last_snoc. }
  assert (F : find (fun p => patient_id p =? next_id (map patient_id (patients (working w))))
                (patients (working w)
                 ++ [new_patient (working w) (strip l1) a (upper (strip l3))
                       (strip l4) (strip l5) (strip l6) (strip l7)])
              = Some (new_patient (working w) (strip l1) a (upper (strip l3))
                        (strip l4) (strip l5) (strip l6) (strip l7))).
  { apply find_snoc_fresh; [apply (no_row_with_next_id patient_id) | ].
    cbn [new_patient patient_id]. apply Z.eqb_refl. }
  split; [ | split; [ | split; reflexivity]].
  - unfold select_patient_name. cbn [set_patients patients]. rewrite F. reflexivity.
  - unfold patient_exists. cbn [set_patients patients].
    rewrite existsb_app. cbn [existsb new_patient patient_id].
    rewrite Z.eqb_refl. cbn. apply orb_true_r.
Qed.

Lemma registered_patient_is_found_witness :
  exists w' pid,
    register_patient ["Bo"; "41"; "m"; "556"; "Road"; "B+"; "none"] clinic
    = (Ok tt, [], w')
    /\ patient_exists pid (working clinic) = false
    /\ last (stdout w') (Text EmptyString)
       = Text ("SUCCESS: Patient registered. Assigned Unique ID: " ++ str_int pid)
    /\ select_patient_name pid (working w') = Some (strip "Bo")
    /\ patient_exists pid (working w') = true
    /\ patients (working w')
       = (patients (working clinic)
          ++ [{| patient_id := pid; patient_full_name := strip "Bo"; age := 41;
                 gender := upper (strip "m"); patient_contact_number := strip "556";
                 address := strip "Road"; blood_group := strip "B+";
                 medical_history := strip "none" |}])%list
    /\ committed w' = working w'.
Proof.
  apply (registered_patient_is_found clinic "Bo" "41" "m" "556" "Road" "B+" "none" [] 41).
  - discriminate.
  - reflexivity.
  - lia.
  - reflexivity.
  - reflexivity.
Defined.

(** X12.  [register_patient] checks the name, then the age, then the
    gender, and stops at the first that is wrong: it prints the reason,
    reads no further line and leaves the store as it was. *)
Theorem bad_registration_is_turned_down w inp message rest :
  turned_down inp message rest ->
  register_patient inp w
  = (Ok tt, rest,
     print (Text message) (print (Text (nl ++ "--- PATIENT REGISTRATION ---")) w)).
Proof.
  intros T. unfold register_patient, of_option, bind, say, input, ret, raise,
    except_ValueError.
  destruct T as [l_name rest Hn | l_name l_age rest Hn Ha
                | l_name l_age a rest Hn Ha Hpos
                | l_name l_age a l_gender rest Hn Ha Hpos Hg].
  - rewrite Hn. reflexivity.
  - rewrite (eqb_empty_false _ Hn), Ha. reflexivity.
  - rewrite (eqb_empty_false _ Hn), Ha. cbv beta iota.
    replace (a <=? 0) with true by (symmetry; apply Z.leb_le; exact Hpos).
    reflexivity.
  - rewrite (eqb_empty_false _ Hn), Ha. cbv beta iota.
    replace (a <=? 0) with false by (symmetry; apply Z.leb_gt; exact Hpos).
    cbv beta iota. rewrite Hg. reflexivity.
Qed.

Lemma bad_registration_is_turned_down_witness :
  register_patient ["Bo"; "0"; "m"; "556"] clinic
  = (Ok tt, ["m"; "556"],
     print (Text "Error: Age must be a positive integer.")
       (print (Text (nl ++ "--- PATIENT REGISTRATION ---")) clinic)).
Proof.
  apply (bad_registration_is_turned_down clinic ["Bo"; "0"; "m"; "556"]
           "Error: Age must be a positive integer." ["m"; "556"]).
  apply (age_not_positive "Bo" "0" 0 ["m"; "556"]).
  - discriminate.
  - reflexivity.
  - lia.
Defined.

(** ** Inventory *)

Lemma string_in_names name l :
  string_in name (map item_name l)
  = existsb (fun it => (item_name it =? name)%string) l.
Proof.
  unfold string_in. induction l as [ | it l IH]; [reflexivity | ].
  cbn [map existsb]. rewrite IH, (String.eqb_sym name). reflexivity.
Qed.

(** The lines that [add_item] reads as numbers. *)
Lemma add_item_reads w l1 l2 l3 l4 l5 rest q price r :
  int_of_str l3 = Some q -> float_of_str l4 = Some price ->
  reorder_level_of l5 = Some r ->
  add_item (l1 :: l2 :: l3 :: l4 :: l5 :: rest) w
  = (done <- execute (InsertItem (strip l1) (strip l2) q price r) ;;
     if (done : bool)
     then say (Text ("Item '" ++ strip l1 ++ "' added to inventory."))
     else say (Text "Error: Item likely already exists (Name must be unique)."))%py
      rest (print (Text (nl ++ "--- ADD INVENTORY ITEM ---")) w).
Proof.
  intros Hq Hp Hr. unfold reorder_level_of in Hr.
  unfold add_item, of_option, bind, say, input, ret, raise, except_ValueError.
  rewrite Hq, Hp. cbv beta iota.
  destruct (l5 =? EmptyString)%string.
  - inversion Hr; subst. reflexivity.
  - rewrite Hr. reflexivity.
Qed.

(** X13.  A new item can be looked up: when [add_item] gets a name that
    no item has, a quantity that is not negative, a price that is a number
    and, for the quantity and the reorder level, integers within the
    INTEGER range of the store, it stores the item, with the reorder level
    10 when that line is empty, and the store then finds the item under
    its name with the quantity and the price that were typed.  Neither the
    sign of the price nor that of the reorder level is looked at. *)
Theorem added_item_is_found w l1 l2 l3 l4 l5 rest q price pr r :
  int_of_str l3 = Some q -> float_of_str l4 = Some price ->
  reorder_level_of l5 = Some r ->
  fits_int64 q = true -> fits_int64 r = true ->
  stored (strip l1) (working w) = None ->
  0 <= q -> real price = Some pr ->
  exists w' iid,
    add_item (l1 :: l2 :: l3 :: l4 :: l5 :: rest) w = (Ok tt, rest, w')
    /\ inventory (working w')
       = (inventory (working w)
          ++ [{| item_id := iid; item_name := strip l1; category := strip l2;
                 quantity := q; price_per_unit := pr; expiry_date := None;
                 reorder_level := r |}])%list
    /\ select_stock (strip l1) (working w') = Some (iid, pr, q)
    /\ committed w' = working w'
    /\ last (stdout w') (Text EmptyString)
       = Text ("Item '" ++ strip l1 ++ "' added to inventory.").
Proof.
  intros Hq Hp Hr Hfq Hfr Hnew Hpos Hreal.
  assert (Hn : existsb (fun it => (item_name it =? strip l1)%string)
                 (inventory (working w)) = false).
  { destruct (existsb _ _) eqn:E; [ | reflexivity].
    apply existsb_exists in E as (it & Hin & Hit).
    unfold stored in Hnew. apply (find_none _ _ Hnew) in Hin. congruence. }
  rewrite (add_item_reads w l1 l2 l3 l4 l5 rest q price r Hq Hp Hr).
  unfold bind, execute, execute_query, say.
  cbn [int_params forallb]. rewrite Hfq, Hfr. cbn [andb].
  unfold exec. cbn [print working]. rewrite Hreal, string_in_names, Hn.
  replace (0 <=? q) with true by (symmetry; apply Z.leb_le; exact Hpos).
  cbn [negb andb].
  eexists _, (next_id (map item_id (inventory (working w)))).
  split; [reflexivity | ].
  cbn [print working committed stdout set_inventory inventory].
  split; [reflexivity | ]. split; [ | split; [reflexivity | ]].
  - unfold select_stock. cbn [set_inventory inventory].
    rewrite find_snoc_fresh; [reflexivity | exact Hn | ].
    cbn [item_name]. apply String.eqb_refl.
  - apply last_snoc.
Qed.

Lemma added_item_is_found_witness :
  exists w' iid,
    add_item ["Syringe"; "Equipment"; "0"; "-1.5"; EmptyString] clinic = (Ok tt, [], w')
    /\ inventory (working w')
       = (inventory (working clinic)
          ++ [{| item_id := iid; item_name := strip "Syringe";
                 category := strip "Equipment";
                 quantity := 0; price_per_unit := (-1.5)%float; expiry_date := None;
                 reorder_level := 10 |}])%list
    /\ select_stock (strip "Syringe") (working w') = Some (iid, (-1.5)%float, 0)
    /\ committed w' = working w'
    /\ last (stdout w') (Text EmptyString)
       = Text ("Item '" ++ strip "Syringe" ++ "' added to inventory.").
Proof.
  apply (added_item_is_found clinic "Syringe" "Equipment" "0" "-1.5" EmptyString []
           0 (-1.5)%float (-1.5)%float 10); reflexivity.
Defined.

(** X14.  [add_item] leaves the inventory as it was when the row is not
    taken.  With a quantity and a reorder level within the INTEGER range
    of the store, the store turns the row down when the name is that of an
    item in stock, or the quantity is negative, or the price is not a
    number: in the three cases [add_item] prints the store's error and
    then that the item likely exists already.  With a quantity or a
    reorder level beyond that range, the driver raises [OverflowError],
    which [add_item] does not catch, and nothing more is printed. *)
Theorem add_item_turned_down w l1 l2 l3 l4 l5 rest q price r :
  int_of_str l3 = Some q -> float_of_str l4 = Some price ->
  reorder_level_of l5 = Some r ->
  (fits_int64 q = true -> fits_int64 r = true ->
   stored (strip l1) (working w) <> None \/ q < 0 \/ PrimFloat.is_nan price = true ->
   add_item (l1 :: l2 :: l3 :: l4 :: l5 :: rest) w
   = (Ok tt, rest,
      {| committed := committed w; working := working w;
         stdout := stdout w ++
           [Text (nl ++ "--- ADD INVENTORY ITEM ---");
            DataIntegrityError;
            Text "Error: Item likely already exists (Name must be unique)."] |}))
  /\ (fits_int64 q = false \/ fits_int64 r = false ->
      add_item (l1 :: l2 :: l3 :: l4 :: l5 :: rest) w
      = (Raise OverflowError, rest,
         print (Text (nl ++ "--- ADD INVENTORY ITEM ---")) w)).
Proof.
  intros Hq Hp Hr.
  rewrite (add_item_reads w l1 l2 l3 l4 l5 rest q price r Hq Hp Hr).
  split.
  - intros Hfq Hfr Hbad.
    unfold bind, execute, execute_query, say.
    cbn [int_params forallb]. rewrite Hfq, Hfr. cbn [andb].
    assert (E : exec (InsertItem (strip l1) (strip l2) q price r)
                  (working (print (Text (nl ++ "--- ADD INVENTORY ITEM ---")) w))
                = None).
    { unfold exec. cbn [print working]. unfold real.
      destruct (PrimFloat.is_nan price) eqn:N; [reflexivity | ].
      destruct Hbad as [Hs | [Hneg | Hnan]]; [ | | discriminate Hnan].
      - rewrite string_in_names.
        replace (existsb _ _) with true.
        + destruct (PrimFloat.eqb price 0); reflexivity.
        + symmetry. destruct (stored _ _) as [it | ] eqn:S; [ | congruence].
          unfold stored in S. apply existsb_exists. exists it.
          split; [eapply find_some; exact S | ].
          apply (find_some _ _ S).
      - replace (0 <=? q) with false by (symmetry; apply Z.leb_gt; exact Hneg).
        rewrite andb_false_r. destruct (PrimFloat.eqb price 0); reflexivity. }
    rewrite E. unfold print. cbn [committed working stdout].
    rewrite <- !app_assoc. reflexivity.
  - intros Hbig. unfold bind, execute.
    rewrite execute_query_overflow; [reflexivity | ].
    cbn [int_params forallb]. destruct Hbig as [H | H]; rewrite H.
    + reflexivity.
    + rewrite andb_false_r. reflexivity.
Qed.

Lemma add_item_turned_down_witness :
  add_item ["Gauze"; "Equipment"; "7"; "1"; "1"] clinic
  = (Ok tt, [],
     {| committed := committed clinic; working := working clinic;
        stdout := stdout clinic ++
          [Text (nl ++ "--- ADD INVENTORY ITEM ---");
           DataIntegrityError;
           Text "Error: Item likely already exists (Name must be unique)."] |})
  /\ add_item ["Syringe"; "Equipment"; "9223372036854775808"; "1"; "1"] clinic
     = (Raise OverflowError, [],
        print (Text (nl ++ "--- ADD INVENTORY ITEM ---")) clinic).
Proof.
  split.
  - apply (proj1 (add_item_turned_down clinic "Gauze" "Equipment" "7" "1" "1" []
                    7 1%float 1 eq_refl eq_refl eq_refl)); try reflexivity.
    left. vm_compute. discriminate.
  - apply (proj2 (add_item_turned_down clinic "Syringe" "Equipment"
                    "9223372036854775808" "1" "1" [] 9223372036854775808 1%float 1
                    eq_refl eq_refl eq_refl)).
    left. reflexivity.
Defined.

(** X15.  [update_stock] writes nothing when it cannot go on: for a name
    that no item has it says that the item is not found and reads no
    further line, and for a change that is not an integer it says that
    the input is invalid; the store is as it was. *)
Theorem update_stock_stops w l1 l2 rest :
  (select_item (strip l1) (working w) = None ->
   update_stock (l1 :: l2 :: rest) w
   = (Ok tt, l2 :: rest, print (Text "Item not found.") w))
  /\ (forall iid q,
        select_item (strip l1) (working w) = Some (iid, q) ->
        int_of_str l2 = None ->
        update_stock (l1 :: l2 :: rest) w
        = (Ok tt, rest,
           print (Text "Invalid input.")
             (print (Text ("Current Stock: " ++ str_int q)) w))).
Proof.
  split.
  - intros Hno. unfold update_stock, bind, input, query, fetch, say.
    rewrite Hno. reflexivity.
  - intros iid q Hsel Hbad.
    unfold update_stock, of_option, bind, input, query, fetch, say,
      except_ValueError, raise.
    rewrite Hsel. cbn [print working]. rewrite Hbad. reflexivity.
Qed.

Lemma update_stock_stops_witness :
  update_stock ["Aspirin"; "5"] clinic
  = (Ok tt, ["5"], print (Text "Item not found.") clinic)
  /\ update_stock ["Gauze"; "five"] clinic
     = (Ok tt, [],
        print (Text "Invalid input.")
          (print (Text ("Current Stock: " ++ str_int 3)) clinic)).
Proof.
  split.
  - apply (proj1 (update_stock_stops clinic "Aspirin" "5" [])). reflexivity.
  - apply (proj2 (update_stock_stops clinic "Gauze" "five" []) 2 3); reflexivity.
Defined.

(** A call of [update_stock] that goes through. *)
Lemma update_stock_updates w l1 l2 rest it delta :
  stored (strip l1) (working w) = Some it ->
  int_of_str l2 = Some delta ->
  fits_int64 (item_id it) = true ->
  0 <= quantity it + delta <= 2 ^ 63 - 1 ->
  update_stock (l1 :: l2 :: rest) w
  = (Ok tt, rest,
     {| committed := with_quantity (item_id it) (quantity it + delta) (working w);
        working := with_quantity (item_id it) (quantity it + delta) (working w);
        stdout := stdout w ++ [Text ("Current Stock: " ++ str_int (quantity it));
                               Text "Stock updated successfully."] |}).
Proof.
  intros Hit Hd Hid Hq.
  assert (Hsel : select_item (strip l1) (working w)
                 = Some (item_id it, quantity it))
    by (rewrite select_item_stored, Hit; reflexivity).
  unfold update_stock, bind, input, query, fetch, say, except_ValueError,
    of_option, execute, ret.
  rewrite Hsel. cbn [print working]. rewrite Hd.
  replace (quantity it + delta <? 0) with false by (symmetry; apply Z.ltb_ge; lia).
  rewrite execute_query_update by (assumption || lia).
  unfold print. cbn [committed working stdout].
  rewrite <- app_assoc. reflexivity.
Qed.

Lemma map_id_on {A} (f : A -> A) l :
  (forall a, In a l -> f a = a) -> map f l = l.
Proof.
  intros H. induction l as [ | a l IH]; [reflexivity | ].
  cbn [map]. rewrite H by (left; reflexivity).
  rewrite IH; [reflexivity | ]. intros b Hb. apply H. right. exact Hb.
Qed.

Lemma set_quantity_same it : set_quantity (quantity it) it = it.
Proof. destruct it; reflexivity. Qed.

Lemma with_quantity_twice iid q q' db :
  with_quantity iid q (with_quantity iid q' db) = with_quantity iid q db.
Proof.
  unfold with_quantity, set_inventory.
  cbn [inventory patients staff_members appointments bills].
  f_equal. rewrite map_map. apply map_ext. intros it.
  destruct (item_id it =? iid) eqn:E.
  - cbn [set_quantity item_id]. rewrite E. reflexivity.
  - rewrite E. reflexivity.
Qed.

Lemma with_quantity_same it db :
  In it (inventory db) ->
  NoDup (map item_id (inventory db)) ->
  with_quantity (item_id it) (quantity it) db = db.
Proof.
  intros Hin Hnd. unfold with_quantity.
  rewrite map_id_on; [destruct db; reflexivity | ].
  intros it' Hin'. destruct (item_id it' =? item_id it) eqn:E; [ | reflexivity].
  apply Z.eqb_eq in E.
  assert (it' = it); [ | subst; apply set_quantity_same].
  clear - Hin Hin' Hnd E. induction (inventory db) as [ | x l IH]; [destruct Hin | ].
  cbn [map] in Hnd. inversion Hnd as [ | ? ? Hx Hl]; subst.
  destruct Hin as [-> | Hin], Hin' as [-> | Hin'].
  - reflexivity.
  - exfalso. apply Hx. rewrite <- E. apply in_map, Hin'.
  - exfalso. apply Hx. rewrite E. apply in_map, Hin.
  - apply IH; assumption.
Qed.

(** X16.  An adjustment is undone by the opposite adjustment: after
    [update_stock] with a change and [update_stock] with its opposite, for
    the same item, the database is what it was. *)
Theorem opposite_adjustment_restores w l1 l2 l3 rest it delta :
  stored (strip l1) (working w) = Some it ->
  NoDup (map item_id (inventory (working w))) ->
  int_of_str l2 = Some delta ->
  int_of_str l3 = Some (- delta) ->
  fits_int64 (item_id it) = true ->
  0 <= quantity it <= 2 ^ 63 - 1 ->
  0 <= quantity it + delta <= 2 ^ 63 - 1 ->
  exists w',
    session [UpdateStock; UpdateStock] (l1 :: l2 :: l1 :: l3 :: rest) w = (rest, w')
    /\ working w' = working w
    /\ committed w' = working w.
Proof.
  intros Hit Hnd Hd Hd' Hid Hq Hq'.
  cbn [session run_operation].
  rewrite (update_stock_updates w l1 l2 _ it delta) by assumption.
  match goal with
  | |- context [update_stock _ ?w1] =>
      rewrite (update_stock_updates w1 l1 l3 rest
                 (set_quantity (quantity it + delta) it) (- delta))
  end.
  - eexists. split; [reflexivity | ].
    cbn [working committed set_quantity item_id quantity].
    rewrite with_quantity_twice.
    replace (quantity it + delta + - delta) with (quantity it) by lia.
    rewrite with_quantity_same; [split; reflexivity | | exact Hnd].
    unfold stored in Hit. eapply find_some. exact Hit.
  - cbn [working]. rewrite stored_with_quantity, Hit. cbn [option_map].
    rewrite Z.eqb_refl. reflexivity.
  - exact Hd'.
  - exact Hid.
  - cbn [set_quantity quantity]. lia.
Qed.

Lemma opposite_adjustment_restores_witness :
  exists w',
    session [UpdateStock; UpdateStock] ["Gauze"; "20"; "Gauze"; "-20"] clinic = ([], w')
    /\ working w' = working clinic
    /\ committed w' = working clinic.
Proof.
  apply (opposite_adjustment_restores clinic "Gauze" "20" "-20" [] gauze 20);
    try reflexivity.
  - repeat constructor; cbv; intuition discriminate.
  - cbv; split; discriminate.
  - cbv; split; discriminate.
Defined.

(** ** The low stock report *)

Lemma for_each_say_tuple (l : list item) inp w :
  for_each (map (fun it => (item_name it, quantity it, reorder_level it)) l)
    (fun '(name, qty, reorder) =>
       let marker := if qty <=? reorder then "(!)" else EmptyString in
       say (Text (ljust 20 name ++ " " ++ ljust 10 (str_int qty) ++ " "
                  ++ ljust 10 (str_int reorder) ++ " " ++ marker))) inp w
  = (Ok tt, inp,
     {| committed := committed w; working := working w;
        stdout := stdout w ++
          map (fun it =>
                 Text (ljust 20 (item_name it) ++ " " ++ ljust 10 (str_int (quantity it))
                       ++ " " ++ ljust 10 (str_int (reorder_level it)) ++ " "
                       ++ (if quantity it <=? reorder_level it then "(!)"
                           else EmptyString))) l |}).
Proof.
  revert w. induction l as [ | it l IH]; intros w; cbn [map for_each].
  - unfold ret. rewrite app_nil_r. destruct w; reflexivity.
  - unfold bind, say at 1. rewrite IH.
    cbn [print committed working stdout].
    rewrite <- app_assoc. reflexivity.
Qed.

(** X17.  The low stock report lists, in the order of the table, the
    items whose quantity is at or under their reorder level, each with the
    mark (!), or says that all levels are healthy when there is none; it
    reads no line and leaves the store as it was. *)
Theorem low_stock_report inp w :
  check_low_stock inp w
  = (Ok tt, inp,
     {| committed := committed w; working := working w;
        stdout := (stdout w ++ [Text (nl ++ "--- LOW STOCK ALERTS ---")%string]
                   ++ low_stock_lines (low_stock (working w)))%list |}).
Proof.
  unfold check_low_stock, bind, say at 1, query, fetch, select_low_stock, low_stock,
    low_stock_lines.
  cbn [print working].
  assert (L : forall it, In it (filter (fun it => quantity it <=? reorder_level it)
                                  (inventory (working w))) ->
                         (quantity it <=? reorder_level it) = true)
    by (intros it Hin; apply filter_In in Hin as [_ H]; exact H).
  destruct (filter _ (inventory (working w))) as [ | it l].
  - cbn [map]. unfold say, print. cbn [committed working stdout].
    rewrite <- app_assoc. reflexivity.
  - cbn [map]. unfold say at 1 2. cbn [print].
    change ((item_name it, quantity it, reorder_level it)
            :: map (fun it0 => (item_name it0, quantity it0, reorder_level it0)) l)
      with (map (fun it0 => (item_name it0, quantity it0, reorder_level it0)) (it :: l)).
    rewrite for_each_say_tuple. unfold print. cbn [committed working stdout].
    rewrite <- !app_assoc. cbn [app].
    change (low_stock_line it :: map low_stock_line l)
      with (map low_stock_line (it :: l)).
    rewrite (map_ext_in _ low_stock_line (it :: l)); [reflexivity | ].
    intros a Ha. unfold low_stock_line. rewrite (L a Ha). reflexivity.
Qed.

(** ** Invoices without items *)

Lemma zero_plus_SF fee :
  Prim2SF (0 + fee)
  = match Prim2SF fee with
    | S754_zero _ => S754_zero false
    | y => y
    end.
Proof.
  rewrite add_spec. change (Prim2SF 0) with (S754_zero false).
  destruct (Prim2SF fee) as [[ | ] | s | | s m e]; reflexivity.
Qed.

(** [0.0 + fee] is [fee] for the store. *)
Lemma real_zero_plus fee : real (0 + fee) = real fee.
Proof.
  pose proof (zero_plus_SF fee) as A.
  destruct (Prim2SF fee) as [s | s | | s m e] eqn:P.
  - unfold real, PrimFloat.is_nan. rewrite !eqb_spec, A, P.
    change (Prim2SF 0) with (S754_zero false).
    destruct s; reflexivity.
  - rewrite <- P in A. apply Prim2SF_inj in A. rewrite A. reflexivity.
  - rewrite <- P in A. apply Prim2SF_inj in A. rewrite A. reflexivity.
  - rewrite <- P in A. apply Prim2SF_inj in A. rewrite A. reflexivity.
Qed.

Lemma real_below_zero fee t :
  PrimFloat.leb 0 fee = false -> real fee = Some t -> PrimFloat.leb 0 t = false.
Proof.
  unfold real. intros L.
  destruct (PrimFloat.is_nan fee); [discriminate | ].
  destruct (PrimFloat.eqb fee 0) eqn:Z; intros E; inversion E; subst; [ | exact L].
  exfalso. rewrite leb_spec in L. rewrite eqb_spec in Z.
  change (Prim2SF 0) with (S754_zero false) in *.
  destruct (Prim2SF fee) as [[ | ] | [ | ] | | [ | ] m e]; discriminate.
Qed.

Lemma named_patient_exists pid db name :
  select_patient_name pid db = Some name -> patient_exists pid db = true.
Proof.
  unfold select_patient_name, patient_exists. intros H.
  destruct (find _ (patients db)) as [p | ] eqn:F; [ | discriminate H].
  apply existsb_exists. exists p. split; [eapply find_some; exact F | ].
  apply (find_some _ _ F).
Qed.

(** [write_bill] when the store takes the bill. *)
Lemma write_bill_written pid full_name items total t inp w :
  fits_int64 pid = true ->
  patient_exists pid (working w) = true ->
  real total = Some t -> PrimFloat.leb 0 t = true ->
  write_bill pid full_name items total inp w
  = (Ok tt, inp,
     let db := set_bills (working w)
                 (bills (working w)
                  ++ [{| bill_id := next_id (map bill_id (bills (working w)));
                         bill_patient_id := pid; items_summary := join "; " items;
                         total_amount := t; payment_status := "Unpaid" |}]) in
     {| committed := db; working := db;
        stdout := stdout w ++ invoice_text full_name items total |}).
Proof.
  intros Hf Hp Hr Ht.
  unfold write_bill, bind, execute, execute_query.
  cbn [int_params forallb]. rewrite Hf. cbn [andb].
  unfold exec. rewrite Hr, Hp, Ht. cbn [andb].
  unfold say at 1 2 3. cbn [print]. rewrite for_each_say.
  unfold say, print. cbn [committed working stdout].
  unfold invoice_text. rewrite <- !app_assoc. reflexivity.
Qed.

(** [write_bill] when the store turns the bill down. *)
Lemma write_bill_refused pid full_name items total inp w :
  fits_int64 pid = true ->
  (forall t, real total = Some t -> PrimFloat.leb 0 t = false) ->
  write_bill pid full_name items total inp w
  = (Ok tt, inp,
     {| committed := committed w; working := working w;
        stdout := stdout w ++ DataIntegrityError :: invoice_text full_name items total |}).
Proof.
  intros Hf Hr.
  unfold write_bill, bind, execute, execute_query.
  cbn [int_params forallb]. rewrite Hf. cbn [andb].
  assert (E : exec (InsertBill pid (join "; " items) total) (working w) = None).
  { unfold exec. destruct (real total) as [t | ]; [ | reflexivity].
    rewrite (Hr t eq_refl), andb_false_r. reflexivity. }
  rewrite E.
  unfold say at 1 2 3. cbn [print]. rewrite for_each_say.
  unfold say, print. cbn [committed working stdout].
  unfold invoice_text. rewrite <- !app_assoc. reflexivity.
Qed.

Lemma not_yes answer : lower answer <> "y" -> (lower answer =? "y")%string = false.
Proof. intros H. apply String.eqb_neq. exact H. Qed.

(** [generate_bill] for a patient that is there, when no item is asked
    for: what is left to do after the question about the fee. *)
Lemma generate_bill_no_items w l_pid l_more rest pid full_name fee_lines inp
    items total :
  int_of_str l_pid = Some pid -> fits_int64 pid = true ->
  select_patient_name pid (working w) = Some full_name ->
  lower l_more <> "y" ->
  (forall w0, add_fee (fee_lines ++ l_more :: rest)%list w0
              = (Ok (items, total), l_more :: rest, w0)) ->
  inp = (l_pid :: fee_lines ++ l_more :: rest)%list ->
  generate_bill inp w
  = except_ValueError (write_bill pid full_name items total)
      (say (Text "Invalid input error. Transaction aborted.")) rest
      (print (Text ("Invoicing for: " ++ full_name))
         (print (Text (nl ++ "--- GENERATE INVOICE ---")) w)).
Proof.
  intros Hp Hf Hn Hm Hfee ->.
  unfold generate_bill.
  unfold bind at 1, say at 1. unfold except_ValueError.
  unfold bind at 1, input. cbn [app].
  unfold bind at 1, of_option. rewrite Hp. unfold ret at 1.
  unfold bind at 1, query, fetch_by_id. rewrite Hf. cbn [print working].
  rewrite Hn.
  unfold bind at 1, say at 1.
  unfold bind at 1. rewrite Hfee.
  unfold bind at 1. cbn [add_items]. rewrite (not_yes _ Hm). cbn [negb].
  reflexivity.
Qed.

Lemma add_fee_none l_fee rest w0 :
  lower l_fee <> "y" ->
  add_fee ([l_fee] ++ rest)%list w0 = (Ok ([], 0%float), rest, w0).
Proof.
  intros H. unfold add_fee, bind, input, ret. cbn [app].
  rewrite (not_yes _ H). reflexivity.
Qed.

Lemma add_fee_some l_fee l_amount fee rest w0 :
  lower l_fee = "y" -> float_of_str l_amount = Some fee ->
  add_fee ([l_fee; l_amount] ++ rest)%list w0
  = (Ok (["Consultation: $" ++ format_2f fee], (0 + fee)%float), rest, w0).
Proof.
  intros H F. unfold add_fee, of_option, bind, input, ret. cbn [app].
  rewrite H. cbn [String.eqb Ascii.eqb Bool.eqb]. rewrite F. reflexivity.
Qed.

(** X18.  An invoice may be empty: for a patient that is there, with no
    consultation fee and no item, [generate_bill] stores a bill with an
    empty summary and the total 0, and prints the invoice. *)
Theorem empty_invoice_is_billed w l_pid l_fee l_more rest pid full_name :
  int_of_str l_pid = Some pid -> fits_int64 pid = true ->
  select_patient_name pid (working w) = Some full_name ->
  lower l_fee <> "y" -> lower l_more <> "y" ->
  exists w',
    generate_bill (l_pid :: l_fee :: l_more :: rest) w = (Ok tt, rest, w')
    /\ working w'
       = set_bills (working w)
           (bills (working w)
            ++ [{| bill_id := next_id (map bill_id (bills (working w)));
                   bill_patient_id := pid; items_summary := EmptyString;
                   total_amount := 0; payment_status := "Unpaid" |}])
    /\ committed w' = working w'
    /\ stdout w'
       = (stdout w ++ [Text (nl ++ "--- GENERATE INVOICE ---");
                       Text ("Invoicing for: " ++ full_name)]
          ++ invoice_text full_name [] 0)%list.
Proof.
  intros Hp Hf Hn Hfee Hm.
  rewrite (generate_bill_no_items w l_pid l_more rest pid full_name [l_fee]
             _ [] 0%float Hp Hf Hn Hm); [ | | reflexivity].
  - unfold except_ValueError.
    rewrite (write_bill_written pid full_name [] 0 0);
      [ | exact Hf | exact (named_patient_exists _ _ _ Hn) | reflexivity | reflexivity].
    cbv zeta. eexists. split; [reflexivity | ].
    cbn [working committed stdout print].
    split; [reflexivity | ]. split; [reflexivity | ].
    rewrite <- !app_assoc. reflexivity.
  - intros w0. apply add_fee_none, Hfee.
Qed.

Lemma empty_invoice_is_billed_witness :
  exists w',
    generate_bill ["1"; "n"; "n"] clinic = (Ok tt, [], w')
    /\ working w'
       = set_bills (working clinic)
           (bills (working clinic)
            ++ [{| bill_id := next_id (map bill_id (bills (working clinic)));
                   bill_patient_id := 1; items_summary := EmptyString;
                   total_amount := 0; payment_status := "Unpaid" |}])
    /\ committed w' = working w'
    /\ stdout w'
       = (stdout clinic ++ [Text (nl ++ "--- GENERATE INVOICE ---");
                            Text ("Invoicing for: " ++ "Ann Lee")]
          ++ invoice_text "Ann Lee" [] 0)%list.
Proof.
  apply (empty_invoice_is_billed clinic "1" "n" "n" [] 1 "Ann Lee");
    first [reflexivity | discriminate].
Defined.

(** X19.  A consultation fee alone is billed as it was typed: for a
    patient that is there and a fee that is not negative, with no item,
    the bill has the one line of the fee and, as total, the fee as the
    REAL column keeps it. *)
Theorem fee_alone_is_billed w l_pid l_fee l_amount l_more rest pid full_name fee t :
  int_of_str l_pid = Some pid -> fits_int64 pid = true ->
  select_patient_name pid (working w) = Some full_name ->
  lower l_fee = "y" -> float_of_str l_amount = Some fee ->
  lower l_more <> "y" ->
  real fee = Some t -> PrimFloat.leb 0 t = true ->
  exists w',
    generate_bill (l_pid :: l_fee :: l_amount :: l_more :: rest) w = (Ok tt, rest, w')
    /\ working w'
       = set_bills (working w)
           (bills (working w)
            ++ [{| bill_id := next_id (map bill_id (bills (working w)));
                   bill_patient_id := pid;
                   items_summary := "Consultation: $" ++ format_2f fee;
                   total_amount := t; payment_status := "Unpaid" |}])
    /\ committed w' = working w'.
Proof.
  intros Hp Hf Hn Hfee Hamount Hm Hr Ht.
  rewrite (generate_bill_no_items w l_pid l_more rest pid full_name [l_fee; l_amount]
             _ ["Consultation: $" ++ format_2f fee] (0 + fee)%float Hp Hf Hn Hm);
    [ | | reflexivity].
  - unfold except_ValueError.
    rewrite (write_bill_written pid full_name _ (0 + fee)%float t);
      [ | exact Hf | exact (named_patient_exists _ _ _ Hn)
        | rewrite real_zero_plus; exact Hr | exact Ht].
    cbv zeta. eexists. split; [reflexivity | ].
    cbn [working committed stdout print].
    split; [ | reflexivity].
    unfold join. cbn [String.concat]. reflexivity.
  - intros w0. apply add_fee_some; assumption.
Qed.

Lemma fee_alone_is_billed_witness :
  exists w',
    generate_bill ["1"; "Y"; "50"; "n"] clinic = (Ok tt, [], w')
    /\ working w'
       = set_bills (working clinic)
           (bills (working clinic)
            ++ [{| bill_id := next_id (map bill_id (bills (working clinic)));
                   bill_patient_id := 1;
                   items_summary := "Consultation: $" ++ format_2f 50;
                   total_amount := 50; payment_status := "Unpaid" |}])
    /\ committed w' = working w'.
Proof.
  apply (fee_alone_is_billed clinic "1" "Y" "50" "n" [] 1 "Ann Lee" 50 50);
    first [reflexivity | discriminate].
Defined.

(** X20.  An invoice is printed even when its bill is not stored: for a
    patient that is there and a fee below zero or not a number, with no
    item, the store turns the bill down, no bill is written, and
    [generate_bill] still prints the invoice with that total. *)
Theorem refused_bill_is_still_printed w l_pid l_fee l_amount l_more rest pid
    full_name fee :
  int_of_str l_pid = Some pid -> fits_int64 pid = true ->
  select_patient_name pid (working w) = Some full_name ->
  lower l_fee = "y" -> float_of_str l_amount = Some fee ->
  lower l_more <> "y" ->
  PrimFloat.leb 0 fee = false ->
  generate_bill (l_pid :: l_fee :: l_amount :: l_more :: rest) w
  = (Ok tt, rest,
     {| committed := committed w; working := working w;
        stdout := stdout w
                  ++ [Text (nl ++ "--- GENERATE INVOICE ---");
                      Text ("Invoicing for: " ++ full_name);
                      DataIntegrityError]
                  ++ invoice_text full_name ["Consultation: $" ++ format_2f fee]
                       (0 + fee) |}).
Proof.
  intros Hp Hf Hn Hfee Hamount Hm Hneg.
  rewrite (generate_bill_no_items w l_pid l_more rest pid full_name [l_fee; l_amount]
             _ ["Consultation: $" ++ format_2f fee] (0 + fee)%float Hp Hf Hn Hm);
    [ | | reflexivity].
  - unfold except_ValueError.
    rewrite write_bill_refused; [ | exact Hf | ].
    + unfold print. cbn [committed working stdout].
      rewrite <- !app_assoc. reflexivity.
    + intros t Hr. rewrite real_zero_plus in Hr.
      exact (real_below_zero _ _ Hneg Hr).
  - intros w0. apply add_fee_some; assumption.
Qed.

Lemma refused_bill_is_still_printed_witness :
  generate_bill ["1"; "y"; "-5"; "n"] clinic
  = (Ok tt, [],
     {| committed := committed clinic; working := working clinic;
        stdout := stdout clinic
                  ++ [Text (nl ++ "--- GENERATE INVOICE ---");
                      Text ("Invoicing for: " ++ "Ann Lee");
                      DataIntegrityError]
                  ++ invoice_text "Ann Lee" ["Consultation: $" ++ format_2f (-5)]
                       (0 + -5) |}).
Proof.
  apply (refused_bill_is_still_printed clinic "1" "y" "-5" "n" [] 1 "Ann Lee" (-5)%float);
    first [reflexivity | discriminate].
Defined.

(** ** Input that is not a number *)

(** X21.  [schedule_appointment] and [generate_bill] give up on an
    identifier or a fee that is not a number: they print that the input is
    invalid, read no further line and leave the store as it was. *)
Theorem input_that_is_no_number w l1 l2 l3 rest pid :
  (int_of_str l1 = None ->
   schedule_appointment (l1 :: rest) w
   = (Ok tt, rest,
      print (Text "Invalid numeric input.")
        (print (Text (nl ++ "--- SCHEDULE APPOINTMENT ---")) w))
   /\ generate_bill (l1 :: rest) w
      = (Ok tt, rest,
         print (Text "Invalid input error. Transaction aborted.")
           (print (Text (nl ++ "--- GENERATE INVOICE ---")) w)))
  /\ (int_of_str l1 = Some pid -> fits_int64 pid = true ->
      patient_exists pid (working w) = true ->
      int_of_str l2 = None ->
      schedule_appointment (l1 :: l2 :: rest) w
      = (Ok tt, rest,
         {| committed := committed w; working := working w;
            stdout := stdout w ++ [Text (nl ++ "--- SCHEDULE APPOINTMENT ---");
                                   Text (nl ++ "Available Doctors:")]
                      ++ doctor_lines (working w)
                      ++ [Text "Invalid numeric input."] |}))
  /\ (forall full_name,
        int_of_str l1 = Some pid -> fits_int64 pid = true ->
        select_patient_name pid (working w) = Some full_name ->
        lower l2 = "y" -> float_of_str l3 = None ->
        generate_bill (l1 :: l2 :: l3 :: rest) w
        = (Ok tt, rest,
           print (Text "Invalid input error. Transaction aborted.")
             (print (Text ("Invoicing for: " ++ full_name))
                (print (Text (nl ++ "--- GENERATE INVOICE ---")) w)))).
Proof.
  split; [ | split].
  - intros H. split.
    + unfold schedule_appointment, of_option, bind, say, except_ValueError, input, raise.
      rewrite H. reflexivity.
    + unfold generate_bill, of_option, bind, say, except_ValueError, input, raise.
      rewrite H. reflexivity.
  - intros Hp Hf He Hd.
    unfold schedule_appointment, of_option, bind, say, except_ValueError, input,
      query, fetch_by_id, fetch, ret, raise, select_patient.
    rewrite Hp, Hf. cbn [print working]. rewrite He.
    rewrite (for_each_say doctor_line). cbn [print committed working stdout].
    rewrite Hd. unfold doctor_lines, print. cbn [committed working stdout].
    rewrite <- !app_assoc. reflexivity.
  - intros full_name Hp Hf Hn Hy Hfee.
    unfold generate_bill, add_fee, of_option, bind, say, except_ValueError, input,
      query, fetch_by_id, ret, raise.
    rewrite Hp, Hf. cbn [print working]. rewrite Hn, Hy.
    cbn [String.eqb Ascii.eqb Bool.eqb]. rewrite Hfee. reflexivity.
Qed.

Lemma input_that_is_no_number_witness :
  (schedule_appointment ["one"; "1"] clinic
   = (Ok tt, ["1"],
      print (Text "Invalid numeric input.")
        (print (Text (nl ++ "--- SCHEDULE APPOINTMENT ---")) clinic))
   /\ generate_bill ["one"; "1"] clinic
      = (Ok tt, ["1"],
         print (Text "Invalid input error. Transaction aborted.")
           (print (Text (nl ++ "--- GENERATE INVOICE ---")) clinic)))
  /\ schedule_appointment ["1"; "Dr. Lee"; "2026-01-05"] clinic
     = (Ok tt, ["2026-01-05"],
        {| committed := committed clinic; working := working clinic;
           stdout := stdout clinic ++ [Text (nl ++ "--- SCHEDULE APPOINTMENT ---");
                                       Text (nl ++ "Available Doctors:")]
                     ++ doctor_lines (working clinic)
                     ++ [Text "Invalid numeric input."] |})
  /\ generate_bill ["1"; "y"; "fifty"; "n"] clinic
     = (Ok tt, ["n"],
        print (Text "Invalid input error. Transaction aborted.")
          (print (Text ("Invoicing for: " ++ "Ann Lee"))
             (print (Text (nl ++ "--- GENERATE INVOICE ---")) clinic))).
Proof.
  split; [ | split].
  - apply (proj1 (input_that_is_no_number clinic "one" "1" "1" ["1"] 1)).
    reflexivity.
  - apply (proj1 (proj2 (input_that_is_no_number clinic "1" "Dr. Lee" "1"
                           ["2026-01-05"] 1))); reflexivity.
  - apply (proj2 (proj2 (input_that_is_no_number clinic "1" "y" "fifty" ["n"] 1))
             "Ann Lee"); reflexivity.
Defined.

(** ** The directories *)

Lemma view_patients_lists inp w :
  view_patients inp w
  = (Ok tt, inp,
     {| committed := committed w; working := working w;
        stdout := stdout w
                  ++ [Text (nl ++ "--- PATIENT DIRECTORY ---");
                      Text (ljust 5 "ID" ++ " " ++ ljust 25 "Name" ++ " "
                            ++ ljust 5 "Age" ++ " " ++ ljust 5 "Sex" ++ " "
                            ++ ljust 15 "Contact");
                      Text (repeat_string "-" 60)]
                  ++ map patient_line (select_patients (working w)) |}).
Proof.
  unfold view_patients, bind, say at 1 2 3, query, fetch.
  cbn [print working]. rewrite for_each_say.
  unfold print. cbn [committed working stdout].
  rewrite <- !app_assoc. reflexivity.
Qed.

Lemma view_staff_lists role_filter inp w :
  view_staff role_filter inp w
  = (Ok tt, inp,
     {| committed := committed w; working := working w;
        stdout := stdout w
                  ++ [Text (nl ++ "--- STAFF DIRECTORY ("
                            ++ match active_filter role_filter with
                               | Some r => r
                               | None => "ALL"
                               end ++ ") ---");
                      Text (ljust 5 "ID" ++ " " ++ ljust 20 "Name" ++ " "
                            ++ ljust 10 "Role" ++ " " ++ ljust 15 "Specialization"
                            ++ " " ++ ljust 10 "Shift");
                      Text (repeat_string "-" 65)]
                  ++ map staff_line (select_staff role_filter (working w)) |}).
Proof.
  unfold view_staff, bind, say at 1 2 3, query, fetch.
  cbn [print working]. rewrite for_each_say.
  unfold print. cbn [committed working stdout].
  rewrite <- !app_assoc. reflexivity.
Qed.

(** X22.  The directory shows a registration: after a call of
    [register_patient] that is taken, [view_patients] prints its three
    lines of heading and then one line for every patient of the store, in
    the order of the table, the last being that of the new patient with
    the identifier that it was given; it reads no line and leaves the
    store as it was. *)
Theorem directory_shows_registration w l1 l2 l3 l4 l5 l6 l7 rest a :
  strip l1 <> EmptyString ->
  int_of_str l2 = Some a -> 0 < a -> fits_int64 a = true ->
  string_in (upper (strip l3)) ["M"; "F"; "O"] = true ->
  exists w1,
    register_patient (l1 :: l2 :: l3 :: l4 :: l5 :: l6 :: l7 :: rest) w = (Ok tt, rest, w1)
    /\ view_patients rest w1
       = (Ok tt, rest,
          {| committed := committed w1; working := working w1;
             stdout := stdout w1
                       ++ [Text (nl ++ "--- PATIENT DIRECTORY ---");
                           Text (ljust 5 "ID" ++ " " ++ ljust 25 "Name" ++ " "
                                 ++ ljust 5 "Age" ++ " " ++ ljust 5 "Sex" ++ " "
                                 ++ ljust 15 "Contact");
                           Text (repeat_string "-" 60)]
                       ++ map patient_line (select_patients (working w))
                       ++ [patient_line
                             (next_id (map patient_id (patients (working w))),
                              strip l1, a, upper (strip l3), strip l4)] |}).
Proof.
  intros Hn Ha Hpos Hfa Hg.
  rewrite (register_patient_registers w l1 l2 l3 l4 l5 l6 l7 rest a) by assumption.
  cbv zeta. eexists. split; [reflexivity | ].
  rewrite view_patients_lists. cbn [committed working stdout].
  unfold select_patients. cbn [set_patients patients].
  rewrite !map_app. reflexivity.
Qed.

Lemma directory_shows_registration_witness :
  exists w1,
    register_patient ["Bo"; "41"; "m"; "556"; "Road"; "B+"; "none"] clinic
    = (Ok tt, [], w1)
    /\ view_patients [] w1
       = (Ok tt, [],
          {| committed := committed w1; working := working w1;
             stdout := stdout w1
                       ++ [Text (nl ++ "--- PATIENT DIRECTORY ---");
                           Text (ljust 5 "ID" ++ " " ++ ljust 25 "Name" ++ " "
                                 ++ ljust 5 "Age" ++ " " ++ ljust 5 "Sex" ++ " "
                                 ++ ljust 15 "Contact");
                           Text (repeat_string "-" 60)]
                       ++ map patient_line (select_patients (working clinic))
                       ++ [patient_line
                             (next_id (map patient_id (patients (working clinic))),
                              strip "Bo", 41, upper (strip "m"), strip "556")] |}).
Proof.
  apply (directory_shows_registration clinic "Bo" "41" "m" "556" "Road" "B+" "none" [] 41).
  - discriminate.
  - reflexivity.
  - lia.
  - reflexivity.
  - reflexivity.
Defined.

(** X23.  The filter of [view_staff] is exact, while [add_staff] stores
    the roles capitalised: once every member of staff has one of the four
    roles, a filter that is none of them, such as doctor in small letters,
    lists nobody, and an empty filter lists everybody, one line for each
    member of staff in the order of the table, as no filter does. *)
Theorem staff_filter_is_exact w inp r :
  Forall (fun s => In (role s) ["Doctor"; "Nurse"; "Admin"; "Pharmacist"])
    (staff_members (working w)) ->
  r <> EmptyString ->
  ~ In r ["Doctor"; "Nurse"; "Admin"; "Pharmacist"] ->
  view_staff (Some r) inp w
  = (Ok tt, inp,
     {| committed := committed w; working := working w;
        stdout := stdout w
                  ++ [Text (nl ++ "--- STAFF DIRECTORY (" ++ r ++ ") ---");
                      Text (ljust 5 "ID" ++ " " ++ ljust 20 "Name" ++ " "
                            ++ ljust 10 "Role" ++ " " ++ ljust 15 "Specialization"
                            ++ " " ++ ljust 10 "Shift");
                      Text (repeat_string "-" 65)] |})
  /\ view_staff (Some EmptyString) inp w = view_staff None inp w
  /\ view_staff None inp w
     = (Ok tt, inp,
        {| committed := committed w; working := working w;
           stdout := stdout w
                     ++ [Text (nl ++ "--- STAFF DIRECTORY (" ++ "ALL" ++ ") ---");
                         Text (ljust 5 "ID" ++ " " ++ ljust 20 "Name" ++ " "
                               ++ ljust 10 "Role" ++ " " ++ ljust 15 "Specialization"
                               ++ " " ++ ljust 10 "Shift");
                         Text (repeat_string "-" 65)]
                     ++ map (fun s => staff_line (staff_id s, staff_full_name s, role s,
                                                  specialization s, shift_timing s))
                          (staff_members (working w)) |}).
Proof.
  intros Hroles Hr Hnot. split; [ | split].
  - rewrite view_staff_lists. unfold select_staff, active_filter.
    rewrite (eqb_empty_false _ Hr).
    replace (filter _ (staff_members (working w))) with (@nil staff).
    + cbn [map]. rewrite app_nil_r. reflexivity.
    + symmetry. induction Hroles as [ | s l Hs Hl IH]; [reflexivity | ].
      cbn [filter]. destruct (role s =? r)%string eqn:E.
      * apply String.eqb_eq in E. subst r. exfalso. exact (Hnot Hs).
      * exact IH.
  - reflexivity.
  - rewrite view_staff_lists. unfold select_staff. cbn [active_filter].
    rewrite map_map. reflexivity.
Qed.

Lemma staff_filter_is_exact_witness :
  view_staff (Some "doctor") [] clinic
  = (Ok tt, [],
     {| committed := committed clinic; working := working clinic;
        stdout := stdout clinic
                  ++ [Text (nl ++ "--- STAFF DIRECTORY (" ++ "doctor" ++ ") ---");
                      Text (ljust 5 "ID" ++ " " ++ ljust 20 "Name" ++ " "
                            ++ ljust 10 "Role" ++ " " ++ ljust 15 "Specialization"
                            ++ " " ++ ljust 10 "Shift");
                      Text (repeat_string "-" 65)] |})
  /\ view_staff (Some EmptyString) [] clinic = view_staff None [] clinic
  /\ view_staff None [] clinic
     = (Ok tt, [],
        {| committed := committed clinic; working := working clinic;
           stdout := stdout clinic
                     ++ [Text (nl ++ "--- STAFF DIRECTORY (" ++ "ALL" ++ ") ---");
                         Text (ljust 5 "ID" ++ " " ++ ljust 20 "Name" ++ " "
                               ++ ljust 10 "Role" ++ " " ++ ljust 15 "Specialization"
                               ++ " " ++ ljust 10 "Shift");
                         Text (repeat_string "-" 65)]
                     ++ map (fun s => staff_line (staff_id s, staff_full_name s, role s,
                                                  specialization s, shift_timing s))
                          (staff_members (working clinic)) |}).
Proof.
  apply (staff_filter_is_exact clinic [] "doctor").
  - repeat (apply Forall_cons || apply Forall_nil); cbn; auto 6.
  - discriminate.
  - cbv. intuition discriminate.
Defined.

(** X24.  Whatever is typed, a call of [schedule_appointment] leaves the
    appointments as they were or adds one, with status Scheduled, for a
    patient of the store and a member of staff whose role is Doctor. *)
Theorem appointment_needs_patient_and_doctor inp w :
  appointments (working (snd (schedule_appointment inp w))) = appointments (working w)
  \/ exists a,
       appointments (working (snd (schedule_appointment inp w)))
       = (appointments (working w) ++ [a])%list
       /\ patient_exists (appointment_patient_id a) (working w) = true
       /\ doctor_exists (doctor_id a) (working w) = true
       /\ status a = "Scheduled"
       /\ appointment_id a = next_id (map appointment_id (appointments (working w))).
Proof.
  destruct (schedule_appointment_cases inp w)
    as [[Ew _] | (pid & did & date_str & notes & Hp & Hd & Ew & _)].
  - left. rewrite Ew. reflexivity.
  - right. exists (new_appointment (working w) pid did date_str notes).
    rewrite Ew. repeat split; assumption.
Qed.

(** X25.  Whatever is typed, a call of [register_patient] leaves the
    patients as they were or adds one, whose name is not empty, whose age
    is positive and whose gender is M, F or O. *)
Theorem registration_is_checked inp w :
  patients (working (snd (register_patient inp w))) = patients (working w)
  \/ exists p,
       patients (working (snd (register_patient inp w)))
       = (patients (working w) ++ [p])%list
       /\ patient_full_name p <> EmptyString
       /\ 0 < age p
       /\ In (gender p) ["M"; "F"; "O"]
       /\ patient_id p = next_id (map patient_id (patients (working w))).
Proof.
  unfold register_patient, of_option, bind, say, except_ValueError, input,
    ret, raise, execute.
  destruct inp as [ | l1 inp]; [left; reflexivity | ].
  destruct (strip l1 =? EmptyString)%string eqn:Hn; [left; reflexivity | ].
  apply String.eqb_neq in Hn.
  destruct inp as [ | l2 inp]; [left; reflexivity | ].
  destruct (int_of_str l2) as [a | ]; [ | left; reflexivity].
  cbv beta iota.
  destruct (a <=? 0) eqn:Ha; [left; reflexivity | ].
  apply Z.leb_gt in Ha. cbv beta iota.
  destruct inp as [ | l3 inp]; [left; reflexivity | ].
  destruct (string_in (upper (strip l3)) ["M"; "F"; "O"]) eqn:Hg;
    [ | left; reflexivity].
  cbn [negb].
  destruct inp as [ | l4 inp]; [left; reflexivity | ].
  destruct inp as [ | l5 inp]; [left; reflexivity | ].
  destruct inp as [ | l6 inp]; [left; reflexivity | ].
  destruct inp as [ | l7 inp]; [left; reflexivity | ].
  match goal with
  | |- context [execute_query ?s ?w0] =>
      destruct (execute_query_cases s w0) as [[Hw Hc] | (O & Hc & Hr)];
      destruct (execute_query s w0) as [[[ | ] | [ | | ]] w1]
  end; cbn [snd fst print working committed] in *.
  all: try (left; rewrite Hw; reflexivity).
  all: try discriminate Hr.
  right. cbn [outcome] in O. destruct O as (_ & _ & O).
  exists (new_patient (working w) (strip l1) a (upper (strip l3))
            (strip l4) (strip l5) (strip l6) (strip l7)).
  rewrite O. cbn [set_patients patients new_patient patient_full_name age gender
                  patient_id].
  repeat split; try assumption. apply string_in_In, Hg.
Qed.

(** X26.  Names that no item has are passed over by the loop of
    [generate_bill]: for each of them it says that the item is not found,
    asks for no quantity and goes on with the next round; after any number
    of such rounds the lines of the invoice, its total and the store are
    as they were.  A name is looked up as it was typed. *)
Theorem unknown_items_are_passed_over (rounds : list (string * string)) w rest
    items total :
  Forall (fun r => lower (fst r) = "y" /\ stored (snd r) (working w) = None) rounds ->
  add_items (flat_map (fun r => [fst r; snd r]) rounds ++ rest) w items total
  = add_items rest
      {| committed := committed w; working := working w;
         stdout := stdout w
                   ++ map (fun _ => Text "Item not found in inventory.") rounds |}
      items total.
Proof.
  intros H. revert w H.
  induction rounds as [ | [answer name] rounds IH]; intros w H.
  - cbn [flat_map map app]. rewrite app_nil_r. destruct w; reflexivity.
  - inversion H as [ | r l [Hy Hno] Hrest]; subst. cbn [fst snd] in Hy, Hno.
    cbn [flat_map fst snd app add_items]. rewrite (add_items_yes _ Hy).
    unfold fetch. rewrite select_stock_stored, Hno. cbn [option_map].
    rewrite IH by exact Hrest.
    cbn [print committed working stdout map].
    rewrite <- app_assoc. reflexivity.
Qed.

Lemma unknown_items_are_passed_over_witness :
  add_items (flat_map (fun r => [fst r; snd r]) [("y", " Gauze"); ("Y", "gauze")] ++ ["n"])
    clinic [] 0
  = add_items ["n"]
      {| committed := committed clinic; working := working clinic;
         stdout := stdout clinic
                   ++ map (fun _ => Text "Item not found in inventory.")
                        [("y", " Gauze"); ("Y", "gauze")] |}
      [] 0.
Proof.
  apply (unknown_items_are_passed_over [("y", " Gauze"); ("Y", "gauze")] clinic ["n"]
           [] 0%float).
  repeat constructor.
Defined.
